(** * ChronoUI: property cascade, track solver and command-bar overflow

    A shallow embedding of the core of ChronoUI
    ([include/ContextNodeImpl.hpp], [include/WidgetImpl.hpp],
    [src/core/ChronoUI.cpp], [src/core/ChronoStyles.cpp]) together with
    the properties its specification states about it.

    Conventions of the embedding.
    - A C++ [int] is a [Z] kept in the 32-bit signed range: the sums,
      differences and products the source computes on [int]s go through
      [Int32.wrap].
    - A C++ [float] is an IEEE-754 binary32 value, built on [SpecFloat]
      with precision 24 and maximal exponent 128.
    - [std::string] and NUL-terminated [const char*] values are [string];
      a pointer that may be null is an [option].
    - [std::unordered_map] and [std::map] are [gmap]; [std::vector] is
      [list] read with stdpp's lookup.
    - Win32 services the code queries (window DPI, caption metric) and the
      C++ library's [std::stof] are the methods of the [Platform] class.
    - An object is the record of its data members in a store of objects
      by address; the record of a node names the class of the object,
      and a virtual call runs the function of that class. *)

From Stdlib Require Import ZArith Lia Ascii.
From Stdlib Require Import Floats.SpecFloat.
From stdpp Require Import base option list strings gmap.

Local Open Scope Z_scope.

(* ================================================================== *)
(** * Part I. The model                                                *)
(* ================================================================== *)

(** ** 32-bit signed integers *)

Module Int32.

Definition INT_MIN : Z := -2147483648.
Definition INT_MAX : Z := 2147483647.

(** Two's-complement reduction of a mathematical integer to [int]. *)
Definition wrap (z : Z) : Z := (z + 2147483648) mod 4294967296 - 2147483648.

Definition in_range (z : Z) : Prop := INT_MIN <= z <= INT_MAX.

Definition add (a b : Z) : Z := wrap (a + b).
Definition sub (a b : Z) : Z := wrap (a - b).
Definition mul (a b : Z) : Z := wrap (a * b).

End Int32.

(** ** binary32 floating point *)

Module F32.

Definition prec : Z := 24.
Definition emax : Z := 128.

Definition float : Type := spec_float.

(** Conversion [int -> float] (round to nearest, ties to even). *)
Definition of_int (n : Z) : float := binary_normalize prec emax n 0 false.

Definition add : float -> float -> float := SFadd prec emax.
Definition mul : float -> float -> float := SFmul prec emax.
Definition div : float -> float -> float := SFdiv prec emax.
Definition ltb : float -> float -> bool := SFltb.

Definition zero : float := S754_zero false.
Definition hundred : float := of_int 100.

(** The cast [(int)f]: truncation toward zero.  For NaN, the infinities
    and values outside the [int] range the cast has no defined result in
    C++; the x86-64 conversion instruction the compiler emits yields
    [INT_MIN] there, which is what the model returns. *)
Definition to_int (f : float) : Z :=
  match f with
  | S754_zero _ => 0
  | S754_finite s m e =>
      let mag := match e with
                 | Z0 => Zpos m
                 | Zpos p => Zpos m * 2 ^ Zpos p
                 | Zneg p => Zpos m / 2 ^ Zpos p
                 end in
      let v := if s then - mag else mag in
      if (Int32.INT_MIN <=? v) && (v <=? Int32.INT_MAX) then v
      else Int32.INT_MIN
  | _ => Int32.INT_MIN
  end.

End F32.

(** ** The platform *)

(** A window handle; [0] is the null handle. *)
Definition HWND : Type := Z.

Record RECT : Type := { left : Z; top : Z; right : Z; bottom : Z }.


(** What the code asks of Windows and of the C++ runtime.
    [GetDpiForWindow hwnd] is the [UINT] the call returns;
    [GetSystemMetricsForDpi_CYCAPTION dpi] is
    [GetSystemMetricsForDpi(SM_CYCAPTION, dpi)]; [GetClientRect hwnd] is
    the rectangle the call stores; [stof s] is [None] when [std::stof]
    throws. *)
Class Platform : Type := {
  GetDpiForWindow : HWND -> Z;
  GetSystemMetricsForDpi_CYCAPTION : Z -> Z;
  GetClientRect : HWND -> RECT;
  stof : string -> option F32.float
}.

(** [MulDiv(a, b, c)]: the 64-bit product divided by [c], rounded to the
    nearest integer (halves away from zero); [-1] when [c] is zero or the
    quotient does not fit an [int]. *)
Definition MulDiv (nNumber nNumerator nDenominator : Z) : Z :=
  if nDenominator =? 0 then -1
  else
    let p := nNumber * nNumerator in
    let q := (2 * Z.abs p + Z.abs nDenominator) / (2 * Z.abs nDenominator) in
    let r := if Z.sgn p * Z.sgn nDenominator <? 0 then - q else q in
    if (Int32.INT_MIN <=? r) && (r <=? Int32.INT_MAX) then r else -1.

(** [static int Scale(HWND hwnd, int px)]. *)
Definition Scale `{Platform} (hwnd : HWND) (px : Z) : Z :=
  MulDiv px (Int32.wrap (GetDpiForWindow hwnd)) 96.

(** ** Widgets ([include/WidgetImpl.hpp]) *)

Module Widget.

(** The members of [WidgetImpl] that its property functions read and
    write.  [window] is what Windows knows of the window [m_hwnd] names:
    [None] when there is no such window, otherwise whether the window is
    enabled.  [m_validator] is the registered callback as a function of
    the new value, [None] when none is registered. *)
Record WidgetImpl : Type := {
  m_hwnd : HWND;
  window : option bool;
  m_validated : bool;
  m_checked : bool;
  m_validator : option (string -> bool)
}.

(** [::IsWindow(m_hwnd)] and [::IsWindowEnabled(m_hwnd)]. *)
Definition IsWindow (w : WidgetImpl) : bool :=
  negb (m_hwnd w =? 0) && bool_decide (is_Some (window w)).

Definition IsWindowEnabled (w : WidgetImpl) : bool :=
  negb (m_hwnd w =? 0) && bool_decide (window w = Some true).

(** [::EnableWindow(m_hwnd, bEnable)], which the code calls on a window
    that exists. *)
Definition EnableWindow (w : WidgetImpl) (bEnable : bool) : WidgetImpl :=
  {| m_hwnd := m_hwnd w; window := Some bEnable;
     m_validated := m_validated w; m_checked := m_checked w;
     m_validator := m_validator w |}.

Definition with_checked (w : WidgetImpl) (b : bool) : WidgetImpl :=
  {| m_hwnd := m_hwnd w; window := window w;
     m_validated := m_validated w; m_checked := b;
     m_validator := m_validator w |}.

Definition with_validated (w : WidgetImpl) (b : bool) : WidgetImpl :=
  {| m_hwnd := m_hwnd w; window := window w;
     m_validated := b; m_checked := m_checked w;
     m_validator := m_validator w |}.

(** The literal [b ? "true" : "false"]. *)
Definition true_false (b : bool) : string := if b then "true" else "false".

(** What [WidgetImpl::GetProperty] returns before it turns to
    [ContextNodeImpl::GetProperty]: [None] when it does turn to it. *)
Definition GetProperty (w : WidgetImpl) (k : string) : option string :=
  if String.eqb k "checked" then Some (true_false (m_checked w))
  else if String.eqb k "validated" then Some (true_false (m_validated w))
  else if negb (m_hwnd w =? 0) then
    if String.eqb k "enabled" then
      Some (true_false (IsWindow w && IsWindowEnabled w))
    else if String.eqb k "disabled" then
      Some (true_false (negb (IsWindow w && IsWindowEnabled w)))
    else None
  else None.

(** [WidgetImpl::PerformValidation(newValue)], on the widget and its
    [m_properties]: when the verdict differs from [m_validated], the
    member is set and [SetProperty("validated", ...)] runs, which writes
    the property and sets the member once more. *)
Definition PerformValidation (w : WidgetImpl)
  (m_properties : gmap string string) (newValue : string)
  : WidgetImpl * gmap string string :=
  let isValid :=
    match m_validator w with
    | Some callback => callback newValue
    | None => true
    end in
  if negb (Bool.eqb (m_validated w) isValid) then
    (with_validated w isValid,
     <["validated" := true_false isValid]> m_properties)
  else (w, m_properties).

(** [WidgetImpl::OnPropertyChanged(key, value)], with [v] the value or
    the empty string for a null one. *)
Definition OnPropertyChanged (w : WidgetImpl)
  (m_properties : gmap string string) (k v : string)
  : WidgetImpl * gmap string string :=
  let w :=
    if String.eqb k "checked" then with_checked w (String.eqb v "true")
    else if String.eqb k "validated" then
      with_validated w (String.eqb v "true")
    else w in
  let '(w, m_properties) :=
    if String.eqb k "value" || String.eqb k "text" then
      PerformValidation w m_properties v
    else (w, m_properties) in
  let w :=
    if IsWindow w then
      if String.eqb k "enabled" then EnableWindow w (String.eqb v "true")
      else if String.eqb k "disabled" then
        EnableWindow w (negb (String.eqb v "true"))
      else w
    else w in
  (w, m_properties).

End Widget.

(** ** The property store and the style cascade
    ([include/ContextNodeImpl.hpp]) *)

Module ContextNode.

(** An [IContextNode*]: the address of a node. *)
Definition IContextNode : Type := positive.

(** The classes derived from [ContextNodeImpl]: [CellImpl], [LayoutImpl],
    [ContainerImpl], [ChronoControllerImpl] and [WidgetImpl] (with the
    classes derived from it in turn, [PanelImpl] among them), each with
    what it adds that the property functions use. *)
Inductive Derived : Type :=
| OfCell
| OfLayout
| OfContainer
| OfController
| OfWidget (w : Widget.WidgetImpl).

(** The data members of [ContextNodeImpl], and the class of the object
    they belong to, which decides the function a virtual call runs. *)
Record ContextNodeImpl : Type := {
  m_parent : option IContextNode;
  m_properties : gmap string string;
  derived : Derived
}.

(** The nodes alive in the process, by address.  Nodes refer to their
    parents by address, so a write to a node is seen by every node below
    it. *)
Abbreviation store := (gmap IContextNode ContextNodeImpl).

(** [SetParentNode(parent)]: [m_parent = parent], but for the root
    controller, whose override does nothing. *)
Definition SetParentNode (h : store) (this : IContextNode)
  (parent : option IContextNode) : store :=
  alter (fun nd =>
           match derived nd with
           | OfController => nd
           | _ => {| m_parent := parent;
                     m_properties := m_properties nd;
                     derived := derived nd |}
           end) this h.

(** [GetParentNode()]: [m_parent], but for the root controller, whose
    override returns null. *)
Definition GetParentNode (h : store) (this : IContextNode)
  : option IContextNode :=
  nd ← h !! this;
  match derived nd with
  | OfController => None
  | _ => m_parent nd
  end.

(** What a node answers to [GetProperty(key, def)] from the state of its
    object, before its properties are looked at: a widget answers the
    keys [checked] and [validated], and [enabled] and [disabled] when it
    has a window handle; the other classes forward the call to
    [ContextNodeImpl::GetProperty] as it is. *)
Definition answers (nd : ContextNodeImpl) (key : string) : option string :=
  match derived nd with
  | OfWidget w => Widget.GetProperty w key
  | _ => None
  end.

(** The virtual call [this->GetProperty(key, def)]: the override of the
    node's class, then [ContextNodeImpl::GetProperty], which looks in
    [m_properties] and then makes the same virtual call on the parent.
    A cell's parent is its layout, a layout's its panel (a widget) or
    its container, a widget's its cell.  The recursion follows parent
    pointers, so it carries fuel: [None] is "no result" (the fuel ran
    out on a chain that is too long or cyclic, or a pointer dangles). *)
Fixpoint GetProperty (fuel : nat) (h : store) (this : IContextNode)
  (key def : string) : option string :=
  match fuel with
  | O => None
  | S fuel' =>
      match h !! this with
      | None => None
      | Some nd =>
          match answers nd key with
          | Some s => Some s
          | None =>
              match m_properties nd !! key with
              | Some v => Some v
              | None =>
                  match m_parent nd with
                  | Some parent => GetProperty fuel' h parent key def
                  | None => Some def
                  end
              end
          end
      end
  end.

(** The virtual call [this->SetProperty(key, value)]:
    [m_properties[key] = value ? value : ""] in every class, after which
    a widget runs [OnPropertyChanged(key, value)].  (A class of a
    plug-in that overrides [OnPropertyChanged] has a reaction of its own
    as well; the reaction here is [WidgetImpl]'s, which is
    [PanelImpl]'s.) *)
Definition SetProperty (h : store) (this : IContextNode)
  (key : string) (value : option string) : store :=
  alter (fun nd =>
           let properties := <[key := default "" value]> (m_properties nd) in
           match derived nd with
           | OfWidget w =>
               let '(w, properties) :=
                 Widget.OnPropertyChanged w properties key
                                          (default "" value) in
               {| m_parent := m_parent nd; m_properties := properties;
                  derived := OfWidget w |}
           | d => {| m_parent := m_parent nd; m_properties := properties;
                     derived := d |}
           end)
        this h.

(** [HasProperty(key)]: [GetProperty(key) != ""], the default being [""]. *)
Definition HasProperty (fuel : nat) (h : store) (this : IContextNode)
  (key : string) : option bool :=
  k ← GetProperty fuel h this key "";
  Some (negb (String.eqb k "")).

(** [TryResolveState(baseKey, selected, enabled, hovered, active)]. *)
Definition TryResolveState (fuel : nat) (h : store) (this : IContextNode)
  (baseKey : string) (selected enabled hovered active : bool)
  : option string :=
  let check (cond : bool) (k : string) (otherwise : option string) :=
    if cond then
      found ← HasProperty fuel h this k;
      if found : bool then GetProperty fuel h this k "" else otherwise
    else otherwise in
  check (negb enabled) (baseKey +:+ ":disabled")
  (check hovered (baseKey +:+ ":hover")
  (check selected (baseKey +:+ ":selected")
  (check active (baseKey +:+ ":active")
  (check true baseKey (Some ""))))).

Definition empty (s : string) : bool := String.eqb s "".

(** [GetStyle(_prop, _def, _classid, _variant, selected, enabled,
    hovered, active)]. *)
Definition GetStyle (fuel : nat) (h : store) (this : IContextNode)
  (_prop _def _classid _variant : string)
  (selected enabled hovered active : bool) : option string :=
  let level3 :=
    result ← TryResolveState fuel h this _prop
               selected enabled hovered active;
    Some (if empty result then _def else result) in
  let level2 :=
    if negb (empty _classid) then
      result ← TryResolveState fuel h this (_classid +:+ ":" +:+ _prop)
                 selected enabled hovered active;
      if negb (empty result) then Some result else level3
    else level3 in
  if negb (empty _variant) then
    result ← TryResolveState fuel h this
               (_classid +:+ ":" +:+ _variant +:+ ":" +:+ _prop)
               selected enabled hovered active;
    if negb (empty result) then Some result else level2
  else level2.

(** [ancestry h n chain]: [chain] lists the nodes met from [n] up to the
    root of its tree, [n]'s own record first. *)
Inductive ancestry (h : store) : IContextNode -> list ContextNodeImpl -> Prop :=
| ancestry_root n nd :
    h !! n = Some nd -> m_parent nd = None -> ancestry h n [nd]
| ancestry_step n nd p chain :
    h !! n = Some nd -> m_parent nd = Some p -> ancestry h p chain ->
    ancestry h n (nd :: chain).

(** The keys the state-suffix probe visits for a base key, in the order
    the specification lists them. *)
Definition state_keys (baseKey : string)
  (selected enabled hovered active : bool) : list string :=
  (if enabled then [] else [baseKey +:+ ":disabled"]) ++
  (if hovered then [baseKey +:+ ":hover"] else []) ++
  (if selected then [baseKey +:+ ":selected"] else []) ++
  (if active then [baseKey +:+ ":active"] else []) ++
  [baseKey].

(** The value of [key] at the nearest node of a chain whose local map
    defines it. *)
Fixpoint nearest_binding (chain : list ContextNodeImpl) (key : string)
  : option string :=
  match chain with
  | [] => None
  | nd :: up =>
      match m_properties nd !! key with
      | Some v => Some v
      | None => nearest_binding up key
      end
  end.

(** What a node has to say for a key by itself: the answer of its object
    when it gives one, the value its local map binds the key to
    otherwise. *)
Definition own (nd : ContextNodeImpl) (key : string) : option string :=
  match answers nd key with
  | Some s => Some s
  | None => m_properties nd !! key
  end.

(** The answer of the nearest node of a chain that has one. *)
Fixpoint nearest_answer (chain : list ContextNodeImpl) (key : string)
  : option string :=
  match chain with
  | [] => None
  | nd :: up =>
      match own nd key with
      | Some v => Some v
      | None => nearest_answer up key
      end
  end.

(** The keys a widget may answer from its state. *)
Definition state_answered : list string :=
  ["checked"; "validated"; "enabled"; "disabled"].

(** A widget answers [key] from its state: it is [checked] or
    [validated], or the widget has a window handle and it is [enabled]
    or [disabled]. *)
Definition from_state (nd : ContextNodeImpl) (key : string) : Prop :=
  exists w,
    derived nd = OfWidget w
    /\ (key = "checked" \/ key = "validated"
        \/ (Widget.m_hwnd w <> 0
            /\ (key = "enabled" \/ key = "disabled"))).


Definition is_widget (nd : ContextNodeImpl) : Prop :=
  exists w, derived nd = OfWidget w.

(** The first of [keys] that [resolve] maps to a non-empty string, with
    that string; the empty string when there is none. *)
Fixpoint first_nonempty (resolve : string -> option string)
  (keys : list string) : option string :=
  match keys with
  | [] => Some ""
  | k :: ks =>
      v ← resolve k;
      if empty v then first_nonempty resolve ks else Some v
  end.

End ContextNode.

(** ** Outcomes of code that indexes a vector unchecked *)

(** [Undefined] is an execution with no defined result: an
    [operator[]] outside the bounds of its [std::vector]. *)
Inductive behaviour (A : Type) : Type :=
| Returns (a : A)
| Undefined.
Arguments Returns {A} a.
Arguments Undefined {A}.

#[global] Instance behaviour_ret : MRet behaviour := fun A a => Returns a.
#[global] Instance behaviour_bind : MBind behaviour := fun A B f m =>
  match m with
  | Returns a => f a
  | Undefined => Undefined
  end.

(** [v[i]] for an [int] index converted to [size_t]. *)
Definition at_index {A : Type} (v : list A) (i : Z) : behaviour A :=
  if i <? 0 then Undefined
  else match v !! Z.to_nat i with
       | Some a => Returns a
       | None => Undefined
       end.

(** ** Tracks and the layout solver ([LayoutImpl], [src/core/ChronoUI.cpp]) *)

Module Layout.

Import ContextNode.

Inductive SizeUnit : Type := Pixels | Percent | Fill | System.

Inductive StandardMetric : Type :=
| TitleBar | TitleBarThin | CaptionButton | WindowMenu
| MenuHeight | Toolbar | ToolbarButtonHeight | ToolbarButtonLabeledWidth
| StatusBarHeight | EditBoxHeight
| IconSmall | IconMedium | IconLarge
| ScrollbarWidth | CheckBoxSize
| Padding | Margin | Border.

Record WidgetSize : Type := {
  unit : SizeUnit;
  value : F32.float;
  metric : StandardMetric
}.

Definition Fixed (px : F32.float) : WidgetSize :=
  {| unit := Pixels; value := px; metric := TitleBar |}.
Definition FillW (weight : F32.float) : WidgetSize :=
  {| unit := Fill; value := weight; metric := TitleBar |}.
Definition PercentOf (p : F32.float) : WidgetSize :=
  {| unit := Percent; value := p; metric := TitleBar |}.
Definition SystemMetric (m : StandardMetric) : WidgetSize :=
  {| unit := System; value := F32.zero; metric := m |}.

Definition SPLITTER_SIZE : Z := 6.

Record SplitterData : Type := {
  sd_hwnd : HWND;
  isVert : bool;
  index : Z;
  dragging : bool
}.

Record DimPlan : Type := {
  size : WidgetSize;
  min : WidgetSize;
  pos : Z;
  actual : Z;
  splitter : bool;
  sd : option SplitterData;
  savedSize : WidgetSize;
  isCollapsed : bool
}.

Definition with_actual (d : DimPlan) (a : Z) : DimPlan :=
  {| size := size d; min := min d; pos := pos d; actual := a;
     splitter := splitter d; sd := sd d;
     savedSize := savedSize d; isCollapsed := isCollapsed d |}.

Definition with_pos (d : DimPlan) (p : Z) : DimPlan :=
  {| size := size d; min := min d; pos := p; actual := actual d;
     splitter := splitter d; sd := sd d;
     savedSize := savedSize d; isCollapsed := isCollapsed d |}.


(** A [CellImpl*] held by a layout: the address of the cell's node. *)
Definition ICell : Type := IContextNode.

Record LayoutImpl : Type := {
  m_parentNode : HWND;
  m_rCount : Z;
  m_cCount : Z;
  m_rows : list DimPlan;
  m_cols : list DimPlan;
  m_cells : list (option ICell);
  m_lastRect : RECT;
  named_cells : gmap string (Z * Z)
}.

Definition with_geometry (L : LayoutImpl) (r : RECT)
  (rows cols : list DimPlan) : LayoutImpl :=
  {| m_parentNode := m_parentNode L; m_rCount := m_rCount L;
     m_cCount := m_cCount L; m_rows := rows; m_cols := cols;
     m_cells := m_cells L; m_lastRect := r;
     named_cells := named_cells L |}.

(** The [DimPlan] a freshly constructed layout gives every track:
    [{ WidgetSize::Fill(), WidgetSize::Fixed(20) }]. *)
Definition default_DimPlan : DimPlan :=
  {| size := FillW (F32.of_int 1); min := Fixed (F32.of_int 20);
     pos := 0; actual := 0; splitter := false; sd := None;
     savedSize := Fixed F32.zero; isCollapsed := false |}.

Section Solver.
Context `{Platform}.

(** The expression both [solve] and [OnSplitter] use for a track's
    minimum in pixels. *)
Definition minPx (hwnd : HWND) (total : Z) (m : WidgetSize) : Z :=
  match unit m with
  | Percent =>
      F32.to_int (F32.div (F32.mul (F32.of_int total) (value m)) F32.hundred)
  | _ => Scale hwnd (F32.to_int (value m))
  end.

(** First loop of [solve]: fixed, metric and percent tracks are sized and
    taken out of [avail]; the weights of the fill tracks are summed. *)
Fixpoint solve_fixed (hwnd : HWND) (total sSize : Z) (dims : list DimPlan)
  (avail : Z) (fillWeights : F32.float)
  : list DimPlan * Z * F32.float :=
  match dims with
  | [] => ([], avail, fillWeights)
  | d :: rest =>
      let avail := if splitter d then Int32.sub avail sSize else avail in
      let minPx := minPx hwnd total (min d) in
      match unit (size d) with
      | Pixels =>
          let a := Z.max (Scale hwnd (F32.to_int (value (size d)))) minPx in
          let '(rest', avail', fw') :=
            solve_fixed hwnd total sSize rest (Int32.sub avail a) fillWeights in
          (with_actual d a :: rest', avail', fw')
      | System =>
          let a := GetSystemMetricsForDpi_CYCAPTION (GetDpiForWindow hwnd) in
          let '(rest', avail', fw') :=
            solve_fixed hwnd total sSize rest (Int32.sub avail a) fillWeights in
          (with_actual d a :: rest', avail', fw')
      | Percent =>
          let a := Z.max (F32.to_int (F32.div (F32.mul (F32.of_int total)
                                                (value (size d)))
                                              F32.hundred)) minPx in
          let '(rest', avail', fw') :=
            solve_fixed hwnd total sSize rest (Int32.sub avail a) fillWeights in
          (with_actual d a :: rest', avail', fw')
      | Fill =>
          let '(rest', avail', fw') :=
            solve_fixed hwnd total sSize rest avail
                        (F32.add fillWeights (value (size d))) in
          (with_actual d 0 :: rest', avail', fw')
      end
  end.

(** Second loop of [solve]: the fill tracks share [avail] by weight. *)
Definition solve_fill (hwnd : HWND) (total avail : Z)
  (fillWeights : F32.float) (d : DimPlan) : DimPlan :=
  match unit (size d) with
  | Fill =>
      let minPx := minPx hwnd total (min d) in
      with_actual d
        (Z.max (if 0 <? avail
                then F32.to_int (F32.div (F32.mul (F32.of_int avail)
                                                  (value (size d)))
                                         fillWeights)
                else 0) minPx)
  | _ => d
  end.

(** Third loop of [solve]: cumulative positions. *)
Fixpoint solve_pos (sSize : Z) (dims : list DimPlan) (cur : Z)
  : list DimPlan :=
  match dims with
  | [] => []
  | d :: rest =>
      with_pos d cur ::
      solve_pos sSize rest
        (Int32.add cur (Int32.add (actual d)
                                  (if splitter d then sSize else 0)))
  end.

(** The lambda [solve] of [Arrange]. *)
Definition solve (hwnd : HWND) (dims : list DimPlan) (total offset : Z)
  : list DimPlan :=
  let sSize := Scale hwnd SPLITTER_SIZE in
  let '(dims1, avail, fillWeights) :=
    solve_fixed hwnd total sSize dims total F32.zero in
  let dims2 :=
    if F32.ltb F32.zero fillWeights
    then map (solve_fill hwnd total avail fillWeights) dims1
    else dims1 in
  solve_pos sSize dims2 offset.

(** [Arrange(x, y, w, h)], as far as the layout's own state goes: the
    remembered rectangle and the two solved axes.  The batch of window
    placements it then issues reads this state and writes none of it. *)
Definition Arrange (L : LayoutImpl) (x y w h : Z) : LayoutImpl :=
  with_geometry L
    {| left := x; top := y;
       right := Int32.add x w; bottom := Int32.add y h |}
    (solve (m_parentNode L) (m_rows L) h y)
    (solve (m_parentNode L) (m_cols L) w x).

Definition RefreshLayout (L : LayoutImpl) : LayoutImpl :=
  let r := m_lastRect L in
  Arrange L (left r) (top r)
          (Int32.sub (right r) (left r)) (Int32.sub (bottom r) (top r)).

(** [CollapseColumn(index)]. *)
Definition CollapseColumn (L : LayoutImpl) (index : Z)
  : behaviour LayoutImpl :=
  if (index <? 0) || (m_cCount L <=? index) then Returns L
  else
    col ← at_index (m_cols L) index;
    if isCollapsed col then Returns L
    else
      let col' :=
        {| size := min col; min := min col; pos := pos col;
           actual := actual col; splitter := splitter col; sd := sd col;
           savedSize := size col; isCollapsed := true |} in
      Returns (RefreshLayout
                 (with_geometry L (m_lastRect L) (m_rows L)
                    (<[Z.to_nat index := col']> (m_cols L)))).

(** [RestoreColumn(index)]. *)
Definition RestoreColumn (L : LayoutImpl) (index : Z)
  : behaviour LayoutImpl :=
  if (index <? 0) || (m_cCount L <=? index) then Returns L
  else
    col ← at_index (m_cols L) index;
    if negb (isCollapsed col) then Returns L
    else
      let col' :=
        {| size := savedSize col; min := min col; pos := pos col;
           actual := actual col; splitter := splitter col; sd := sd col;
           savedSize := savedSize col; isCollapsed := false |} in
      Returns (RefreshLayout
                 (with_geometry L (m_lastRect L) (m_rows L)
                    (<[Z.to_nat index := col']> (m_cols L)))).

Definition IsColumnCollapsed (L : LayoutImpl) (index : Z)
  : behaviour bool :=
  if (index <? 0) || (m_cCount L <=? index) then Returns false
  else col ← at_index (m_cols L) index; Returns (isCollapsed col).




End Solver.

(** [SetCellName(row, col, name)]. *)
Definition SetCellName (L : LayoutImpl) (row col : Z) (name : string)
  : LayoutImpl :=
  {| m_parentNode := m_parentNode L; m_rCount := m_rCount L;
     m_cCount := m_cCount L; m_rows := m_rows L; m_cols := m_cols L;
     m_cells := m_cells L; m_lastRect := m_lastRect L;
     named_cells := <[name := (row, col)]> (named_cells L) |}.

(** [GetCell(int r, int c)].  The layout object is only read; the cell
    found is given the layout (at address [this]) as its parent when it
    has none, which is a write to the node store. *)
Definition GetCell (h : store) (this : IContextNode) (L : LayoutImpl)
  (r c : Z) : behaviour (option ICell * store) :=
  cell ← at_index (m_cells L) (Int32.add (Int32.mul r (m_cCount L)) c);
  match cell with
  | None => Returns (None, h)
  | Some p =>
      match h !! p with
      | None => Undefined
      | Some nd =>
          match m_parent nd with
          | None => Returns (Some p, SetParentNode h p (Some this))
          | Some _ => Returns (Some p, h)
          end
      end
  end.

(** [GetCell(const char* name)]. *)
Definition GetCell_name (h : store) (this : IContextNode) (L : LayoutImpl)
  (name : string) : behaviour (option ICell * store) :=
  match named_cells L !! name with
  | None => Returns (None, h)
  | Some (row, col) => GetCell h this L row col
  end.



(** What [Arrange] leaves alone in a track: its declared policies, its
    splitter and its collapse state. *)
Definition policy (d : DimPlan)
  : WidgetSize * WidgetSize * bool * option SplitterData * WidgetSize * bool :=
  (size d, min d, splitter d, sd d, savedSize d, isCollapsed d).

(** What the constructor [LayoutImpl(container, p, r, c)] establishes and
    every operation keeps: one [DimPlan] per row and per column, one cell
    per grid position. *)
Definition well_formed (L : LayoutImpl) : Prop :=
  0 <= m_rCount L /\ 0 <= m_cCount L /\
  Z.of_nat (length (m_rows L)) = m_rCount L /\
  Z.of_nat (length (m_cols L)) = m_cCount L /\
  Z.of_nat (length (m_cells L)) = m_rCount L * m_cCount L.

End Layout.

(** ** Cells in command-bar mode ([CellImpl], [src/core/ChronoUI.cpp]) *)

Module Cell.

Import ContextNode.

(** An [IWidget*] (never null inside a cell's [widgets]). *)
Definition IWidget : Type := positive.

(** Widgets come from plug-ins and are reached through the [IWidget]
    interface only; [IWidget_GetProperty w key] is what
    [w->GetProperty(key)] returns, the default of that call being [""]. *)
Class WidgetHost : Type := {
  IWidget_GetProperty : IWidget -> string -> string
}.

Inductive StackMode : Type := Vertical | Horizontal | Tabbed | CommandBar.

Record CellImpl : Type := {
  m_hwnd : HWND;
  widgets : list IWidget;
  nested : option positive;
  scrollEnabled : bool;
  scrollPos : Z;
  m_mode : StackMode;
  m_activeTab : Z;
  overflowItems : list IWidget;
  overflowButton : option IWidget;
  measurementsDirty : bool;
  parentContainer : option positive
}.

Definition with_overflow (cell : CellImpl) (items : list IWidget)
  (button : option IWidget) : CellImpl :=
  {| m_hwnd := m_hwnd cell; widgets := widgets cell; nested := nested cell;
     scrollEnabled := scrollEnabled cell; scrollPos := scrollPos cell;
     m_mode := m_mode cell; m_activeTab := m_activeTab cell;
     overflowItems := items; overflowButton := button;
     measurementsDirty := measurementsDirty cell;
     parentContainer := parentContainer cell |}.

(** [val.back()] and [val.pop_back()] on a non-empty string, and the
    two-character suffix test of [ParseCssDimension]. *)
Definition back (s : string) : option ascii :=
  String.get (String.length s - 1) s.
Definition pop_back (s : string) : string :=
  String.substring 0 (String.length s - 1) s.
Definition suffix2 (s : string) : string :=
  String.substring (String.length s - 2) 2 s.
Definition drop_suffix2 (s : string) : string :=
  String.substring 0 (String.length s - 2) s.

Section CommandBar.
Context `{Platform} `{WidgetHost}.

(** [ParseCssDimension(input, refTotalSize)]. *)
Definition ParseCssDimension (hwnd : HWND) (input : string)
  (refTotalSize : Z) : Z :=
  if String.eqb input "" then -1
  else if String.eqb input "auto" then refTotalSize
  else
    let '(isPercent, val) :=
      if decide (back input = Some "%"%char) then (true, pop_back input)
      else if (2 <? String.length input)%nat then
        if String.eqb (suffix2 input) "px" || String.eqb (suffix2 input) "lu"
        then (false, drop_suffix2 input)
        else (false, input)
      else (false, input) in
    match stof val with
    | Some fVal =>
        if isPercent : bool then
          F32.to_int (F32.mul (F32.of_int refTotalSize)
                              (F32.div fVal F32.hundred))
        else Scale hwnd (F32.to_int fVal)
    | None => -1
    end.

(** The width [MeasureCommandBarWidgets] takes for one widget. *)
Definition widgetWidth (hwnd : HWND) (availableWidth : Z) (w : IWidget) : Z :=
  let wProp := IWidget_GetProperty w "width" in
  if String.eqb wProp "auto" then Scale hwnd 40
  else
    let parsed := ParseCssDimension hwnd wProp availableWidth in
    if parsed <? 0 then Scale hwnd 80 else parsed.

(** The loop of [MeasureCommandBarWidgets] over the widgets still to
    visit, with the values of [usedWidth], [visible] and [overflow] on
    entry. *)
Fixpoint measure_loop (hwnd : HWND) (overflowButton : option IWidget)
  (availableWidth : Z) (allowOverflow : bool) (ws : list IWidget)
  (usedWidth : Z) (visible overflow : list IWidget)
  : list IWidget * list IWidget :=
  match ws with
  | [] => (visible, overflow)
  | w :: rest =>
      if decide (Some w = overflowButton) then
        measure_loop hwnd overflowButton availableWidth allowOverflow rest
                     usedWidth visible overflow
      else
        let overflowBtnWidth := Scale hwnd 40 in
        let spacing := Scale hwnd 4 in
        let widgetWidth := widgetWidth hwnd availableWidth w in
        let maxWidth :=
          if allowOverflow then
            let needsOverflowRoom :=
              negb (bool_decide (overflow = [])) ||
              (availableWidth <?
               Int32.add (Int32.add (Int32.add usedWidth widgetWidth) spacing)
                         overflowBtnWidth) in
            if needsOverflowRoom
            then Int32.sub (Int32.sub availableWidth overflowBtnWidth) spacing
            else availableWidth
          else availableWidth in
        if bool_decide (overflow = []) &&
           (Int32.add usedWidth widgetWidth <=? maxWidth)
        then
          measure_loop hwnd overflowButton availableWidth allowOverflow rest
                       (Int32.add usedWidth (Int32.add widgetWidth spacing))
                       (visible ++ [w]) overflow
        else if allowOverflow then
          measure_loop hwnd overflowButton availableWidth allowOverflow rest
                       usedWidth visible (overflow ++ [w])
        else
          measure_loop hwnd overflowButton availableWidth allowOverflow rest
                       usedWidth visible overflow
  end.

(** [MeasureCommandBarWidgets(availableWidth, visible, overflow,
    allowOverflow)]; the pair returned is the final [visible] and
    [overflow]. *)
Definition MeasureCommandBarWidgets (cell : CellImpl) (availableWidth : Z)
  (allowOverflow : bool) : list IWidget * list IWidget :=
  measure_loop (m_hwnd cell) (overflowButton cell) availableWidth
               allowOverflow (widgets cell) 0 [] [].

(** [CreateOverflowButton()]; [factory] is what
    [WidgetFactory::Create("cw.Button.dll")] hands out. *)
Definition CreateOverflowButton (cell : CellImpl) (factory : option IWidget)
  : option IWidget :=
  match parentContainer cell with
  | None => None
  | Some _ => factory
  end.

(** The lines of the command-bar branch of [UpdateWidgets] that decide
    the overflow: the three property reads, the measurement at the
    client width, and the life of the overflow trigger.  Returned with
    the cell are [visibleWidgets], which the rest of the branch places
    and shows, and [overflowWidgets], which it hides. *)
Definition UpdateWidgets_CommandBar (fuel : nat) (h : store)
  (this : IContextNode) (cell : CellImpl) (factory : option IWidget)
  : option (CellImpl * list IWidget * list IWidget) :=
  soverflow ← GetProperty fuel h this "overflow" "";
  let allowOverflow := negb (String.eqb soverflow "false") in
  align ← GetProperty fuel h this "align-items" "";
  justify ← GetProperty fuel h this "justify-content" "";
  let parentWidth := right (GetClientRect (m_hwnd cell)) in
  let '(visibleWidgets, overflowWidgets) :=
    MeasureCommandBarWidgets cell parentWidth allowOverflow in
  let needsOverflow := negb (bool_decide (overflowWidgets = [])) in
  let button :=
    if needsOverflow then
      match overflowButton cell with
      | None => CreateOverflowButton cell factory
      | Some b => Some b
      end
    else None in
  Some (with_overflow cell overflowWidgets button,
        visibleWidgets, overflowWidgets).

(** [UpdateWidgets()], as far as the cell's data members go: only the
    command-bar branch writes any of them, the other branches place and
    show windows. *)
Definition UpdateWidgets (fuel : nat) (h : store) (this : IContextNode)
  (cell : CellImpl) (factory : option IWidget) : option CellImpl :=
  if m_hwnd cell =? 0 then Some cell
  else if nested cell is Some _ then Some cell
  else if bool_decide (widgets cell = []) then Some cell
  else
    match m_mode cell with
    | CommandBar =>
        r ← UpdateWidgets_CommandBar fuel h this cell factory;
        Some r.1.1
    | _ => Some cell
    end.

(** The widgets [MeasureCommandBarWidgets] measures: all but the
    overflow trigger. *)
Definition measured (overflowButton : option IWidget) (ws : list IWidget)
  : list IWidget :=
  filter (fun w => Some w <> overflowButton) ws.

(** The width the widgets of [ws] ask for in all, each with the spacing
    that follows it. *)
Fixpoint total_demand (hwnd : HWND) (availableWidth : Z) (ws : list IWidget)
  : Z :=
  match ws with
  | [] => 0
  | w :: rest =>
      widgetWidth hwnd availableWidth w + Scale hwnd 4
      + total_demand hwnd availableWidth rest
  end.


End CommandBar.

End Cell.

(** ** Sample configurations *)

Module Samples.

Import ContextNode.

(** A container that holds a theme, with a cell below it.  The cell
    binds [color] to the empty string and knows nothing else. *)
Definition theme : ContextNodeImpl :=
  {| m_parent := None;
     m_properties :=
       <["color" := "black"]>
       (<["btn:color" := "grey"]>
       (<["btn:danger:color" := "red"]>
       (<["x:hover" := "H"]>
       (<["x:selected" := "S"]> ∅))));
     derived := OfContainer |}.

Definition leaf : ContextNodeImpl :=
  {| m_parent := Some 1%positive;
     m_properties := <["color" := ""]> ∅;
     derived := OfCell |}.

Definition nodes : store :=
  <[2%positive := leaf]> (<[1%positive := theme]> ∅).

(** A panel below the theme, with a layout below the panel and a cell
    below the layout.  The panel is a widget with an enabled window,
    neither checked nor failing validation, and no validator; none of
    the three binds a property. *)
Definition plain_widget : Widget.WidgetImpl :=
  {| Widget.m_hwnd := 7; Widget.window := Some true;
     Widget.m_validated := true; Widget.m_checked := false;
     Widget.m_validator := None |}.

Definition panel : ContextNodeImpl :=
  {| m_parent := Some 1%positive; m_properties := ∅;
     derived := OfWidget plain_widget |}.

Definition panel_layout : ContextNodeImpl :=
  {| m_parent := Some 4%positive; m_properties := ∅;
     derived := OfLayout |}.

Definition panel_cell : ContextNodeImpl :=
  {| m_parent := Some 5%positive; m_properties := ∅; derived := OfCell |}.

Definition panel_nodes : store :=
  <[6%positive := panel_cell]>
  (<[5%positive := panel_layout]>
  (<[4%positive := panel]> (<[1%positive := theme]> ∅))).

(** The same panel with [checked] bound to the empty string. *)
Definition unchecked : ContextNodeImpl :=
  {| m_parent := Some 1%positive;
     m_properties := <["checked" := ""]> ∅;
     derived := OfWidget plain_widget |}.

Definition unchecked_nodes : store :=
  <[4%positive := unchecked]> (<[1%positive := theme]> ∅).

(** A desktop at 96 DPI (scale 1:1) whose windows all have a 300 by 40
    client area.  [stof] reads plain decimal digit strings, which is all
    the samples feed it. *)
Fixpoint digits (s : string) (acc : Z) : option Z :=
  match s with
  | EmptyString => Some acc
  | String c rest =>
      let n := Z.of_nat (nat_of_ascii c) in
      if (48 <=? n) && (n <=? 57) then digits rest (10 * acc + (n - 48))
      else None
  end.

Definition desktop : Platform :=
  {| GetDpiForWindow := fun _ => 96;
     GetSystemMetricsForDpi_CYCAPTION := fun _ => 23;
     GetClientRect := fun _ => {| left := 0; top := 0;
                                  right := 300; bottom := 40 |};
     stof := fun s => if String.eqb s "" then None
                      else F32.of_int <$> digits s 0 |}.

Import Layout.

Definition track (s m : WidgetSize) (sp : bool) : DimPlan :=
  {| size := s; min := m; pos := 0; actual := 0; splitter := sp;
     sd := None; savedSize := Fixed F32.zero; isCollapsed := false |}.

(** Three tracks [Fixed(30)], [Fill(1)], [Fixed(60)] with the default
    minimum of 20 pixels. *)
Definition three_tracks : list DimPlan :=
  [ track (Fixed (F32.of_int 30)) (Fixed (F32.of_int 20)) false;
    track (FillW (F32.of_int 1)) (Fixed (F32.of_int 20)) false;
    track (Fixed (F32.of_int 60)) (Fixed (F32.of_int 20)) false ].

(** A 3 by 3 layout whose rows and columns are [three_tracks]. *)
Definition grid3 : LayoutImpl :=
  {| m_parentNode := 1; m_rCount := 3; m_cCount := 3;
     m_rows := three_tracks; m_cols := three_tracks;
     m_cells := map Some [11; 12; 13; 14; 15; 16; 17; 18; 19]%positive;
     m_lastRect := {| left := 0; top := 0; right := 300; bottom := 300 |};
     named_cells := ∅ |}.

(** A 2 by 2 layout at address 10 whose four cells, at addresses 11 to
    14, have no parent yet. *)
Definition grid2 : LayoutImpl :=
  {| m_parentNode := 1; m_rCount := 2; m_cCount := 2;
     m_rows := [default_DimPlan; default_DimPlan];
     m_cols := [default_DimPlan; default_DimPlan];
     m_cells := map Some [11; 12; 13; 14]%positive;
     m_lastRect := {| left := 0; top := 0; right := 0; bottom := 0 |};
     named_cells := <["toolbar" := (0, 0)]> ∅ |}.

Definition orphan : ContextNodeImpl :=
  {| m_parent := None; m_properties := ∅; derived := OfCell |}.

Definition grid2_nodes : store :=
  <[10%positive := {| m_parent := None; m_properties := ∅;
                      derived := OfLayout |}]>
  (<[11%positive := orphan]>
  (<[12%positive := orphan]>
  (<[13%positive := orphan]>
  (<[14%positive := orphan]> ∅)))).







Import Cell.

(** Five buttons, each declaring a width of 80 pixels, in a command bar
    whose window is 300 pixels wide. *)
Definition buttons : WidgetHost :=
  {| IWidget_GetProperty := fun _ key =>
       if String.eqb key "width" then "80px" else "" |}.

Definition toolbar : CellImpl :=
  {| m_hwnd := 1; widgets := [21; 22; 23; 24; 25]%positive;
     nested := None; scrollEnabled := false; scrollPos := 0;
     m_mode := CommandBar; m_activeTab := 0;
     overflowItems := [24; 25]%positive;
     overflowButton := Some 29%positive;
     measurementsDirty := true; parentContainer := Some 5%positive |}.

(** The node of that cell, with overflow switched off, below a root. *)
Definition toolbar_nodes : store :=
  <[3%positive := {| m_parent := Some 1%positive;
                     m_properties := <["overflow" := "false"]> ∅;
                     derived := OfCell |}]>
  (<[1%positive := theme]> ∅).

End Samples.

(** ** Colours and the whole cascade ([include/ContextNodeImpl.hpp]) *)

Module ContextNodeOps.

Import ContextNode.

(** [sscanf_s(s, "%02x%02x%02x", &r, &g, &b)]: the three numbers when
    the call converts all three fields, [None] otherwise. *)
Class Scanf : Type := {
  sscanf_s_hex3 : string -> option (Z * Z * Z)
}.

(** A [COLORREF] is a 32-bit [0x00bbggrr]; the Win32 macros that take it
    apart and build it. *)
Definition GetRValue (rgb : Z) : Z := rgb mod 256.
Definition GetGValue (rgb : Z) : Z := (rgb mod 65536 / 256) mod 256.
Definition GetBValue (rgb : Z) : Z := (rgb / 65536) mod 256.
Definition RGB (r g b : Z) : Z :=
  Z.lor (Z.lor (r mod 256) (Z.shiftl (g mod 256) 8))
        (Z.shiftl (b mod 256) 16).

(** One digit of [%X], for a value below 16. *)
Definition hex_digit (n : Z) : ascii :=
  ascii_of_nat (Z.to_nat (if n <? 10 then 48 + n else 55 + n)).

(** [%02X] of a byte. *)
Definition hex2 (b : Z) : string :=
  String (hex_digit (b / 16)) (String (hex_digit (b mod 16)) EmptyString).

(** [LayoutImpl::SetColor] and [ContainerImpl::SetColor] are written
    [{ return SetColor(key, color); }]: the override calls itself.  With
    fuel for the depth of the call stack, it has no result to give. *)
Fixpoint SetColor_self (fuel : nat) (h : store) (this : IContextNode)
  (key : string) (color : Z) : option store :=
  match fuel with
  | O => None
  | S fuel' => SetColor_self fuel' h this key color
  end.

(** The virtual call [this->SetColor(key, color)].  The overrides of the
    cell, the root controller and the widget forward it to
    [ContextNodeImpl::SetColor], which stores the colour as [#RRGGBB]
    through the virtual [SetProperty]; those of the layout and the
    container call themselves.  [None] is "no result". *)
Definition SetColor (fuel : nat) (h : store) (this : IContextNode)
  (key : string) (color : Z) : option store :=
  nd ← h !! this;
  match derived nd with
  | OfLayout | OfContainer => SetColor_self fuel h this key color
  | _ =>
      let buf := "#" +:+ hex2 (GetRValue color) +:+ hex2 (GetGValue color)
                     +:+ hex2 (GetBValue color) in
      Some (SetProperty h this key (Some buf))
  end.

(** [GetColor(key, defaultColor)]. *)
Definition GetColor `{Scanf} (fuel : nat) (h : store) (this : IContextNode)
  (key : string) (defaultColor : Z) : option Z :=
  val ← GetProperty fuel h this key "";
  Some
    (match val with
     | String "#" rest =>
         if (String.length val <? 7)%nat then defaultColor
         else
           match sscanf_s_hex3 rest with
           | Some (r, g, b) => RGB r g b
           | None => defaultColor
           end
     | _ => defaultColor
     end).

(** All the keys [GetStyle] probes, most specific first: the variant
    level when there is a variant, the class level when there is a class
    name, the bare property. *)
Definition cascade_keys (prop classid variant : string)
  (selected enabled hovered active : bool) : list string :=
  (if empty variant then []
   else state_keys (classid +:+ ":" +:+ variant +:+ ":" +:+ prop)
                   selected enabled hovered active) ++
  (if empty classid then []
   else state_keys (classid +:+ ":" +:+ prop)
                   selected enabled hovered active) ++
  state_keys prop selected enabled hovered active.

(** [defers h key n a k]: from [n], [k] parent links lead to [a], through
    nodes other than [a] that have nothing to say for [key]: they
    neither answer it from their state nor bind it. *)
Inductive defers (h : store) (key : string)
  : IContextNode -> IContextNode -> nat -> Prop :=
| defers_here a : defers h key a a O
| defers_up n nd p a k :
    h !! n = Some nd -> own nd key = None ->
    m_parent nd = Some p -> n <> a -> defers h key p a k ->
    defers h key n a (S k).

End ContextNodeOps.

(** ** Declaring tracks ([LayoutImpl::SetRow], [LayoutImpl::SetCol]) *)

Module LayoutOps.

Import ContextNode Layout.

(** The assignments both [SetRow] and [SetCol] make to a track; [created]
    is the window [CreateWindowW] hands back for a new splitter. *)
Definition declare (d : DimPlan) (vert : bool) (i : Z)
  (s : WidgetSize) (sp : bool) (minimum : WidgetSize) (created : HWND)
  : DimPlan :=
  {| size := s; min := minimum; pos := pos d; actual := actual d;
     splitter := sp;
     sd := if sp && negb (bool_decide (is_Some (sd d)))
           then Some {| sd_hwnd := created; isVert := vert;
                        index := i; dragging := false |}
           else sd d;
     savedSize := savedSize d; isCollapsed := isCollapsed d |}.

(** [SetRow(i, s, sp, min)]. *)
Definition SetRow (L : LayoutImpl) (i : Z) (s : WidgetSize) (sp : bool)
  (minimum : WidgetSize) (created : HWND) : behaviour LayoutImpl :=
  row ← at_index (m_rows L) i;
  Returns (with_geometry L (m_lastRect L)
             (<[Z.to_nat i := declare row false i s sp minimum created]>
                (m_rows L))
             (m_cols L)).

(** [SetCol(i, s, sp, min)]. *)
Definition SetCol (L : LayoutImpl) (i : Z) (s : WidgetSize) (sp : bool)
  (minimum : WidgetSize) (created : HWND) : behaviour LayoutImpl :=
  col ← at_index (m_cols L) i;
  Returns (with_geometry L (m_lastRect L) (m_rows L)
             (<[Z.to_nat i := declare col true i s sp minimum created]>
                (m_cols L))).

(** The sum [solve] forms of the weights of the fill tracks, in track
    order and in binary32. *)
Definition fill_weight_sum (dims : list DimPlan) : F32.float :=
  fold_left (fun acc d =>
               match unit (size d) with
               | Fill => F32.add acc (value (size d))
               | _ => acc
               end) dims F32.zero.

(** What the first loop of [solve] makes of one track's size. *)
Definition first_pass `{Platform} (hwnd : HWND) (total : Z) (d : DimPlan)
  : Z :=
  match unit (size d) with
  | Pixels => Z.max (Scale hwnd (F32.to_int (value (size d))))
                    (minPx hwnd total (min d))
  | System => GetSystemMetricsForDpi_CYCAPTION (GetDpiForWindow hwnd)
  | Percent =>
      Z.max (F32.to_int (F32.div (F32.mul (F32.of_int total)
                                          (value (size d)))
                                 F32.hundred))
            (minPx hwnd total (min d))
  | Fill => 0
  end.

End LayoutOps.

(** ** The widgets of a cell and the widths of a command bar
    ([CellImpl], [src/core/ChronoUI.cpp]) *)

Module CellOps.

Import ContextNode Cell.

Definition with_widgets (cell : CellImpl) (ws : list IWidget) : CellImpl :=
  {| m_hwnd := m_hwnd cell; widgets := ws; nested := nested cell;
     scrollEnabled := scrollEnabled cell; scrollPos := scrollPos cell;
     m_mode := m_mode cell; m_activeTab := m_activeTab cell;
     overflowItems := overflowItems cell;
     overflowButton := overflowButton cell;
     measurementsDirty := measurementsDirty cell;
     parentContainer := parentContainer cell |}.

(** [GetWidget(idx)]. *)
Definition GetWidget (cell : CellImpl) (idx : Z) : option IWidget :=
  if (idx <? 0) || (Int32.wrap (Z.of_nat (length (widgets cell))) <=? idx)
  then None
  else widgets cell !! Z.to_nat idx.

(** [AddWidget(w)], as far as the cell's own members go: a null widget is
    refused, any other is appended.  (The widget's window, its parent
    link and its registration with the container are changed too.) *)
Definition AddWidget (cell : CellImpl) (w : option IWidget)
  : option IWidget * CellImpl :=
  match w with
  | None => (None, cell)
  | Some p => (Some p, with_widgets cell (widgets cell ++ [p]))
  end.

(** [widgets.erase(std::find(widgets.begin(), widgets.end(), w))] when
    the search succeeds: the first occurrence goes. *)
Fixpoint erase_first (w : IWidget) (ws : list IWidget) : list IWidget :=
  match ws with
  | [] => []
  | x :: rest => if decide (x = w) then rest else x :: erase_first w rest
  end.

(** [RemoveWidget(w)] and [DetachWidget(w)] do the same to the list of
    widgets; the first also hides the widget's window. *)
Definition RemoveWidget (cell : CellImpl) (w : IWidget) : CellImpl :=
  with_widgets cell (erase_first w (widgets cell)).

Definition DetachWidget (cell : CellImpl) (w : IWidget) : CellImpl :=
  with_widgets cell (erase_first w (widgets cell)).

(** [SW_HIDE] and [SW_SHOW]. *)
Inductive nCmdShow : Type := SW_HIDE | SW_SHOW.

(** The calls of [UpdateWidgets] that make, destroy, move, show or hide
    the window of a widget: [w->Create(m_hwnd)], [w->Destroy()],
    [w->SetBounds(x, y, cx, cy)], [ShowWindow(w->GetHWND(), nCmdShow)]
    and [DeferWindowPos(hdwp, w->GetHWND(), NULL, x, y, cx, cy, ...)]. *)
Inductive WindowCall : Type :=
| Create (w : IWidget)
| Destroy (w : IWidget)
| SetBounds (w : IWidget) (x y cx cy : Z)
| ShowWindow (w : IWidget) (cmd : nCmdShow)
| DeferWindowPos (w : IWidget) (x y cx cy : Z).

Definition target (c : WindowCall) : IWidget :=
  match c with
  | Create w | Destroy w | SetBounds w _ _ _ _ | ShowWindow w _
  | DeferWindowPos w _ _ _ _ => w
  end.

(** What is seen of the window of a widget: whether it is visible and
    where it is. *)
Record WindowState : Type := {
  shown : bool;
  placed : Z * Z * Z * Z
}.

(** The window of [w] after a list of calls; [None] is "no window".
    [WidgetImpl::Create] makes the window visible and of no size,
    [Destroy] destroys it, [SetBounds] and [DeferWindowPos] move it
    without showing or hiding it, [ShowWindow] shows or hides it. *)
Fixpoint after_calls (calls : list WindowCall) (w : IWidget)
  (state : option WindowState) : option WindowState :=
  match calls with
  | [] => state
  | c :: rest =>
      after_calls rest w
        (if decide (target c = w) then
           match c with
           | Create _ => Some {| shown := true; placed := (0, 0, 0, 0) |}
           | Destroy _ => None
           | SetBounds _ x y cx cy | DeferWindowPos _ x y cx cy =>
               (fun s => {| shown := shown s; placed := (x, y, cx, cy) |})
               <$> state
           | ShowWindow _ cmd =>
               (fun s => {| shown := if cmd is SW_SHOW then true else false;
                            placed := placed s |})
               <$> state
           end
         else state)
  end.

Section Widths.
Context `{Platform} `{WidgetHost}.

(** Inside the first loop over [visibleWidgets] in the command-bar branch
    of [UpdateWidgets]: whether the widget is [auto], and [finalW]. *)
Definition final_width (hwnd : HWND) (parentWidth : Z) (w : IWidget)
  : bool * Z :=
  let wWidthStr := IWidget_GetProperty w "width" in
  if String.eqb wWidthStr "auto" then (true, 0)
  else
    let reqW := ParseCssDimension hwnd wWidthStr parentWidth in
    (false, if 0 <=? reqW then reqW else Scale hwnd 80).

(** That loop.  [cachedWidths] and [isAutoWidth] grow together, so they
    are kept as one list of pairs. *)
Fixpoint cache_widths (hwnd : HWND) (parentWidth : Z)
  (visibleWidgets : list IWidget) (totalUsedWidth autoWidgetCount : Z)
  : list (bool * Z) * Z * Z :=
  match visibleWidgets with
  | [] => ([], totalUsedWidth, autoWidgetCount)
  | w :: rest =>
      let '(isAuto, finalW) := final_width hwnd parentWidth w in
      let '(cached, total, count) :=
        if isAuto : bool then
          cache_widths hwnd parentWidth rest totalUsedWidth
                       (Int32.add autoWidgetCount 1)
        else
          cache_widths hwnd parentWidth rest
                       (Int32.add totalUsedWidth finalW) autoWidgetCount in
      ((isAuto, finalW) :: cached, total, count)
  end.

(** The loop that hands the remaining space to the [auto] widgets. *)
Fixpoint share_remaining (cached : list (bool * Z))
  (widthPerAuto remainderPixels totalUsedWidth : Z)
  : list (bool * Z) * Z :=
  match cached with
  | [] => ([], totalUsedWidth)
  | (true, _) :: rest =>
      let extra := if 0 <? remainderPixels then 1 else 0 in
      let width := Int32.add widthPerAuto extra in
      let remainderPixels :=
        if 0 <? remainderPixels then Int32.sub remainderPixels 1
        else remainderPixels in
      let '(shared, total) :=
        share_remaining rest widthPerAuto remainderPixels
                        (Int32.add totalUsedWidth width) in
      ((true, width) :: shared, total)
  | (false, width) :: rest =>
      let '(shared, total) :=
        share_remaining rest widthPerAuto remainderPixels totalUsedWidth in
      ((false, width) :: shared, total)
  end.

(** The widths before the remaining space is shared: [cachedWidths] with
    [isAutoWidth], [totalUsedWidth] once the spacing and the trigger are
    counted, and [autoWidgetCount].  [overflowButton] is the member as
    the lines before have left it: the trigger when some widget
    overflows and one could be had, null otherwise. *)
Definition CommandBar_fixed (hwnd : HWND) (parentWidth : Z)
  (visibleWidgets : list IWidget) (overflowButton : option IWidget)
  : list (bool * Z) * Z * Z :=
  let spacing := Scale hwnd 1 in
  let '(cached, total, count) :=
    cache_widths hwnd parentWidth visibleWidgets 0 0 in
  let total :=
    if bool_decide (visibleWidgets = []) then total
    else Int32.add total
           (Int32.mul (Int32.wrap (Z.of_nat (length visibleWidgets) - 1))
                      spacing) in
  let total :=
    match overflowButton with
    | Some _ =>
        Int32.add total (Int32.add spacing (Z.quot (Scale hwnd 40) 2))
    | None => total
    end in
  (cached, total, count).

(** The widths the command-bar branch of [UpdateWidgets] gives the
    visible widgets, with [totalUsedWidth]. *)
Definition CommandBar_widths (hwnd : HWND) (parentWidth : Z)
  (visibleWidgets : list IWidget) (overflowButton : option IWidget)
  : list (bool * Z) * Z :=
  let '(cached, total, autoWidgetCount) :=
    CommandBar_fixed hwnd parentWidth visibleWidgets overflowButton in
  let remainingSpace := Int32.sub parentWidth total in
  if (0 <? autoWidgetCount) && (0 <? remainingSpace) then
    share_remaining cached (Z.quot remainingSpace autoWidgetCount)
                    (Z.rem remainingSpace autoWidgetCount) total
  else (cached, total).

(** The loop of the command-bar branch that places the visible widgets,
    with [x] on entry: the calls it makes and [x] on exit.
    [cachedWidths] has an entry for every visible widget. *)
Fixpoint place_visible (hwnd : HWND) (align : string)
  (parentHeight spacing : Z) (visibleWidgets : list IWidget)
  (cachedWidths : list (bool * Z)) (x : Z) : list WindowCall * Z :=
  match visibleWidgets, cachedWidths with
  | w :: rest, (_, wW) :: widths =>
      let reqH :=
        ParseCssDimension hwnd (IWidget_GetProperty w "height")
                          parentHeight in
      let wH :=
        if 0 <=? reqH then reqH
        else if String.eqb align "stretch" || String.eqb align "normal"
             then parentHeight
             else Scale hwnd 32 in
      let wY :=
        if String.eqb align "center"
        then Z.quot (Int32.sub parentHeight wH) 2
        else if String.eqb align "end" then Int32.sub parentHeight wH
             else 0 in
      let '(calls, x') :=
        place_visible hwnd align parentHeight spacing rest widths
                      (Int32.add x (Int32.add wW spacing)) in
      (SetBounds w x wY wW wH
       :: ShowWindow w SW_SHOW
       :: DeferWindowPos w x wY wW (Int32.sub wH 2)
       :: calls, x')
  | _, _ => ([], x)
  end.

(** The command-bar branch of [UpdateWidgets] once more, for the calls
    it makes on the widgets and their windows, in order: the trigger is
    created or destroyed, the visible widgets are placed and shown, the
    trigger is placed and shown, the overflowing widgets are hidden.
    ([EndDeferWindowPos] then puts the deferred positions into effect.) *)
Definition UpdateWidgets_CommandBar_calls (fuel : nat) (h : store)
  (this : IContextNode) (cell : CellImpl) (factory : option IWidget)
  : option (list WindowCall) :=
  soverflow ← GetProperty fuel h this "overflow" "";
  let allowOverflow := negb (String.eqb soverflow "false") in
  align ← GetProperty fuel h this "align-items" "";
  justify ← GetProperty fuel h this "justify-content" "";
  let hwnd := m_hwnd cell in
  let parentHeight := bottom (GetClientRect hwnd) in
  let parentWidth := right (GetClientRect hwnd) in
  let '(visibleWidgets, overflowWidgets) :=
    MeasureCommandBarWidgets cell parentWidth allowOverflow in
  let needsOverflow := negb (bool_decide (overflowWidgets = [])) in
  let '(made, button) :=
    if needsOverflow then
      match overflowButton cell with
      | None =>
          match CreateOverflowButton cell factory with
          | Some btn => ([Create btn], Some btn)
          | None => ([], None)
          end
      | Some b => ([], Some b)
      end
    else
      match overflowButton cell with
      | Some b => ([Destroy b], None)
      | None => ([], None)
      end in
  let '(cachedWidths, totalUsedWidth) :=
    CommandBar_widths hwnd parentWidth visibleWidgets button in
  let spacing := Scale hwnd 1 in
  let x :=
    if String.eqb justify "center"
    then Z.quot (Int32.sub parentWidth totalUsedWidth) 2
    else if String.eqb justify "end" || String.eqb justify "right"
         then Int32.sub parentWidth totalUsedWidth
         else Scale hwnd 1 in
  let x := if x <? 0 then 0 else x in
  let '(placed, x) :=
    place_visible hwnd align parentHeight spacing visibleWidgets
                  cachedWidths x in
  let trigger :=
    match button with
    | Some b =>
        let btnWidth := Z.quot (Scale hwnd 40) 2 in
        let btnH :=
          if String.eqb align "stretch" || String.eqb align "normal"
          then parentHeight
          else Scale hwnd 32 in
        let btnY :=
          if String.eqb align "center"
          then Z.quot (Int32.sub parentHeight btnH) 2
          else if String.eqb align "end" then Int32.sub parentHeight btnH
               else 0 in
        [SetBounds b x btnY btnWidth btnH; ShowWindow b SW_SHOW;
         DeferWindowPos b x btnY btnWidth btnH]
    | None => []
    end in
  Some (made ++ placed ++ trigger
        ++ ((fun w => ShowWindow w SW_HIDE) <$> overflowWidgets)).

End Widths.

(** The widths of the [auto] entries of a list of cached widths. *)
Definition auto_widths (cached : list (bool * Z)) : list Z :=
  map snd (filter (fun e => fst e = true) cached).

Definition fixed_widths (cached : list (bool * Z)) : list Z :=
  map snd (filter (fun e => fst e = false) cached).

Definition sum (l : list Z) : Z := fold_right Z.add 0 l.

End CellOps.

(** ** Style classes ([StyleManager], [src/core/ChronoStyles.cpp]) *)

Module StyleManager.

Import ContextNode.

(** The functions of [StyleManager] read and write a node through the
    virtual [GetProperty] and [SetProperty]; the node is a widget as a
    rule.

    [typedef std::map<std::string, std::string> StyleProperties] and the
    [_registry] of the one [StyleManager]. *)
Abbreviation StyleProperties := (gmap string string).
Abbreviation Registry := (gmap string StyleProperties).

(** The characters of [" \t\n\r"]. *)
Definition is_space (c : ascii) : bool :=
  Ascii.eqb c " " || Ascii.eqb c "009" || Ascii.eqb c "010"
  || Ascii.eqb c "013".

(** [str.find_first_not_of(" \t\n\r")] and
    [str.find_last_not_of(" \t\n\r")]; [None] is [npos]. *)
Fixpoint find_first_not_of (str : string) : option nat :=
  match str with
  | EmptyString => None
  | String c rest =>
      if is_space c then S <$> find_first_not_of rest else Some O
  end.

Fixpoint find_last_not_of (str : string) : option nat :=
  match str with
  | EmptyString => None
  | String c rest =>
      match find_last_not_of rest with
      | Some i => Some (S i)
      | None => if is_space c then None else Some O
      end
  end.

(** [Internal::Trim(str)] ([include/ChronoStyles.hpp]).  When the first
    search succeeds so does the second; were it to give [npos], the
    length [last - first + 1] would wrap to zero for [first = 0] and to
    more than the string holds otherwise. *)
Definition Trim (str : string) : string :=
  match find_first_not_of str with
  | None => str
  | Some first =>
      match find_last_not_of str with
      | Some last => String.substring first (last - first + 1) str
      | None =>
          if first is O then EmptyString
          else String.substring first (String.length str) str
      end
  end.

(** The tokens [std::getline(tokenStream, token, delimiter)] reads one
    after the other until it fails; [token] holds the characters read
    for the current token and [extracted] tells whether the current
    call has taken a character from the stream. *)
Fixpoint getlines (delimiter : ascii) (stream : string) (token : string)
  (extracted : bool) : list string :=
  match stream with
  | EmptyString => if extracted then [token] else []
  | String c rest =>
      if Ascii.eqb c delimiter then
        token :: getlines delimiter rest EmptyString false
      else getlines delimiter rest (token +:+ String c EmptyString) true
  end.

(** [Split(str, delimiter)]. *)
Definition Split (str : string) (delimiter : ascii) : list string :=
  fold_left
    (fun tokens token =>
       let trimmed := Trim token in
       if negb (String.eqb trimmed EmptyString) then tokens ++ [trimmed]
       else tokens)
    (getlines delimiter str EmptyString false) [].

(** A [std::set<std::string>] as the list of its elements in ascending
    order, which is the order a loop over the set visits them in. *)
Fixpoint set_insert (t : string) (s : list string) : list string :=
  match s with
  | [] => [t]
  | x :: rest =>
      if String.eqb t x then s
      else if String.ltb t x then t :: s
      else x :: set_insert t rest
  end.

Definition set_find (t : string) (s : list string) : bool :=
  existsb (String.eqb t) s.

Definition set_erase (t : string) (s : list string) : list string :=
  filter (fun x => x <> t) s.

(** The loop that builds [finalClassStr]. *)
Definition join (classes : list string) : string :=
  fold_left
    (fun finalClassStr c =>
       (if String.eqb finalClassStr EmptyString then finalClassStr
        else finalClassStr +:+ " ") +:+ c)
    classes EmptyString.

Definition pseudoStates : list string :=
  ["hover"; "active"; "checked"; "selected"; "focus"; "disabled"].

(** The entries of a [std::map] in the order a loop over it visits
    them: ascending in the key. *)
Fixpoint entry_insert (e : string * string) (l : list (string * string))
  : list (string * string) :=
  match l with
  | [] => [e]
  | x :: rest =>
      if String.ltb e.1 x.1 then e :: l else x :: entry_insert e rest
  end.

Definition in_order (props : StyleProperties) : list (string * string) :=
  foldr entry_insert [] (map_to_list props).

(** [ApplyClassesImpl(node, classes)]. *)
Definition ApplyClassesImpl (_registry : Registry) (h : store)
  (node : IContextNode) (classes : list string) : store :=
  fold_left
    (fun h cls =>
       let h :=
         match _registry !! cls with
         | Some props =>
             fold_left (fun h kv => SetProperty h node kv.1 (Some kv.2))
                       (in_order props) h
         | None => h
         end in
       fold_left
         (fun h state =>
            let pseudoClassName := cls +:+ ":" +:+ state in
            match _registry !! pseudoClassName with
            | Some props =>
                fold_left
                  (fun h kv =>
                     SetProperty h node (kv.1 +:+ ":" +:+ state)
                                 (Some kv.2))
                  (in_order props) h
            | None => h
            end)
         pseudoStates h)
    classes h.

(** The set built from the tokens of the node's [class] property. *)
Definition existing_classes (currentClassStr : string) : list string :=
  fold_left (fun classes t => set_insert t classes)
            (Split currentClassStr " ") [].

(** [AddClass(node, classNames)]. *)
Definition AddClass (_registry : Registry) (fuel : nat) (h : store)
  (node : option IContextNode) (classNames : string) : option store :=
  match node with
  | None => Some h
  | Some node =>
      currentClassStr ← GetProperty fuel h node "class" "";
      let classes := existing_classes currentClassStr in
      let newTokens := Split classNames " " in
      let '(classes, changed) :=
        fold_left
          (fun '(classes, changed) t =>
             if set_find t classes then (classes, changed)
             else (set_insert t classes, true))
          newTokens (classes, false) in
      if changed : bool then
        let h := SetProperty h node "class" (Some (join classes)) in
        Some (ApplyClassesImpl _registry h node classes)
      else Some h
  end.

(** [RemoveClass(node, classNames)]. *)
Definition RemoveClass (_registry : Registry) (fuel : nat) (h : store)
  (node : option IContextNode) (classNames : string) : option store :=
  match node with
  | None => Some h
  | Some node =>
      currentClassStr ← GetProperty fuel h node "class" "";
      let classes := existing_classes currentClassStr in
      let removeTokens := Split classNames " " in
      let '(classes, changed) :=
        fold_left
          (fun '(classes, changed) t =>
             let erased := set_find t classes in
             (set_erase t classes, changed || erased))
          removeTokens (classes, false) in
      if changed : bool then
        let h := SetProperty h node "class" (Some (join classes)) in
        Some (ApplyClassesImpl _registry h node classes)
      else Some h
  end.

(** [HasClass(node, className)]. *)
Definition HasClass (fuel : nat) (h : store) (node : option IContextNode)
  (className : string) : option bool :=
  match node with
  | None => Some false
  | Some node =>
      currentClassStr ← GetProperty fuel h node "class" "";
      Some (existsb (fun t => String.eqb t className)
                    (Split currentClassStr " "))
  end.

(** [ToggleClass(node, className)]. *)
Definition ToggleClass (_registry : Registry) (fuel : nat) (h : store)
  (node : option IContextNode) (className : string) : option store :=
  has ← HasClass fuel h node className;
  if has : bool then RemoveClass _registry fuel h node className
  else AddClass _registry fuel h node className.

(** A class name as [Split] hands it out: not empty, without a space,
    and left alone by [Trim]. *)
(** The tokens [Split] keeps of those [getline] reads. *)
Definition kept (tokens : list string) : list string :=
  filter (fun t => t <> EmptyString) (Trim <$> tokens).

Abbreviation chars := String.list_ascii_of_string.

Definition token (t : string) : Prop :=
  t <> EmptyString /\ Trim t = t /\ " "%char ∉ chars t.

(** The value a node itself binds a key to. *)
Definition local (h : store) (n : IContextNode) (key : string)
  : option string :=
  nd ← h !! n; m_properties nd !! key.

(** [h'] differs from [h] at most in the properties of [node]. *)
Definition only_at (node : IContextNode) (h h' : store) : Prop :=
  (forall n, n <> node -> h' !! n = h !! n)
  /\ m_parent <$> h' !! node = m_parent <$> h !! node.

(** The rule of a class binds a key; a rule of the class for one of the
    pseudo states gives rise to the key; either. *)
Definition binds_base (_registry : Registry) (cls key : string) : Prop :=
  exists props, _registry !! cls = Some props /\ is_Some (props !! key).

Definition binds_state (_registry : Registry) (cls key : string) : Prop :=
  exists state props k,
    state ∈ pseudoStates
    /\ _registry !! (cls +:+ ":" +:+ state) = Some props
    /\ is_Some (props !! k)
    /\ k +:+ ":" +:+ state = key.

Definition writes (_registry : Registry) (cls key : string) : Prop :=
  binds_base _registry cls key \/ binds_state _registry cls key.

(** A list of writes to a node, one after the other. *)
Definition write_all (h : store) (node : IContextNode)
  (ws : list (string * string)) : store :=
  fold_left (fun h kv => SetProperty h node kv.1 (Some kv.2)) ws h.

(** The writes [ApplyClassesImpl] makes, in order: for a class the
    entries of its rule, then for each pseudo state the entries of the
    rule for that state under the keys with the state for suffix. *)
Definition base_writes (_registry : Registry) (cls : string)
  : list (string * string) :=
  match _registry !! cls with
  | Some props => in_order props
  | None => []
  end.

Definition state_writes (_registry : Registry) (cls state : string)
  : list (string * string) :=
  match _registry !! (cls +:+ ":" +:+ state) with
  | Some props =>
      (fun kv => (kv.1 +:+ ":" +:+ state, kv.2)) <$> in_order props
  | None => []
  end.

Definition class_writes (_registry : Registry) (cls : string)
  : list (string * string) :=
  base_writes _registry cls
  ++ concat (state_writes _registry cls <$> pseudoStates).

Definition all_writes (_registry : Registry) (classes : list string)
  : list (string * string) :=
  concat (class_writes _registry <$> classes).

(** The object at an address is a widget. *)
Definition widget_at (h : store) (n : IContextNode) : Prop :=
  exists nd, h !! n = Some nd /\ is_widget nd.

(** The rule of a class binds [value] or [text]: applied to a widget it
    has the widget validate again, which can write [validated]. *)
Definition revalidates (_registry : Registry) (cls : string) : Prop :=
  binds_base _registry cls "value" \/ binds_base _registry cls "text".

(** A list of names in ascending order. *)
Fixpoint ascending (l : list string) : Prop :=
  match l with
  | [] => True
  | x :: rest =>
      Forall (fun y => String.ltb x y = true) rest /\ ascending rest
  end.

End StyleManager.

(** ** Loading style sheets ([StyleManager::LoadCSS]) *)

Module StyleSheet.

Import ContextNode StyleManager.

(** The first loop of [LoadCSS], which takes the comments out: [i] is
    the loop index on entry of an iteration.  [String.index n s1 s2] is
    [s2.find(s1, n)], with [None] for [npos].  Every iteration moves the
    index forward, so the length of the text is fuel enough. *)
Fixpoint sanitize (fuel : nat) (cssContent : string) (i : nat)
  (cleanContent : string) : string :=
  match fuel with
  | O => cleanContent
  | S fuel' =>
      if (i <? String.length cssContent)%nat then
        if (i + 1 <? String.length cssContent)%nat
           && bool_decide (String.get i cssContent = Some "/"%char)
           && bool_decide (String.get (i + 1) cssContent = Some "*"%char)
        then
          match String.index (i + 2) "*/" cssContent with
          | Some closeComment =>
              sanitize fuel' cssContent (closeComment + 1 + 1)
                       (cleanContent +:+ " ")
          | None => cleanContent
          end
        else
          match String.get i cssContent with
          | Some c =>
              sanitize fuel' cssContent (i + 1)
                       (cleanContent +:+ String c EmptyString)
          | None => cleanContent
          end
      else cleanContent
  end.

(** The declarations of a rule body: [props] after the loop over
    [rawProps]. *)
Definition declarations (bodyStr : string) : StyleProperties :=
  fold_left
    (fun props rawProp =>
       match Split rawProp ":" with
       | [k; v] => <[k := v]> props
       | _ => props
       end)
    (Split bodyStr ";") ∅.

(** The body of the loop over [selectors]: the leading dot goes, an
    empty selector is skipped, and [_registry[sel][kv.first] =
    kv.second] runs for every declaration. *)
Definition register (_registry : Registry) (sel : string)
  (props : StyleProperties) : Registry :=
  let sel :=
    match sel with
    | String "."%char rest => rest
    | _ => sel
    end in
  if String.eqb sel EmptyString then _registry
  else
    map_fold
      (fun k v _registry =>
         <[sel := <[k := v]> (default ∅ (_registry !! sel))]> _registry)
      _registry props.

(** The second loop of [LoadCSS]; [pos] moves forward in every
    iteration. *)
Fixpoint parse (fuel : nat) (_registry : Registry) (cleanContent : string)
  (pos : nat) : Registry :=
  match fuel with
  | O => _registry
  | S fuel' =>
      if (pos <? String.length cleanContent)%nat then
        match String.index pos "{" cleanContent with
        | None => _registry
        | Some openBrace =>
            match String.index openBrace "}" cleanContent with
            | None => _registry
            | Some closeBrace =>
                let selectorStr :=
                  String.substring pos (openBrace - pos) cleanContent in
                let bodyStr :=
                  String.substring (openBrace + 1)
                                   (closeBrace - openBrace - 1)
                                   cleanContent in
                let props := declarations bodyStr in
                let _registry :=
                  fold_left (fun _registry sel => register _registry sel props)
                            (Split selectorStr ",") _registry in
                parse fuel' _registry cleanContent (closeBrace + 1)
            end
        end
      else _registry
  end.

(** [LoadCSS(cssContent)]: the registry after the call. *)
Definition LoadCSS (_registry : Registry) (cssContent : string) : Registry :=
  let cleanContent :=
    sanitize (String.length cssContent) cssContent 0 EmptyString in
  parse (String.length cleanContent) _registry cleanContent 0.

(** The value a class's rule gives a key. *)
Definition declared (_registry : Registry) (cls key : string)
  : option string :=
  props ← _registry !! cls; props !! key.

(** The characters with a meaning in a style sheet. *)
Definition special : list ascii :=
  ["{"; "}"; ";"; ":"; ","; "/"]%char.

(** A text that starts and ends with a character that is no white
    space and has no special character in it. *)
Definition word (s : string) : Prop :=
  find_first_not_of s = Some 0%nat
  /\ find_last_not_of s = Some (String.length s - 1)%nat
  /\ forall d, d ∈ special -> d ∉ chars s.

End StyleSheet.

(** ** More sample configurations *)

Module MoreSamples.

Import ContextNode ContextNodeOps.

(** A scanner for [sscanf_s] with the format [%02x%02x%02x], after the
    C standard's description of the conversion.  Each field skips white
    space and then takes at most two characters that make an optionally
    signed hexadecimal number, one digit at least: two digits, one digit
    when the next character is no digit, or a sign and a digit.  The
    number goes to an [unsigned int], so a negative one wraps.  A field
    that begins with [0x] is the beginning of a number with a prefix and
    no number by itself: it fails.  What follows the third field is not
    looked at. *)
Definition hex_value (c : ascii) : option Z :=
  let n := Z.of_nat (nat_of_ascii c) in
  if (48 <=? n) && (n <=? 57) then Some (n - 48)
  else if (65 <=? n) && (n <=? 70) then Some (n - 55)
  else if (97 <=? n) && (n <=? 102) then Some (n - 87)
  else None.

(** [isspace] in the C locale. *)
Definition isspace (c : ascii) : bool :=
  let n := Z.of_nat (nat_of_ascii c) in
  (n =? 32) || ((9 <=? n) && (n <=? 13)).

Fixpoint skip_space (s : string) : string :=
  match s with
  | String c rest => if isspace c then skip_space rest else s
  | EmptyString => s
  end.

(** One [%02x]: the number read and the input left. *)
Definition scan_field (s : string) : option (Z * string) :=
  match skip_space s with
  | EmptyString => None
  | String c1 rest1 =>
      let digit_next :=
        match rest1 with
        | String c2 rest2 => d ← hex_value c2; Some (d, rest2)
        | EmptyString => None
        end in
      match hex_value c1 with
      | Some d1 =>
          match rest1 with
          | String c2 rest2 =>
              if Ascii.eqb c1 "0" && (Ascii.eqb c2 "x" || Ascii.eqb c2 "X")
              then None
              else
                match hex_value c2 with
                | Some d2 => Some (16 * d1 + d2, rest2)
                | None => Some (d1, rest1)
                end
          | EmptyString => Some (d1, rest1)
          end
      | None =>
          if Ascii.eqb c1 "+" then digit_next
          else if Ascii.eqb c1 "-" then
            '(d, rest) ← digit_next;
            Some ((4294967296 - d) mod 4294967296, rest)
          else None
      end
  end.

Definition hex_fields : Scanf :=
  {| sscanf_s_hex3 := fun s =>
       '(r, s) ← scan_field s;
       '(g, s) ← scan_field s;
       '(b, _) ← scan_field s;
       Some (r, g, b) |}.

Import Layout.

(** [Samples.grid3] with its middle column collapsed: the column carries
    its minimum as size and remembers [Fill(1)]. *)
Definition collapsed_track : DimPlan :=
  {| size := Fixed (F32.of_int 20); min := Fixed (F32.of_int 20);
     pos := 30; actual := 20; splitter := false; sd := None;
     savedSize := FillW (F32.of_int 1); isCollapsed := true |}.

Definition grid3_collapsed : LayoutImpl :=
  {| m_parentNode := 1; m_rCount := 3; m_cCount := 3;
     m_rows := Samples.three_tracks;
     m_cols :=
       [ Samples.track (Fixed (F32.of_int 30)) (Fixed (F32.of_int 20)) false;
         collapsed_track;
         Samples.track (Fixed (F32.of_int 60)) (Fixed (F32.of_int 20)) false ];
     m_cells := map Some [11; 12; 13; 14; 15; 16; 17; 18; 19]%positive;
     m_lastRect := {| left := 0; top := 0; right := 300; bottom := 300 |};
     named_cells := ∅ |}.

(** The desktop with windows 500 pixels wide, and the fourth button of
    [Samples.toolbar] as a pass over the bar in such a window places
    it: visible, 80 by 30 pixels at 244. *)
Definition wide_desktop : Platform :=
  {| GetDpiForWindow := fun _ => 96;
     GetSystemMetricsForDpi_CYCAPTION := fun _ => 23;
     GetClientRect := fun _ => {| left := 0; top := 0;
                                  right := 500; bottom := 40 |};
     stof := @stof Samples.desktop |}.

Definition placed_wide : CellOps.WindowState :=
  {| CellOps.shown := true; CellOps.placed := (244, 0, 80, 30) |}.

(** Widgets of which the second and the third ask for the width
    [auto]. *)
Definition mixed : Cell.WidgetHost :=
  {| Cell.IWidget_GetProperty := fun w key =>
       if String.eqb key "width" then
         if bool_decide (w = 22%positive \/ w = 23%positive) then "auto"
         else "80px"
       else "" |}.

End MoreSamples.

(** ** A style sheet and a styled node *)

Module StyleSamples.

Import ContextNode StyleManager.

(** The rules [.a { color: red }], [.b { color: blue }] and
    [.b:hover { color: navy }]. *)
Definition sheet : Registry :=
  <["a" := <["color" := "red"]> ∅]>
  (<["b" := <["color" := "blue"]> ∅]>
  (<["b:hover" := <["color" := "navy"]> ∅]> ∅)).

(** A widget of class [b], styled as that class, below the theme. *)
Definition button : ContextNodeImpl :=
  {| m_parent := Some 1%positive;
     m_properties :=
       <["class" := "b"]>
       (<["color" := "blue"]>
       (<["color:hover" := "navy"]> ∅));
     derived := OfWidget Samples.plain_widget |}.

Definition styled : store :=
  <[2%positive := button]> (<[1%positive := Samples.theme]> ∅).

End StyleSamples.

(* ================================================================== *)
(** * Part II. Properties                                              *)
(* ================================================================== *)

(** ** Machine integers *)

Module Int32Facts.

Lemma wrap_in_range z : Int32.in_range z -> Int32.wrap z = z.
Proof.
  unfold Int32.in_range, Int32.INT_MIN, Int32.INT_MAX, Int32.wrap.
  intros Hz. rewrite Z.mod_small; lia.
Qed.

Lemma add_in_range a b : Int32.in_range (a + b) -> Int32.add a b = a + b.
Proof. apply wrap_in_range. Qed.


End Int32Facts.

(** ** The property store *)

Module ContextNodeFacts.

Import ContextNode.

Lemma ancestry_head h n chain :
  ancestry h n chain -> exists nd up, chain = nd :: up /\ h !! n = Some nd.
Proof. destruct 1; eauto. Qed.

(** *** What a widget answers and how it reacts *)

Lemma eqb_other (key k : string) : key <> k -> String.eqb key k = false.
Proof. apply String.eqb_neq. Qed.

(** Only the four keys are ever answered from the state of an object. *)
Lemma answers_state_answered nd key s :
  answers nd key = Some s -> key ∈ state_answered.
Proof.
  unfold answers, Widget.GetProperty, state_answered.
  destruct (derived nd) as [| | | |w]; try done.
  destruct (String.eqb_spec key "checked") as [->|_];
    [intros _; by apply (bool_decide_unpack _)|].
  destruct (String.eqb_spec key "validated") as [->|_];
    [intros _; by apply (bool_decide_unpack _)|].
  destruct (negb (Widget.m_hwnd w =? 0)); [|done].
  destruct (String.eqb_spec key "enabled") as [->|_];
    [intros _; by apply (bool_decide_unpack _)|].
  destruct (String.eqb_spec key "disabled") as [->|_];
    [intros _; by apply (bool_decide_unpack _)|done].
Qed.

Lemma answers_other nd key : key ∉ state_answered -> answers nd key = None.
Proof.
  intros Hkey. destruct (answers nd key) as [s|] eqn:Hs; [|done].
  by apply answers_state_answered in Hs.
Qed.

(** An answer from the state of an object is [true] or [false], never
    the empty string. *)
Lemma answers_true_false nd key s :
  answers nd key = Some s -> s = "true" \/ s = "false".
Proof.
  unfold answers, Widget.GetProperty, Widget.true_false.
  destruct (derived nd) as [| | | |w]; try done.
  repeat match goal with
         | |- context [if ?b then _ else _] => destruct b
         end; intros [= <-]; auto.
Qed.

(** A node answers a key from the state of its object exactly when it is
    a widget and the key is one of those it answers that way. *)
Lemma answers_from_state nd key :
  is_Some (answers nd key) <-> from_state nd key.
Proof.
  unfold answers, from_state, Widget.GetProperty.
  destruct (derived nd) as [| | | |w];
    try (split; [by intros [? ?] | by intros (? & ? & _)]).
  destruct (String.eqb_spec key "checked") as [->|Hc].
  { split; [|by eexists]. intros _. exists w. auto. }
  destruct (String.eqb_spec key "validated") as [->|Hv].
  { split; [|by eexists]. intros _. exists w. auto. }
  destruct (Z.eqb_spec (Widget.m_hwnd w) 0) as [Hw|Hw]; cbn [negb].
  { split; [by intros [? ?]|].
    intros (w' & [= <-] & [?|[?|[? _]]]); done. }
  destruct (String.eqb_spec key "enabled") as [->|He].
  { split; [|by eexists]. intros _. exists w. split; [done|].
    right. right. auto. }
  destruct (String.eqb_spec key "disabled") as [->|Hd].
  { split; [|by eexists]. intros _. exists w. split; [done|].
    right. right. auto. }
  split; [by intros [? ?]|].
  intros (w' & [= <-] & [?|[?|[_ [?|?]]]]); done.
Qed.

Lemma own_plain nd key :
  answers nd key = None -> own nd key = m_properties nd !! key.
Proof. unfold own. by intros ->. Qed.

(** The reaction of a widget to a write: the window handle and the
    validator stay; [m_checked] takes a write of [checked] to change,
    [m_validated] one of [validated], [value] or [text], the window one
    of [enabled] or [disabled]; and of the properties at most
    [validated] is written, which takes a write of [value] or [text]. *)
Lemma OnPropertyChanged_spec w props k v w' props' :
  Widget.OnPropertyChanged w props k v = (w', props') ->
  Widget.m_hwnd w' = Widget.m_hwnd w
  /\ Widget.m_validator w' = Widget.m_validator w
  /\ (Widget.m_checked w' = Widget.m_checked w \/ k = "checked")
  /\ (Widget.m_validated w' = Widget.m_validated w
      \/ k = "validated" \/ k = "value" \/ k = "text")
  /\ (Widget.window w' = Widget.window w
      \/ k = "enabled" \/ k = "disabled")
  /\ (props' = props
      \/ ((k = "value" \/ k = "text")
          /\ props' = <["validated" :=
                          Widget.true_false (Widget.m_validated w')]> props)).
Proof.
  unfold Widget.OnPropertyChanged, Widget.PerformValidation.
  repeat match goal with
         | |- context [String.eqb k ?s] =>
             destruct (String.eqb_spec k s) as [->|?]
         end;
    cbn [String.eqb Ascii.eqb Bool.eqb orb];
    repeat match goal with
           | |- context [if ?b then _ else _] => destruct b
           end;
    intros [= <- <-]; cbn; tauto.
Qed.

(** Whether a widget answers a key from its state depends on the key and
    on whether it has a window handle. *)
Lemma Widget_GetProperty_None w w' key :
  Widget.m_hwnd w' = Widget.m_hwnd w ->
  Widget.GetProperty w key = None -> Widget.GetProperty w' key = None.
Proof.
  unfold Widget.GetProperty. intros ->.
  by repeat match goal with
            | |- context [if ?b then _ else _] => destruct b
            end.
Qed.

(** What [SetProperty] makes of the node it is called on. *)
Lemma SetProperty_node h n nd key value :
  h !! n = Some nd ->
  exists nd',
    SetProperty h n key value !! n = Some nd'
    /\ m_parent nd' = m_parent nd
    /\ (forall k, answers nd k = None -> answers nd' k = None)
    /\ m_properties nd' !! key = Some (default "" value)
    /\ (forall k, k <> key ->
          m_properties nd' !! k = m_properties nd !! k
          \/ (k = "validated" /\ (key = "value" \/ key = "text")
              /\ is_Some (m_properties nd' !! k)
              /\ exists w, derived nd = OfWidget w)).
Proof.
  intros Hn. unfold SetProperty. rewrite lookup_alter_eq, Hn.
  cbn [fmap option_fmap option_map].
  destruct nd as [parent props d]. cbn [m_parent m_properties derived].
  destruct d as [| | | |w];
    try (eexists; split; [reflexivity|];
         cbn [m_parent m_properties derived];
         split; [done|]; split; [done|];
         split; [by rewrite lookup_insert_eq|];
         intros k Hk; left; by rewrite lookup_insert_ne).
  destruct (Widget.OnPropertyChanged w (<[key := default "" value]> props)
              key (default "" value)) as [w' props'] eqn:Hreact.
  apply OnPropertyChanged_spec in Hreact as (Hh & _ & _ & _ & _ & Hprops).
  eexists. split; [reflexivity|]. cbn [m_parent m_properties derived].
  split; [done|]. split.
  { unfold answers. cbn [derived]. intros k.
    by apply Widget_GetProperty_None. }
  destruct Hprops as [-> | [Hkey ->]].
  - split; [by rewrite lookup_insert_eq|].
    intros k Hk. left. by rewrite lookup_insert_ne.
  - assert (Hne : "validated" <> key) by (by destruct Hkey as [->| ->]).
    split; [by rewrite lookup_insert_ne, lookup_insert_eq|].
    intros k Hk. destruct (decide (k = "validated")) as [->|Hv].
    + right. rewrite lookup_insert_eq. eauto.
    + left. by rewrite !lookup_insert_ne.
Qed.


Lemma SetProperty_other h a key value n :
  n <> a -> SetProperty h a key value !! n = h !! n.
Proof. intros Hne. unfold SetProperty. by rewrite lookup_alter_ne. Qed.

(** On a well-founded chain and with fuel for its length, the lookup
    returns, and what it returns is the answer of the nearest node that
    has one, or the default. *)
Lemma GetProperty_chain h n chain :
  ancestry h n chain ->
  forall fuel key def, (length chain <= fuel)%nat ->
    GetProperty fuel h n key def
    = Some (default def (nearest_answer chain key)).
Proof.
  induction 1 as [n nd Hn Hp | n nd p chain Hn Hp Hanc IH];
    intros [|fuel] key def Hlen; simpl in Hlen; try lia;
    simpl; rewrite Hn; unfold own; destruct (answers nd key); try done;
    destruct (m_properties nd !! key); try done;
    rewrite Hp; [done|].
  apply IH. lia.
Qed.

Lemma nearest_answer_at chain key i nd v :
  chain !! i = Some nd ->
  own nd key = Some v ->
  (forall j nd', (j < i)%nat -> chain !! j = Some nd' ->
                 own nd' key = None) ->
  nearest_answer chain key = Some v.
Proof.
  revert i. induction chain as [|nd0 up IH]; intros i Hi Hv Hbefore;
    [done|].
  destruct i as [|i]; simpl in *.
  - injection Hi as ->. by rewrite Hv.
  - rewrite (Hbefore 0%nat nd0) by (done || lia).
    apply (IH i); [done..|].
    intros j nd' Hj. apply (Hbefore (S j)). lia.
Qed.

Lemma nearest_answer_none chain key :
  (forall nd, nd ∈ chain -> own nd key = None) ->
  nearest_answer chain key = None.
Proof.
  induction chain as [|nd0 up IH]; intros Hall; [done|]. simpl.
  rewrite (Hall nd0) by apply list_elem_of_here.
  apply IH. intros nd Hnd. apply Hall. by apply list_elem_of_further.
Qed.

(** Where no node of the chain answers the key from its state, the
    nearest answer is the nearest binding. *)
Lemma nearest_answer_plain chain key :
  (forall nd, nd ∈ chain -> answers nd key = None) ->
  nearest_answer chain key = nearest_binding chain key.
Proof.
  induction chain as [|nd0 up IH]; intros Hall; [done|]. simpl.
  rewrite own_plain by apply Hall, list_elem_of_here.
  destruct (m_properties nd0 !! key); [done|].
  apply IH. intros nd Hnd. apply Hall. by apply list_elem_of_further.
Qed.

Lemma GetProperty_SetProperty fuel h n nd key v def :
  h !! n = Some nd ->
  answers nd key = None ->
  GetProperty (S fuel) (SetProperty h n key (Some v)) n key def = Some v.
Proof.
  intros Hn Hkey.
  destruct (SetProperty_node h n nd key (Some v) Hn)
    as (nd' & Hn' & _ & Hans & Hv & _).
  simpl. by rewrite Hn', (Hans _ Hkey), Hv.
Qed.

Lemma empty_false (s : string) : empty s = false <-> s <> "".
Proof. unfold empty. apply String.eqb_neq. Qed.

Lemma first_nonempty_at resolve keys i k v :
  keys !! i = Some k ->
  resolve k = Some v ->
  v <> "" ->
  (forall j k', (j < i)%nat -> keys !! j = Some k' -> resolve k' = Some "") ->
  first_nonempty resolve keys = Some v.
Proof.
  revert i. induction keys as [|k0 ks IH]; intros i Hi Hv Hne Hbefore;
    [done|].
  destruct i as [|i]; simpl in *.
  - injection Hi as ->. rewrite Hv. simpl.
    apply empty_false in Hne. by rewrite Hne.
  - rewrite (Hbefore 0%nat k0) by (done || lia). simpl.
    apply (IH i); [done..|].
    intros j k' Hj. apply (Hbefore (S j)). lia.
Qed.

Lemma first_nonempty_none resolve keys :
  (forall k, k ∈ keys -> resolve k = Some "") ->
  first_nonempty resolve keys = Some "".
Proof.
  induction keys as [|k0 ks IH]; intros Hall; [done|]. simpl.
  rewrite (Hall k0) by apply list_elem_of_here. simpl.
  apply IH. intros k Hk. apply Hall. by apply list_elem_of_further.
Qed.

Lemma first_nonempty_only resolve keys base v :
  base ∈ keys ->
  resolve base = Some v ->
  v <> "" ->
  (forall k, k ∈ keys -> k <> base -> resolve k = Some "") ->
  first_nonempty resolve keys = Some v.
Proof.
  intros Hin Hv Hne. induction keys as [|k0 ks IH]; intros Hothers.
  - by apply elem_of_nil in Hin.
  - simpl. destruct (decide (k0 = base)) as [->|Hk0].
    + rewrite Hv. simpl. apply empty_false in Hne. by rewrite Hne.
    + rewrite (Hothers k0) by (done || apply list_elem_of_here). simpl.
      apply IH.
      * apply elem_of_cons in Hin as [Heq|Hin]; [congruence|done].
      * intros k Hk. apply Hothers. by apply list_elem_of_further.
Qed.

Lemma state_keys_base baseKey (selected enabled hovered active : bool) :
  baseKey ∈ state_keys baseKey selected enabled hovered active.
Proof.
  unfold state_keys. rewrite !elem_of_app.
  do 4 right. apply list_elem_of_here.
Qed.

(** One [if (HasProperty(k)) return GetProperty(k);] of the source is one
    step of [first_nonempty]. *)
Lemma probe_step fuel h n k (otherwise : option string) :
  (found ← HasProperty fuel h n k;
   if found : bool then GetProperty fuel h n k "" else otherwise)
  = (v ← GetProperty fuel h n k "";
     if empty v then otherwise else Some v).
Proof.
  unfold HasProperty, empty.
  destruct (GetProperty fuel h n k "") as [v|]; simpl; [|done].
  by destruct (String.eqb v "").
Qed.

Lemma TryResolveState_first_nonempty fuel h n baseKey
  (selected enabled hovered active : bool) :
  TryResolveState fuel h n baseKey selected enabled hovered active
  = first_nonempty (fun k => GetProperty fuel h n k "")
      (state_keys baseKey selected enabled hovered active).
Proof.
  unfold TryResolveState, state_keys.
  destruct enabled, hovered, selected, active; simpl;
    by rewrite ?probe_step.
Qed.

(** A non-empty answer at the variant level is the answer of
    [GetStyle]. *)
Lemma GetStyle_variant_level fuel h n prop def classid variant
  (selected enabled hovered active : bool) r :
  variant <> "" ->
  TryResolveState fuel h n (classid +:+ ":" +:+ variant +:+ ":" +:+ prop)
    selected enabled hovered active = Some r ->
  r <> "" ->
  GetStyle fuel h n prop def classid variant selected enabled hovered active
  = Some r.
Proof.
  intros Hv Hr Hne. unfold GetStyle.
  apply empty_false in Hv. apply empty_false in Hne.
  rewrite Hv. simpl. rewrite Hr. simpl. by rewrite Hne.
Qed.

Lemma sample_ancestry :
  ancestry Samples.nodes 2%positive [Samples.leaf; Samples.theme].
Proof.
  eapply ancestry_step; [reflexivity | reflexivity |].
  apply ancestry_root; reflexivity.
Qed.

Lemma panel_ancestry :
  ancestry Samples.panel_nodes 6%positive
    [Samples.panel_cell; Samples.panel_layout; Samples.panel; Samples.theme].
Proof.
  do 3 (eapply ancestry_step; [reflexivity | reflexivity |]).
  apply ancestry_root; reflexivity.
Qed.

(** C3 (amended). [GetProperty(k, d)] returns what the nearest node of
    the parent chain, the node itself included, has to say for [k]: the
    answer of a widget from its own state for the keys it answers that
    way, the value the node's map defines for [k] otherwise; it returns
    [d] when no node of the chain has anything to say.  A node that is
    no widget, and every node for a key other than [checked],
    [validated], [enabled] and [disabled], has its map to say and
    nothing else.  And right after [SetProperty(k, v)] on a node that
    does not answer [k] from its state, [GetProperty(k, _)] on that node
    returns [v], whatever its ancestors hold.  ([own nd k] is what the
    node has to say, [answers nd k] its answer from its state.) *)
Theorem C3_GetProperty_nearest_answer
  (h : store) (n : IContextNode) (chain : list ContextNodeImpl)
  (fuel : nat) (key def : string) :
  ancestry h n chain ->
  (length chain <= fuel)%nat ->
  (forall i nd v,
      chain !! i = Some nd ->
      own nd key = Some v ->
      (forall j nd', (j < i)%nat -> chain !! j = Some nd' ->
                     own nd' key = None) ->
      GetProperty fuel h n key def = Some v)
  /\ ((forall nd, nd ∈ chain -> own nd key = None) ->
      GetProperty fuel h n key def = Some def)
  /\ (forall nd,
        (is_Some (answers nd key) <-> from_state nd key)
        /\ (forall s, answers nd key = Some s ->
                      own nd key = Some s /\ (s = "true" \/ s = "false"))
        /\ (answers nd key = None -> own nd key = m_properties nd !! key))
  /\ (forall nd v anything,
        h !! n = Some nd ->
        answers nd key = None ->
        GetProperty fuel (SetProperty h n key (Some v)) n key anything
        = Some v).
Proof.
  intros Hanc Hfuel. split; [|split; [|split]].
  - intros i nd v Hi Hv Hbefore.
    rewrite (GetProperty_chain _ _ _ Hanc) by done.
    by rewrite (nearest_answer_at _ _ _ _ _ Hi Hv Hbefore).
  - intros Hall.
    rewrite (GetProperty_chain _ _ _ Hanc) by done.
    by rewrite nearest_answer_none.
  - intros nd. split; [apply answers_from_state|].
    split; [|apply own_plain].
    intros s Hs. split; [unfold own; by rewrite Hs|].
    by apply answers_true_false in Hs.
  - intros nd v anything Hn Hkey.
    destruct (ancestry_head _ _ _ Hanc) as (nd0 & up & -> & _).
    destruct fuel as [|fuel]; [simpl in Hfuel; lia|].
    by eapply GetProperty_SetProperty.
Qed.

Lemma C3_witness :
  GetProperty 4 Samples.panel_nodes 6%positive "checked" "none"
  = Some "false"
  /\ GetProperty 4 Samples.panel_nodes 6%positive "btn:color" "none"
     = Some "grey"
  /\ GetProperty 4 Samples.panel_nodes 6%positive "margin" "none"
     = Some "none"
  /\ GetProperty 4 (SetProperty Samples.panel_nodes 6%positive "btn:color"
                      (Some "pink")) 6%positive "btn:color" "none"
     = Some "pink".
Proof.
  pose proof (fun key =>
    C3_GetProperty_nearest_answer Samples.panel_nodes 6%positive
      [Samples.panel_cell; Samples.panel_layout; Samples.panel;
       Samples.theme] 4 key "none" panel_ancestry (le_n 4)) as HC3.
  split; [|split; [|split]].
  - apply (proj1 (HC3 "checked") 2%nat Samples.panel "false");
      [reflexivity | reflexivity |].
    intros [|[|j]] nd' Hj Hnd'; [| |lia]; injection Hnd' as <-; reflexivity.
  - apply (proj1 (HC3 "btn:color") 3%nat Samples.theme "grey");
      [reflexivity | reflexivity |].
    intros [|[|[|j]]] nd' Hj Hnd'; [| | |lia];
      injection Hnd' as <-; reflexivity.
  - apply (proj1 (proj2 (HC3 "margin"))).
    intros nd Hnd.
    apply list_elem_of_In in Hnd.
    destruct Hnd as [<- | [<- | [<- | [<- | []]]]]; reflexivity.
  - apply (proj2 (proj2 (proj2 (HC3 "btn:color"))) Samples.panel_cell);
      reflexivity.
Defined.

(** C3 as it was stated fails on a widget.  After
    [SetProperty("checked", "yes")] the panel's own map defines [checked]
    as [yes], and [GetProperty("checked", _)] on the panel returns
    [false]; and from the cell below the panel's layout, where no node
    of the chain defines [checked], the lookup returns [false] and not
    the default. *)
Lemma C3_counterexample :
  let h := SetProperty Samples.panel_nodes 4%positive "checked"
                       (Some "yes") in
  (nd ← h !! 4%positive; m_properties nd !! "checked") = Some "yes"
  /\ GetProperty 2 h 4%positive "checked" "none" = Some "false"
  /\ GetProperty 2 h 4%positive "checked" "none" <> Some "yes"
  /\ nearest_binding
       [Samples.panel_cell; Samples.panel_layout; Samples.panel;
        Samples.theme] "checked" = None
  /\ GetProperty 4 Samples.panel_nodes 6%positive "checked" "none"
     = Some "false"
  /\ GetProperty 4 Samples.panel_nodes 6%positive "checked" "none"
     <> Some "none".
Proof. repeat split; first [reflexivity | discriminate]. Qed.

(** C9 (amended). In the property store presence decides, not
    non-emptiness, but for the keys a widget answers from its state: a
    node that binds [k] to the empty string and does not answer [k] from
    its state answers [GetProperty(k, d)] with the empty string, whatever
    its ancestors bind and whatever [d] is, while the style cascade on
    the same node treats that empty value as absent and falls through to
    its default; a widget that answers [k] from its state returns that
    answer, [true] or [false], whatever its map binds. *)
Theorem C9_empty_binding_shadows_chain
  (h : store) (n : IContextNode) (nd : ContextNodeImpl)
  (fuel : nat) (key def : string) :
  h !! n = Some nd ->
  m_properties nd !! key = Some "" ->
  (answers nd key = None ->
   GetProperty (S fuel) h n key def = Some ""
   /\ GetStyle (S fuel) h n key def "" "" false true false false = Some def)
  /\ (forall s,
        answers nd key = Some s ->
        GetProperty (S fuel) h n key def = Some s
        /\ (s = "true" \/ s = "false"))
  /\ (is_Some (answers nd key) <-> from_state nd key).
Proof.
  intros Hn Hk. split; [|split; [|apply answers_from_state]].
  - intros Hans.
    assert (Hget : forall d, GetProperty (S fuel) h n key d = Some "")
      by (intros d; simpl; by rewrite Hn, Hans, Hk).
    split; [apply Hget|].
    assert (Hprobe :
      TryResolveState (S fuel) h n key false true false false = Some "").
    { rewrite TryResolveState_first_nonempty.
      unfold state_keys. cbn [app first_nonempty].
      by rewrite Hget. }
    unfold GetStyle. change (empty "") with true. cbn [negb].
    by rewrite Hprobe.
  - intros s Hans. split; [simpl; by rewrite Hn, Hans|].
    by apply answers_true_false in Hans.
Qed.

Lemma C9_witness :
  (GetProperty 2 Samples.nodes 2%positive "color" "blue" = Some ""
   /\ GetStyle 2 Samples.nodes 2%positive "color" "blue" "" ""
        false true false false = Some "blue")
  /\ GetProperty 2 Samples.unchecked_nodes 4%positive "checked" "blue"
     = Some "false".
Proof.
  split.
  - apply (C9_empty_binding_shadows_chain Samples.nodes 2%positive
             Samples.leaf 1 "color" "blue"); reflexivity.
  - apply (proj1 (proj2 (C9_empty_binding_shadows_chain
                             Samples.unchecked_nodes 4%positive
                             Samples.unchecked 1 "checked" "blue"
                             eq_refl eq_refl)) "false" eq_refl).
Defined.

(** C9 as it was stated fails on a widget: the panel's map binds
    [checked] to the empty string, and [GetProperty("checked", d)]
    returns [false], which the style cascade then takes for a value. *)
Lemma C9_counterexample :
  (nd ← Samples.unchecked_nodes !! 4%positive;
   m_properties nd !! "checked") = Some ""
  /\ GetProperty 2 Samples.unchecked_nodes 4%positive "checked" "blue"
     = Some "false"
  /\ GetProperty 2 Samples.unchecked_nodes 4%positive "checked" "blue"
     <> Some ""
  /\ GetStyle 2 Samples.unchecked_nodes 4%positive "checked" "blue" "" ""
       false true false false = Some "false".
Proof. repeat split; first [reflexivity | discriminate]. Qed.

(** C2. The state-suffix probe visits [base:disabled] (only when not
    enabled), [base:hover] (only when hovered), [base:selected] (only
    when selected), [base:active] (only when active) and then [base], and
    returns the first that resolves to a non-empty string; a key that
    resolves to the empty string because the nearest node with anything
    to say for it binds it to the empty string is passed over exactly
    like a key no node of the chain has anything to say for.  With
    [x:hover] and [x:selected] both non-empty and both flags set on an
    enabled element, [x] resolves to the [:hover] value. *)
Theorem C2_TryResolveState_order
  (h : store) (n : IContextNode) (chain : list ContextNodeImpl)
  (fuel : nat) (baseKey : string)
  (selected enabled hovered active : bool) :
  ancestry h n chain ->
  (length chain <= fuel)%nat ->
  let keys := state_keys baseKey selected enabled hovered active in
  let resolve := fun k => GetProperty fuel h n k "" in
  keys = (if enabled then [] else [baseKey +:+ ":disabled"]) ++
         (if hovered then [baseKey +:+ ":hover"] else []) ++
         (if selected then [baseKey +:+ ":selected"] else []) ++
         (if active then [baseKey +:+ ":active"] else []) ++ [baseKey]
  /\ (forall i k v,
        keys !! i = Some k -> resolve k = Some v -> v <> "" ->
        (forall j k', (j < i)%nat -> keys !! j = Some k' ->
                      resolve k' = Some "") ->
        TryResolveState fuel h n baseKey selected enabled hovered active
        = Some v)
  /\ ((forall k, k ∈ keys -> resolve k = Some "") ->
      TryResolveState fuel h n baseKey selected enabled hovered active
      = Some "")
  /\ (forall k,
        (exists v, resolve k = Some v) /\
        (resolve k = Some "" <->
         nearest_answer chain k = None \/
         nearest_answer chain k = Some ""))
  /\ (forall vh vs,
        hovered = true -> selected = true -> enabled = true ->
        resolve (baseKey +:+ ":hover") = Some vh -> vh <> "" ->
        resolve (baseKey +:+ ":selected") = Some vs -> vs <> "" ->
        TryResolveState fuel h n baseKey selected enabled hovered active
        = Some vh).
Proof.
  intros Hanc Hfuel keys resolve.
  split; [reflexivity|].
  split; [|split; [|split]].
  - intros i k v Hi Hv Hne Hbefore.
    rewrite TryResolveState_first_nonempty.
    by eapply first_nonempty_at.
  - intros Hall.
    rewrite TryResolveState_first_nonempty.
    by apply first_nonempty_none.
  - intros k. unfold resolve.
    rewrite (GetProperty_chain _ _ _ Hanc) by done.
    split; [eauto|].
    destruct (nearest_answer chain k) as [v|]; simpl; split.
    + intros [= ->]. by right.
    + intros [|[= ->]]; done.
    + by left.
    + done.
  - intros vh vs -> -> -> Hh Hneh _ _.
    rewrite TryResolveState_first_nonempty.
    apply (first_nonempty_at _ _ 0%nat (baseKey +:+ ":hover"));
      [reflexivity | done | done |].
    intros j k' Hj. lia.
Qed.

Lemma C2_witness :
  TryResolveState 2 Samples.nodes 2%positive "x" true true true false
  = Some "H".
Proof.
  apply (proj2 (proj2 (proj2 (proj2
           (C2_TryResolveState_order Samples.nodes 2%positive
              [Samples.leaf; Samples.theme] 2 "x" true true true false
              sample_ancestry (le_n 2)))))
           "H" "S");
    first [reflexivity | discriminate].
Defined.

(** C1. With a non-empty variant, when the key [e:v:p] or one of its
    state-suffixed forms that the flags make applicable resolves to a
    non-empty string, [GetStyle(p, d, e, v, ...)] returns the first such
    value in probe order, whatever is stored under [e:p] and [p]; so with
    [btn:danger:color], [btn:color] and [color] all non-empty (and no
    applicable state-suffixed form of [btn:danger:color] resolving),
    [color] resolves for element [btn], variant [danger] to the value of
    [btn:danger:color]. *)
Theorem C1_GetStyle_variant_precedence
  (h : store) (n : IContextNode) (fuel : nat)
  (prop def classid variant : string)
  (selected enabled hovered active : bool) :
  variant <> "" ->
  let resolve := fun k => GetProperty fuel h n k "" in
  let keys :=
    state_keys (classid +:+ ":" +:+ variant +:+ ":" +:+ prop)
               selected enabled hovered active in
  (forall i k v,
      keys !! i = Some k -> resolve k = Some v -> v <> "" ->
      (forall j k', (j < i)%nat -> keys !! j = Some k' ->
                    resolve k' = Some "") ->
      GetStyle fuel h n prop def classid variant
               selected enabled hovered active = Some v)
  /\ (forall v1 v2 v3,
      resolve "btn:danger:color" = Some v1 -> v1 <> "" ->
      resolve "btn:color" = Some v2 -> v2 <> "" ->
      resolve "color" = Some v3 -> v3 <> "" ->
      (forall k,
          k ∈ state_keys "btn:danger:color"
                selected enabled hovered active ->
          k <> "btn:danger:color" -> resolve k = Some "") ->
      GetStyle fuel h n "color" def "btn" "danger"
               selected enabled hovered active = Some v1).
Proof.
  intros Hvariant resolve keys. split.
  - intros i k v Hi Hv Hne Hbefore.
    apply GetStyle_variant_level; [done| |done].
    rewrite TryResolveState_first_nonempty.
    by eapply first_nonempty_at.
  - intros v1 v2 v3 H1 Hne1 _ _ _ _ Hothers.
    apply GetStyle_variant_level; [done| |done].
    rewrite TryResolveState_first_nonempty.
    change ("btn" +:+ ":" +:+ "danger" +:+ ":" +:+ "color")
      with "btn:danger:color".
    apply (first_nonempty_only _ _ "btn:danger:color");
      [apply state_keys_base | done | done | done].
Qed.

Lemma C1_witness :
  GetStyle 1 Samples.nodes 1%positive "color" "none" "btn" "danger"
           false true false false = Some "red".
Proof.
  apply (proj2 (C1_GetStyle_variant_precedence Samples.nodes 1%positive 1
                  "color" "none" "btn" "danger" false true false false
                  ltac:(discriminate))
           "red" "grey" "black");
    try first [reflexivity | discriminate].
  intros k Hk Hne. apply list_elem_of_In in Hk.
  destruct Hk as [<- | []]. by destruct Hne.
Defined.

End ContextNodeFacts.

(** ** The track solver *)

Module LayoutFacts.

Import ContextNode Layout LayoutOps.

Section WithPlatform.
Context `{Platform}.

Lemma solve_fixed_policy hwnd total sSize dims avail fw :
  map policy (solve_fixed hwnd total sSize dims avail fw).1.1
  = map policy dims.
Proof.
  revert avail fw. induction dims as [|d rest IH]; intros avail fw; [done|].
  cbn [solve_fixed].
  destruct (unit (size d));
    match goal with
    | |- context [solve_fixed ?a ?b ?c rest ?e ?f] =>
        specialize (IH e f);
        destruct (solve_fixed a b c rest e f) as [[r1 a1] f1]
    end; simpl in *; rewrite IH; reflexivity.
Qed.

Lemma solve_fill_policy hwnd total avail fw d :
  policy (solve_fill hwnd total avail fw d) = policy d.
Proof. unfold solve_fill. by destruct (unit (size d)). Qed.

Lemma solve_pos_policy sSize dims cur :
  map policy (solve_pos sSize dims cur) = map policy dims.
Proof.
  revert cur. induction dims as [|d rest IH]; intros cur; [done|].
  simpl. by rewrite IH.
Qed.

Lemma solve_policy hwnd dims total offset :
  map policy (solve hwnd dims total offset) = map policy dims.
Proof.
  unfold solve.
  pose proof (solve_fixed_policy hwnd total (Scale hwnd SPLITTER_SIZE)
                dims total F32.zero) as Hfixed.
  destruct (solve_fixed hwnd total (Scale hwnd SPLITTER_SIZE) dims total
              F32.zero) as [[dims1 avail] fw].
  simpl in Hfixed. rewrite solve_pos_policy.
  destruct (F32.ltb F32.zero fw); [|done].
  rewrite <- Hfixed, map_map.
  apply map_ext. intros d. apply solve_fill_policy.
Qed.

Lemma solve_lookup hwnd dims total offset i d :
  dims !! i = Some d ->
  exists d', solve hwnd dims total offset !! i = Some d'
             /\ policy d' = policy d.
Proof.
  intros Hd.
  pose proof (f_equal (fun l => l !! i) (solve_policy hwnd dims total offset))
    as Heq.
  simpl in Heq. rewrite !list_lookup_fmap, Hd in Heq.
  destruct (solve hwnd dims total offset !! i) as [d'|]; [|done].
  exists d'. split; [done|]. simpl in Heq. congruence.
Qed.

Lemma at_index_lookup {A : Type} (v : list A) (i : Z) (a : A) :
  0 <= i -> v !! Z.to_nat i = Some a -> at_index v i = Returns a.
Proof.
  intros Hi Ha. unfold at_index.
  destruct (Z.ltb_spec i 0); [lia|]. by rewrite Ha.
Qed.

Lemma solve_three_tracks (hwnd : HWND) (d0 d1 d2 : DimPlan) :
  GetDpiForWindow hwnd = 96 ->
  size d0 = Fixed (F32.of_int 30) ->
  size d1 = FillW (F32.of_int 1) ->
  size d2 = Fixed (F32.of_int 60) ->
  splitter d0 = false -> splitter d1 = false -> splitter d2 = false ->
  minPx hwnd 300 (min d0) <= 30 ->
  minPx hwnd 300 (min d1) <= 210 ->
  minPx hwnd 300 (min d2) <= 60 ->
  map actual (solve hwnd [d0; d1; d2] 300 0) = [30; 210; 60]
  /\ map pos (solve hwnd [d0; d1; d2] 300 0) = [0; 30; 240].
Proof.
  intros Hdpi Hs0 Hs1 Hs2 Hp0 Hp1 Hp2 Hm0 Hm1 Hm2.
  assert (HS : forall px, Scale hwnd px = MulDiv px 96 96)
    by (intros px; unfold Scale; by rewrite Hdpi).
  unfold solve. cbn [solve_fixed].
  rewrite Hs0, Hs1, Hs2, Hp0, Hp1, Hp2.
  cbn [unit value Fixed FillW]. rewrite !HS.
  change (MulDiv (F32.to_int (F32.of_int 30)) 96 96) with 30.
  change (MulDiv (F32.to_int (F32.of_int 60)) 96 96) with 60.
  rewrite (Z.max_l 30), (Z.max_l 60) by lia.
  change (Int32.sub (Int32.sub 300 30) 60) with 210.
  change (F32.add F32.zero (F32.of_int 1)) with (F32.of_int 1).
  change (F32.ltb F32.zero (F32.of_int 1)) with true.
  cbn [map]. unfold solve_fill. cbn [with_actual size unit value min].
  rewrite Hs0, Hs1, Hs2. cbn [unit value FillW Fixed].
  change (0 <? 210) with true. cbv iota.
  change (F32.to_int (F32.div (F32.mul (F32.of_int 210) (F32.of_int 1))
                              (F32.of_int 1))) with 210.
  rewrite (Z.max_l 210) by lia.
  cbn [solve_pos with_pos with_actual actual pos splitter map].
  rewrite Hp0, Hp1. split; reflexivity.
Qed.

Lemma RefreshLayout_cols L :
  m_cols (RefreshLayout L)
  = solve (m_parentNode L) (m_cols L)
      (Int32.sub (right (m_lastRect L)) (left (m_lastRect L)))
      (left (m_lastRect L)).
Proof. reflexivity. Qed.

(** Collapsing an expanded column: the call returns, and the column then
    carries its minimum as size, remembers the old size and is flagged. *)
Lemma CollapseColumn_expanded L i col :
  0 <= i < m_cCount L ->
  m_cols L !! Z.to_nat i = Some col ->
  isCollapsed col = false ->
  exists L1 col1,
    CollapseColumn L i = Returns L1
    /\ m_cCount L1 = m_cCount L
    /\ m_cols L1 !! Z.to_nat i = Some col1
    /\ size col1 = min col
    /\ savedSize col1 = size col
    /\ isCollapsed col1 = true.
Proof.
  intros Hi Hcol Hexp. unfold CollapseColumn.
  destruct (Z.ltb_spec i 0); [lia|].
  destruct (Z.leb_spec (m_cCount L) i); [lia|]. cbn [orb].
  rewrite (at_index_lookup _ _ col) by (lia || done).
  cbn [mbind behaviour_bind]. rewrite Hexp.
  eexists. 
  edestruct (solve_lookup (m_parentNode L)
               (<[Z.to_nat i :=
                    {| size := min col; min := min col; pos := pos col;
                       actual := actual col; splitter := splitter col;
                       sd := sd col; savedSize := size col;
                       isCollapsed := true |}]> (m_cols L)))
    as (col1 & Hcol1 & Hpol).
  { apply list_lookup_insert_eq. by eapply lookup_lt_Some. }
  exists col1. split; [reflexivity|]. split; [reflexivity|].
  split; [rewrite RefreshLayout_cols; exact Hcol1|].
  unfold policy in Hpol. simpl in Hpol.
  injection Hpol as -> _ _ _ -> ->. done.
Qed.

(** Restoring a collapsed column: the call returns, and the column's
    size is the remembered one. *)
Lemma RestoreColumn_collapsed L i col :
  0 <= i < m_cCount L ->
  m_cols L !! Z.to_nat i = Some col ->
  isCollapsed col = true ->
  exists L2 col2,
    RestoreColumn L i = Returns L2
    /\ m_cols L2 !! Z.to_nat i = Some col2
    /\ size col2 = savedSize col
    /\ isCollapsed col2 = false.
Proof.
  intros Hi Hcol Hcoll. unfold RestoreColumn.
  destruct (Z.ltb_spec i 0); [lia|].
  destruct (Z.leb_spec (m_cCount L) i); [lia|]. cbn [orb].
  rewrite (at_index_lookup _ _ col) by (lia || done).
  cbn [mbind behaviour_bind]. rewrite Hcoll. cbn [negb].
  eexists.
  edestruct (solve_lookup (m_parentNode L)
               (<[Z.to_nat i :=
                    {| size := savedSize col; min := min col; pos := pos col;
                       actual := actual col; splitter := splitter col;
                       sd := sd col; savedSize := savedSize col;
                       isCollapsed := false |}]> (m_cols L)))
    as (col2 & Hcol2 & Hpol).
  { apply list_lookup_insert_eq. by eapply lookup_lt_Some. }
  exists col2. split; [reflexivity|].
  split; [rewrite RefreshLayout_cols; exact Hcol2|].
  unfold policy in Hpol. simpl in Hpol.
  injection Hpol as -> _ _ _ _ ->. done.
Qed.

Lemma CollapseColumn_collapsed L i col :
  0 <= i < m_cCount L ->
  m_cols L !! Z.to_nat i = Some col ->
  isCollapsed col = true ->
  CollapseColumn L i = Returns L.
Proof.
  intros Hi Hcol Hcoll. unfold CollapseColumn.
  destruct (Z.ltb_spec i 0); [lia|].
  destruct (Z.leb_spec (m_cCount L) i); [lia|]. cbn [orb].
  rewrite (at_index_lookup _ _ col) by (lia || done).
  cbn [mbind behaviour_bind]. by rewrite Hcoll.
Qed.



Lemma solve_fixed_spec hwnd total sSize dims :
  forall avail fw,
    (solve_fixed hwnd total sSize dims avail fw).1.1
    = map (fun d => with_actual d (first_pass hwnd total d)) dims
    /\ (solve_fixed hwnd total sSize dims avail fw).2
       = fold_left (fun acc d =>
               match unit (size d) with
               | Fill => F32.add acc (value (size d))
               | _ => acc
               end) dims fw.
Proof.
  induction dims as [|d rest IH]; intros avail fw; [done|].
  cbn [solve_fixed map fold_left]. unfold first_pass at 1.
  destruct (unit (size d));
    match goal with
    | |- context [solve_fixed ?a ?b ?c rest ?e ?f] =>
        destruct (IH e f) as [IH1 IH2];
        destruct (solve_fixed a b c rest e f) as [[r1 a1] f1]
    end; simpl in *; by subst.
Qed.

Lemma solve_pos_actual sSize dims cur :
  map actual (solve_pos sSize dims cur) = map actual dims.
Proof.
  revert cur. induction dims as [|d rest IH]; intros cur; [done|].
  simpl. by rewrite IH.
Qed.

(** The size [solve] gives the track at [i]: what the first loop made of
    it, replaced by its share when it is a fill track and the weights
    sum to more than zero. *)
Lemma solve_actual hwnd dims total offset i d :
  dims !! i = Some d ->
  exists d' avail,
    solve hwnd dims total offset !! i = Some d'
    /\ actual d'
       = if F32.ltb F32.zero (fill_weight_sum dims)
         then actual (solve_fill hwnd total avail (fill_weight_sum dims)
                        (with_actual d (first_pass hwnd total d)))
         else first_pass hwnd total d.
Proof.
  intros Hd. unfold solve.
  destruct (solve_fixed_spec hwnd total (Scale hwnd SPLITTER_SIZE) dims
              total F32.zero) as [H1 H2].
  destruct (solve_fixed hwnd total (Scale hwnd SPLITTER_SIZE) dims total
              F32.zero) as [[dims1 avail] fw].
  simpl in H1, H2. fold (fill_weight_sum dims) in H2. subst dims1 fw.
  set (dims2 := if F32.ltb F32.zero (fill_weight_sum dims) then _ else _).
  assert (Hd2 : dims2 !! i
    = Some (if F32.ltb F32.zero (fill_weight_sum dims)
            then solve_fill hwnd total avail (fill_weight_sum dims)
                   (with_actual d (first_pass hwnd total d))
            else with_actual d (first_pass hwnd total d))).
  { subst dims2. destruct (F32.ltb F32.zero (fill_weight_sum dims));
      rewrite ?list_lookup_fmap, Hd; done. }
  pose proof (f_equal (fun l => l !! i)
                (solve_pos_actual (Scale hwnd SPLITTER_SIZE) dims2 offset))
    as Hact.
  simpl in Hact. rewrite !list_lookup_fmap, Hd2 in Hact.
  destruct (solve_pos (Scale hwnd SPLITTER_SIZE) dims2 offset !! i)
    as [d'|]; [|done].
  exists d', avail. split; [done|].
  simpl in Hact. injection Hact as ->.
  by destruct (F32.ltb F32.zero (fill_weight_sum dims)).
Qed.

Lemma solve_pos_first sSize dims cur d :
  solve_pos sSize dims cur !! 0%nat = Some d -> pos d = cur.
Proof. destruct dims; simpl; [done|]. by intros [= <-]. Qed.

Lemma solve_pos_next sSize dims cur i d d' :
  solve_pos sSize dims cur !! i = Some d ->
  solve_pos sSize dims cur !! S i = Some d' ->
  pos d' = Int32.add (pos d)
             (Int32.add (actual d) (if splitter d then sSize else 0)).
Proof.
  revert cur i. induction dims as [|d0 rest IH]; intros cur i; [done|].
  destruct i as [|i]; cbn [solve_pos lookup list_lookup].
  - intros [= <-] Hnext. by rewrite (solve_pos_first _ _ _ _ Hnext).
  - apply IH.
Qed.



End WithPlatform.




(** C8 (the code departs from it). [GetCell(int, int)] does no bounds
    check.  In the 2 by 2 layout [Samples.grid2], which is as its
    constructor builds it, column 3 does not exist,
    yet [GetCell(0, 3)] returns the cell of row 1, column 1 and makes the
    layout its parent; [GetCell(5, 5)] indexes outside the vector of
    cells and has no defined result.  Only the lookup of a name that was
    never registered returns null and changes nothing. *)
Theorem C8_GetCell_index_is_unchecked :
  well_formed Samples.grid2
  /\ GetCell Samples.grid2_nodes 10%positive Samples.grid2 0 3
  = Returns (Some 14%positive,
             SetParentNode Samples.grid2_nodes 14%positive (Some 10%positive))
  /\ GetParentNode Samples.grid2_nodes 14%positive = None
  /\ GetParentNode
       (SetParentNode Samples.grid2_nodes 14%positive (Some 10%positive))
       14%positive = Some 10%positive
  /\ GetCell Samples.grid2_nodes 10%positive Samples.grid2 5 5 = Undefined
  /\ GetCell_name Samples.grid2_nodes 10%positive Samples.grid2 "sidebar"
     = Returns (None, Samples.grid2_nodes).
Proof. repeat split; first [reflexivity | vm_compute; discriminate]. Qed.

(** The half of C8 the code does provide: an unknown name yields null
    and leaves the node store as it was. *)
Lemma GetCell_name_unknown (h : store) (this : IContextNode)
  (L : LayoutImpl) (name : string) :
  named_cells L !! name = None ->
  GetCell_name h this L name = Returns (None, h).
Proof. intros Hname. unfold GetCell_name. by rewrite Hname. Qed.

(** C6. For a valid index [i]: collapsing an expanded track and then
    restoring it leaves the track with exactly the size policy it had
    before; collapsing a track that is already collapsed changes nothing,
    so the policy saved by the first collapse survives a second one and
    is what a later restore reinstates. *)
Theorem C6_collapse_restore_round_trip `{Platform}
  (L : LayoutImpl) (i : Z) (col : DimPlan) :
  0 <= i < m_cCount L ->
  m_cols L !! Z.to_nat i = Some col ->
  (isCollapsed col = false ->
   exists L1 L2 col2,
     CollapseColumn L i = Returns L1
     /\ RestoreColumn L1 i = Returns L2
     /\ m_cols L2 !! Z.to_nat i = Some col2
     /\ size col2 = size col
     /\ isCollapsed col2 = false)
  /\ (isCollapsed col = true -> CollapseColumn L i = Returns L)
  /\ (isCollapsed col = false ->
      exists L1 L2 col2,
        CollapseColumn L i = Returns L1
        /\ CollapseColumn L1 i = Returns L1
        /\ RestoreColumn L1 i = Returns L2
        /\ m_cols L2 !! Z.to_nat i = Some col2
        /\ size col2 = size col).
Proof.
  intros Hi Hcol. split; [|split].
  - intros Hexp.
    destruct (CollapseColumn_expanded L i col Hi Hcol Hexp)
      as (L1 & col1 & HL1 & Hcount & Hcol1 & _ & Hsaved & Hflag).
    destruct (RestoreColumn_collapsed L1 i col1)
      as (L2 & col2 & HL2 & Hcol2 & Hsize & Hflag2);
      [lia | done | done |].
    exists L1, L2, col2. repeat split; try done. congruence.
  - by apply CollapseColumn_collapsed.
  - intros Hexp.
    destruct (CollapseColumn_expanded L i col Hi Hcol Hexp)
      as (L1 & col1 & HL1 & Hcount & Hcol1 & _ & Hsaved & Hflag).
    destruct (RestoreColumn_collapsed L1 i col1)
      as (L2 & col2 & HL2 & Hcol2 & Hsize & Hflag2);
      [lia | done | done |].
    exists L1, L2, col2. repeat split; try done.
    + apply (CollapseColumn_collapsed L1 i col1); [lia | done | done].
    + congruence.
Qed.

Lemma C6_witness :
  exists L1 L2 col2,
    @CollapseColumn Samples.desktop Samples.grid3 1 = Returns L1
    /\ @RestoreColumn Samples.desktop L1 1 = Returns L2
    /\ m_cols L2 !! 1%nat = Some col2
    /\ size col2 = FillW (F32.of_int 1)
    /\ isCollapsed col2 = false.
Proof.
  refine (proj1 (@C6_collapse_restore_round_trip Samples.desktop
                   Samples.grid3 1 _ _ eq_refl) eq_refl).
  simpl. lia.
Defined.

(** C4. Three tracks declared [Fixed(30)], [Fill(1)], [Fixed(60)],
    without splitters and with minimums that do not exceed the sizes,
    laid out by [Arrange] at scale 1:1 in an extent of 300 pixels that
    starts at 0, come out with sizes 30, 210, 60 and positions
    0, 30, 240; this holds for the row axis and for the column axis. *)
Theorem C4_fixed_fill_fixed_in_300 `{Platform}
  (L : LayoutImpl) (d0 d1 d2 : DimPlan) :
  GetDpiForWindow (m_parentNode L) = 96 ->
  size d0 = Fixed (F32.of_int 30) ->
  size d1 = FillW (F32.of_int 1) ->
  size d2 = Fixed (F32.of_int 60) ->
  splitter d0 = false -> splitter d1 = false -> splitter d2 = false ->
  minPx (m_parentNode L) 300 (min d0) <= 30 ->
  minPx (m_parentNode L) 300 (min d1) <= 210 ->
  minPx (m_parentNode L) 300 (min d2) <= 60 ->
  (m_rows L = [d0; d1; d2] ->
   forall x w,
     map actual (m_rows (Arrange L x 0 w 300)) = [30; 210; 60]
     /\ map pos (m_rows (Arrange L x 0 w 300)) = [0; 30; 240])
  /\ (m_cols L = [d0; d1; d2] ->
      forall y h,
        map actual (m_cols (Arrange L 0 y 300 h)) = [30; 210; 60]
        /\ map pos (m_cols (Arrange L 0 y 300 h)) = [0; 30; 240]).
Proof.
  intros Hdpi Hs0 Hs1 Hs2 Hp0 Hp1 Hp2 Hm0 Hm1 Hm2.
  split; intros Haxis ? ?; unfold Arrange; cbn [with_geometry m_rows m_cols];
    rewrite Haxis; by apply solve_three_tracks.
Qed.

Lemma C4_witness :
  map actual (m_rows (@Arrange Samples.desktop Samples.grid3 0 0 300 300))
  = [30; 210; 60]
  /\ map pos (m_rows (@Arrange Samples.desktop Samples.grid3 0 0 300 300))
     = [0; 30; 240].
Proof.
  refine (proj1 (@C4_fixed_fill_fixed_in_300 Samples.desktop Samples.grid3
                   _ _ _ _ _ _ _ _ _ _ _ _ _) eq_refl 0 300);
    first [reflexivity | vm_compute; discriminate].
Defined.

End LayoutFacts.

(** ** The command bar *)

Module CellFacts.

Import ContextNode Cell CellOps.

Section WithHost.
Context `{Platform} `{WidgetHost}.

Lemma MulDiv_96_bounds px dpi :
  0 <= dpi <= Int32.INT_MAX -> 0 <= px <= 80 ->
  0 <= MulDiv px dpi 96 <= Int32.INT_MAX.
Proof.
  unfold Int32.INT_MAX. intros Hdpi Hpx. unfold MulDiv.
  change (96 =? 0) with false. cbv iota.
  assert (Hp : 0 <= px * dpi) by nia.
  rewrite (Z.abs_eq (px * dpi)) by done.
  change (Z.abs 96) with 96. change (Z.sgn 96) with 1.
  assert (Hq0 : 0 <= (2 * (px * dpi) + 96) / (2 * 96))
    by (apply Z.div_pos; lia).
  assert (Hq1 : (2 * (px * dpi) + 96) / (2 * 96) <= 2147483647)
    by (apply Z.div_le_upper_bound; nia).
  destruct (Z.ltb_spec (Z.sgn (px * dpi) * 1) 0) as [Hneg|_].
  { pose proof (Z.sgn_nonneg (px * dpi)) as [_ Hs]. specialize (Hs Hp). lia. }
  unfold Int32.INT_MIN, Int32.INT_MAX.
  destruct (Z.leb_spec (-2147483648) ((2 * (px * dpi) + 96) / (2 * 96)));
    [|lia].
  destruct (Z.leb_spec ((2 * (px * dpi) + 96) / (2 * 96)) 2147483647);
    [|lia].
  simpl. lia.
Qed.

Lemma Scale_bounds hwnd px :
  0 <= GetDpiForWindow hwnd <= Int32.INT_MAX -> 0 <= px <= 80 ->
  0 <= Scale hwnd px <= Int32.INT_MAX.
Proof.
  intros Hdpi Hpx. unfold Scale.
  rewrite Int32Facts.wrap_in_range
    by (unfold Int32.in_range, Int32.INT_MIN in *; lia).
  by apply MulDiv_96_bounds.
Qed.

Lemma widgetWidth_nonneg hwnd A w :
  0 <= GetDpiForWindow hwnd <= Int32.INT_MAX ->
  0 <= widgetWidth hwnd A w.
Proof.
  intros Hdpi. unfold widgetWidth.
  destruct (String.eqb _ "auto").
  - apply Scale_bounds; [done|lia].
  - destruct (Z.ltb_spec (ParseCssDimension hwnd
                            (IWidget_GetProperty w "width") A) 0);
      [apply Scale_bounds; [done|lia] | done].
Qed.

Lemma total_demand_nonneg hwnd A ws :
  0 <= GetDpiForWindow hwnd <= Int32.INT_MAX ->
  0 <= total_demand hwnd A ws.
Proof.
  intros Hdpi. induction ws as [|w rest IH]; simpl; [lia|].
  pose proof (widgetWidth_nonneg hwnd A w Hdpi).
  pose proof (Scale_bounds hwnd 4 Hdpi). lia.
Qed.

(** Once a widget has overflowed, every later one does. *)
Lemma measure_loop_overflowing hwnd ob A ws used v o :
  o <> [] ->
  measure_loop hwnd ob A true ws used v o = (v, o ++ measured ob ws).
Proof.
  intros Ho. revert o Ho. induction ws as [|w rest IH]; intros o Ho.
  - by rewrite app_nil_r.
  - cbn [measure_loop]. unfold measured. rewrite filter_cons.
    destruct (decide (Some w = ob)) as [Heq|Hne].
    + rewrite decide_False by (intros Hc; by apply Hc).
      apply IH, Ho.
    + rewrite decide_True by done.
      rewrite (bool_decide_eq_false_2 (o = [])) by done. cbn [andb].
      rewrite IH by (by destruct o). by rewrite <- app_assoc.
Qed.

Lemma measure_loop_step hwnd ob A w rest used v :
  Some w <> ob ->
  0 <= GetDpiForWindow hwnd <= Int32.INT_MAX ->
  0 <= used -> 0 <= A <= Int32.INT_MAX ->
  used + widgetWidth hwnd A w + Scale hwnd 4 + Scale hwnd 40
    <= Int32.INT_MAX ->
  measure_loop hwnd ob A true (w :: rest) used v []
  = if used + widgetWidth hwnd A w + Scale hwnd 4 + Scale hwnd 40 <=? A
    then measure_loop hwnd ob A true rest
           (used + widgetWidth hwnd A w + Scale hwnd 4) (v ++ [w]) []
    else measure_loop hwnd ob A true rest used v [w].
Proof.
  intros Hne Hdpi Hused HA Hsum.
  pose proof (widgetWidth_nonneg hwnd A w Hdpi) as Hw.
  pose proof (Scale_bounds hwnd 4 Hdpi ltac:(lia)) as Hsp.
  pose proof (Scale_bounds hwnd 40 Hdpi ltac:(lia)) as Hbtn.
  cbn [measure_loop]. rewrite decide_False by done.
  rewrite (bool_decide_eq_true_2 ([] = [])) by done. cbn [negb orb andb app].
  unfold Int32.INT_MAX in *.
  assert (Hr : forall z, -2147483648 <= z <= 2147483647 -> Int32.wrap z = z)
    by (intros z Hz; by apply Int32Facts.wrap_in_range).
  unfold Int32.add, Int32.sub.
  rewrite !Hr by (rewrite ?Hr by lia; lia).
  destruct (Z.ltb_spec A (used + widgetWidth hwnd A w + Scale hwnd 4
                          + Scale hwnd 40)) as [Hlt|Hge].
  - destruct (Z.leb_spec (used + widgetWidth hwnd A w)
                         (A - Scale hwnd 40 - Scale hwnd 4)); [lia|].
    destruct (Z.leb_spec (used + widgetWidth hwnd A w + Scale hwnd 4
                          + Scale hwnd 40) A); [lia|]. done.
  - destruct (Z.leb_spec (used + widgetWidth hwnd A w) A); [|lia].
    destruct (Z.leb_spec (used + widgetWidth hwnd A w + Scale hwnd 4
                          + Scale hwnd 40) A); [|lia].
    f_equal. lia.
Qed.

(** The visible widgets are a prefix of the measured ones and the
    overflow is the rest. *)
Lemma measure_loop_split hwnd ob A ws used v :
  let r := measure_loop hwnd ob A true ws used v [] in
  r.1 ++ r.2 = v ++ measured ob ws.
Proof.
  revert used v. induction ws as [|w rest IH]; intros used v; [done|].
  cbn [measure_loop]. unfold measured. rewrite filter_cons.
  destruct (decide (Some w = ob)) as [Heq|Hne].
  - rewrite decide_False by (intros Hc; by apply Hc). apply IH.
  - rewrite decide_True by done.
    rewrite (bool_decide_eq_true_2 ([] = [])) by done. cbn [negb orb andb app].
    match goal with |- context [if ?c then _ else _] => destruct c end.
    + cbv zeta in IH. rewrite IH. by rewrite <- app_assoc.
    + by rewrite measure_loop_overflowing.
Qed.

Lemma measure_loop_overflow_length hwnd ob A ws used v :
  (length (measure_loop hwnd ob A true ws used v []).2
   <= length (measured ob ws))%nat.
Proof.
  revert used v. induction ws as [|w rest IH]; intros used v; [done|].
  cbn [measure_loop]. unfold measured. rewrite filter_cons.
  destruct (decide (Some w = ob)) as [Heq|Hne].
  - rewrite decide_False by (intros Hc; by apply Hc). apply IH.
  - rewrite decide_True by done.
    rewrite (bool_decide_eq_true_2 ([] = [])) by done. cbn [negb orb andb app].
    match goal with |- context [if ?c then _ else _] => destruct c end.
    + etransitivity; [apply IH|]. unfold measured. simpl. lia.
    + by rewrite measure_loop_overflowing.
Qed.

(** A wider bar never overflows more. *)
Lemma measure_loop_antitone hwnd ob A1 A2 ws :
  0 <= GetDpiForWindow hwnd <= Int32.INT_MAX ->
  0 <= A1 -> A1 <= A2 -> A2 <= Int32.INT_MAX ->
  (forall w, w ∈ ws -> widgetWidth hwnd A1 w = widgetWidth hwnd A2 w) ->
  forall used v1 v2,
    0 <= used ->
    used + total_demand hwnd A1 ws + Scale hwnd 4 + Scale hwnd 40
      <= Int32.INT_MAX ->
    (length (measure_loop hwnd ob A2 true ws used v2 []).2
     <= length (measure_loop hwnd ob A1 true ws used v1 []).2)%nat.
Proof.
  intros Hdpi HA1 HA12 HA2.
  pose proof (Scale_bounds hwnd 4 Hdpi ltac:(lia)) as Hsp.
  pose proof (Scale_bounds hwnd 40 Hdpi ltac:(lia)) as Hbtn.
  induction ws as [|w rest IH]; intros Hfixed used v1 v2 Hused Hsum; [done|].
  assert (Hfixed' : forall w', w' ∈ rest ->
            widgetWidth hwnd A1 w' = widgetWidth hwnd A2 w')
    by (intros w' Hw'; by apply Hfixed, list_elem_of_further).
  pose proof (widgetWidth_nonneg hwnd A1 w Hdpi) as Hw.
  pose proof (total_demand_nonneg hwnd A1 rest Hdpi) as Hrest.
  cbn [total_demand] in Hsum.
  destruct (decide (Some w = ob)) as [Heq|Hne].
  - cbn [measure_loop]. rewrite !decide_True by done.
    apply IH; [done | done | lia].
  - rewrite !measure_loop_step; try done; try lia.
    2: { rewrite <- (Hfixed w) by apply list_elem_of_here. lia. }
    rewrite <- (Hfixed w) by apply list_elem_of_here.
    destruct (Z.leb_spec (used + widgetWidth hwnd A1 w + Scale hwnd 4
                          + Scale hwnd 40) A1) as [Hfit1|Hno1].
    + destruct (Z.leb_spec (used + widgetWidth hwnd A1 w + Scale hwnd 4
                            + Scale hwnd 40) A2); [|lia].
      apply IH; [done | lia | lia].
    + rewrite (measure_loop_overflowing hwnd ob A1) by done.
      destruct (Z.leb_spec (used + widgetWidth hwnd A1 w + Scale hwnd 4
                            + Scale hwnd 40) A2).
      * etransitivity; [apply measure_loop_overflow_length|].
        cbn [snd app length]. lia.
      * by rewrite (measure_loop_overflowing hwnd ob A2).
Qed.




End WithHost.

(** C5. For a fixed list of widgets whose widths do not depend on the
    available width, the number of widgets [MeasureCommandBarWidgets]
    puts in the overflow set does not grow when the available width
    grows (and so does not shrink when it shrinks); and the visible
    widgets followed by the overflow set are the measured widgets in
    their order, so that after the first widget that overflows every
    later one overflows too. *)
Theorem C5_overflow_antitone_in_width `{Platform} `{WidgetHost}
  (cell : CellImpl) (A1 A2 : Z) :
  0 <= GetDpiForWindow (m_hwnd cell) <= Int32.INT_MAX ->
  0 <= A1 -> A1 <= A2 -> A2 <= Int32.INT_MAX ->
  (forall w, w ∈ widgets cell ->
     widgetWidth (m_hwnd cell) A1 w = widgetWidth (m_hwnd cell) A2 w) ->
  total_demand (m_hwnd cell) A1 (widgets cell)
    + Scale (m_hwnd cell) 4 + Scale (m_hwnd cell) 40 <= Int32.INT_MAX ->
  let narrow := MeasureCommandBarWidgets cell A1 true in
  let wide := MeasureCommandBarWidgets cell A2 true in
  (length wide.2 <= length narrow.2)%nat
  /\ narrow.1 ++ narrow.2 = measured (overflowButton cell) (widgets cell)
  /\ wide.1 ++ wide.2 = measured (overflowButton cell) (widgets cell).
Proof.
  intros Hdpi HA1 HA12 HA2 Hfixed Hsum narrow wide.
  subst narrow wide. unfold MeasureCommandBarWidgets.
  split; [|split].
  - apply measure_loop_antitone; first [done | lia].
  - apply (measure_loop_split _ _ _ _ 0 []).
  - apply (measure_loop_split _ _ _ _ 0 []).
Qed.

Lemma C5_witness :
  let narrow :=
    @MeasureCommandBarWidgets Samples.desktop Samples.buttons
      Samples.toolbar 200 true in
  let wide :=
    @MeasureCommandBarWidgets Samples.desktop Samples.buttons
      Samples.toolbar 300 true in
  (length wide.2 <= length narrow.2)%nat
  /\ narrow.1 ++ narrow.2 = [21; 22; 23; 24; 25]%positive
  /\ wide.1 ++ wide.2 = [21; 22; 23; 24; 25]%positive.
Proof.
  apply (@C5_overflow_antitone_in_width Samples.desktop Samples.buttons
           Samples.toolbar 200 300).
  - simpl. unfold Int32.INT_MAX. lia.
  - lia.
  - lia.
  - unfold Int32.INT_MAX. lia.
  - intros w _. reflexivity.
  - vm_compute. discriminate.
Defined.


(** How the fourth button of the sample bar comes to be visible at 244:
    a pass with the window 500 pixels wide places and shows all five
    buttons. *)
Lemma wide_pass_places_all :
  exists calls,
    @UpdateWidgets_CommandBar_calls MoreSamples.wide_desktop Samples.buttons
      2 Samples.toolbar_nodes 3%positive Samples.toolbar (Some 30%positive)
    = Some calls
    /\ after_calls calls 24%positive
         (Some {| shown := true; placed := (0, 0, 0, 0) |})
       = Some MoreSamples.placed_wide.
Proof. eexists. split; vm_compute; reflexivity. Qed.


End CellFacts.

(** ** Texts *)

Module StringFacts.

Import StyleManager.

Lemma chars_append s t : chars (s +:+ t) = chars s ++ chars t.
Proof.
  induction s as [|a s IH]; [done|].
  change (String a s +:+ t) with (String a (s +:+ t)).
  cbn [String.list_ascii_of_string app]. by rewrite IH.
Qed.

Lemma chars_substring n m s :
  chars (String.substring n m s) = take m (drop n (chars s)).
Proof.
  revert n m. induction s as [|a s IH]; intros n m.
  - destruct n, m; done.
  - destruct n as [|n].
    + destruct m as [|m]; [done|].
      cbn [String.substring String.list_ascii_of_string drop take].
      by rewrite IH.
    + cbn [String.substring String.list_ascii_of_string drop]. apply IH.
Qed.

Lemma chars_inj s t : chars s = chars t -> s = t.
Proof.
  intros Heq. rewrite <- (String.string_of_list_ascii_of_string s),
    <- (String.string_of_list_ascii_of_string t). by rewrite Heq.
Qed.

Lemma chars_length s : length (chars s) = String.length s.
Proof. induction s as [|c s IH]; [done|]. cbn. by rewrite IH. Qed.

Lemma get_lookup i s : String.get i s = chars s !! i.
Proof.
  revert i. induction s as [|c s IH]; intros [|i]; cbn; try done.
Qed.

Lemma append_cons a s t : String a s +:+ t = String a (s +:+ t).
Proof. done. Qed.

Lemma append_nil_r s : s +:+ EmptyString = s.
Proof. apply chars_inj. rewrite chars_append. apply app_nil_r. Qed.

Lemma append_assoc s t u : (s +:+ t) +:+ u = s +:+ (t +:+ u).
Proof. apply chars_inj. rewrite !chars_append. by rewrite app_assoc. Qed.

Lemma append_empty s t : s +:+ t = EmptyString -> s = EmptyString.
Proof. by destruct s. Qed.

Lemma length_append a b :
  String.length (a +:+ b) = (String.length a + String.length b)%nat.
Proof. by rewrite <- !chars_length, chars_append, length_app. Qed.

Lemma get_append_r s t n :
  String.get (String.length s + n) (s +:+ t) = String.get n t.
Proof.
  induction s as [|a s IH]; [done|].
  rewrite append_cons. cbn [String.length Nat.add String.get]. done.
Qed.

Lemma substring_all t : String.substring 0 (String.length t) t = t.
Proof.
  induction t as [|a t IH]; [done|].
  cbn [String.length String.substring]. by rewrite IH.
Qed.

Lemma substring_append_l a b :
  String.substring 0 (String.length a) (a +:+ b) = a.
Proof.
  apply chars_inj. rewrite chars_substring, chars_append, drop_0.
  rewrite <- chars_length. by rewrite take_app_length.
Qed.

Lemma substring_append_r a b :
  String.substring (String.length a) (String.length b) (a +:+ b) = b.
Proof.
  apply chars_inj. rewrite chars_substring, chars_append.
  rewrite <- !chars_length, drop_app_length. apply firstn_all.
Qed.

Lemma substring_middle a b c :
  String.substring (String.length a) (String.length b) (a +:+ b +:+ c) = b.
Proof.
  apply chars_inj. rewrite chars_substring, !chars_append.
  rewrite <- !chars_length, drop_app_length. by rewrite take_app_length.
Qed.

End StringFacts.

(** ** More on the property store *)

Module ContextNodeOpsFacts.

Import ContextNode ContextNodeOps ContextNodeFacts.

Lemma first_nonempty_app resolve ks1 ks2 :
  first_nonempty resolve (ks1 ++ ks2)
  = (r ← first_nonempty resolve ks1;
     if empty r then first_nonempty resolve ks2 else Some r).
Proof.
  induction ks1 as [|k ks IH]; simpl; [done|].
  destruct (resolve k) as [v|]; simpl; [|done].
  destruct (empty v) eqn:Hv; [apply IH|]. simpl. by rewrite Hv.
Qed.

(** X1. [GetStyle] answers with the first key, in the order variant
    level, class level, bare property (each level in state order), that
    resolves to a non-empty string, and with the default when none does;
    a level whose variant or class name is empty is not probed at all. *)
Theorem X1_GetStyle_is_first_nonempty_of_cascade
  (fuel : nat) (h : store) (n : IContextNode)
  (prop def classid variant : string)
  (selected enabled hovered active : bool) :
  GetStyle fuel h n prop def classid variant selected enabled hovered active
  = (r ← first_nonempty (fun k => GetProperty fuel h n k "")
           (cascade_keys prop classid variant
                         selected enabled hovered active);
     Some (if empty r then def else r)).
Proof.
  unfold GetStyle, cascade_keys.
  rewrite !TryResolveState_first_nonempty.
  set (resolve := fun k => GetProperty fuel h n k "").
  destruct (empty variant), (empty classid); cbn [negb app];
    rewrite ?first_nonempty_app;
    repeat match goal with
    | |- context [first_nonempty resolve (state_keys ?b ?s ?e ?hv ?a)] =>
        destruct (first_nonempty resolve (state_keys b s e hv a)) as [?r|];
        cbn [mbind option_bind negb]; [|done..]
    | |- context [empty ?r] =>
        is_var r; destruct (empty r) eqn:?; cbn [mbind option_bind negb]
    end; try done; by simplify_eq.
Qed.

(** X2. Nothing checks parent links for cycles.  When every node of a
    set has its parent in the set and none has anything to say for
    [key] (none answers it from its state, none binds it), a lookup of
    [key] from a node of the set has no result, however much fuel it is
    given: the recursion of [GetProperty] does not end. *)
Theorem X2_GetProperty_diverges_on_a_cycle
  (h : store) (key def : string) (loop : IContextNode -> Prop) :
  (forall n, loop n ->
     exists nd p, h !! n = Some nd /\ own nd key = None
                  /\ m_parent nd = Some p /\ loop p) ->
  forall fuel n, loop n -> GetProperty fuel h n key def = None.
Proof.
  intros Hloop fuel. induction fuel as [|fuel IH]; intros n Hn; [done|].
  destruct (Hloop n Hn) as (nd & p & Hnd & Hkey & Hp & Hloop_p).
  simpl. rewrite Hnd. unfold own in Hkey.
  destruct (answers nd key); [done|]. rewrite Hkey, Hp. by apply IH.
Qed.

Lemma X2_witness :
  GetProperty 1000
    (SetParentNode Samples.nodes 1%positive (Some 2%positive))
    2%positive "margin" "none" = None.
Proof.
  apply (X2_GetProperty_diverges_on_a_cycle
           (SetParentNode Samples.nodes 1%positive (Some 2%positive))
           "margin" "none"
           (fun n => n = 1%positive \/ n = 2%positive)); [|by right].
  intros n [-> | ->].
  - eexists _, 2%positive. repeat split; [reflexivity..|by right].
  - eexists _, 1%positive. repeat split; [reflexivity..|by left].
Defined.

(** X3. A write is seen through the parent links: when [k] links lead
    from [n] to [a] through nodes that have nothing to say for [key],
    and [a] does not answer [key] from its state, then after
    [SetProperty(key, v)] on [a] the lookup of [key] from [n] returns
    [v]. *)
Theorem X3_SetProperty_is_seen_from_below
  (h : store) (key v def : string) (n a : IContextNode)
  (nda : ContextNodeImpl) (k fuel : nat) :
  defers h key n a k ->
  h !! a = Some nda ->
  answers nda key = None ->
  (k < fuel)%nat ->
  GetProperty fuel (SetProperty h a key (Some v)) n key def = Some v.
Proof.
  intros Hdefers Ha Hans. revert fuel.
  induction Hdefers as [a | n nd p a k Hn Hkey Hp Hne Hrest IH];
    intros fuel Hfuel; (destruct fuel as [|fuel]; [lia|]).
  - by eapply GetProperty_SetProperty.
  - simpl. rewrite SetProperty_other, Hn by done.
    unfold own in Hkey. destruct (answers nd key); [done|].
    rewrite Hkey, Hp. apply IH; first [done | lia].
Qed.

Lemma X3_witness :
  GetProperty 4
    (SetProperty Samples.panel_nodes 1%positive "margin" (Some "4"))
    6%positive "margin" "none" = Some "4".
Proof.
  apply (X3_SetProperty_is_seen_from_below Samples.panel_nodes "margin"
           "4" "none" 6%positive 1%positive Samples.theme 3 4).
  - do 3 (eapply defers_up;
          [reflexivity | reflexivity | reflexivity | done |]).
    apply defers_here.
  - reflexivity.
  - reflexivity.
  - lia.
Defined.



Lemma lor_shiftl_low a b n : 0 <= n -> 0 <= a < 2 ^ n ->
  Z.lor a (Z.shiftl b n) = a + b * 2 ^ n.
Proof.
  intros Hn Ha.
  rewrite Z.shiftl_mul_pow2 by done.
  assert (Hland : Z.land a (b * 2 ^ n) = 0).
  { apply Z.bits_inj'. intros i Hi. rewrite Z.land_spec, Z.bits_0.
    destruct (Z.lt_ge_cases i n).
    - rewrite Z.mul_pow2_bits_low by done. apply andb_false_r.
    - destruct (Z.eq_dec a 0) as [->|]; [by rewrite Z.bits_0|].
      rewrite (Z.bits_above_log2 a i); [done | lia |].
      apply Z.log2_lt_pow2; [lia|].
      eapply Z.lt_le_trans; [apply Ha|]. apply Z.pow_le_mono_r; lia. }
  rewrite <- Z.lxor_lor by done. symmetry. by apply Z.add_nocarry_lxor.
Qed.

Lemma RGB_of_parts c :
  RGB (GetRValue c) (GetGValue c) (GetBValue c) = c mod 16777216.
Proof.
  unfold RGB, GetRValue, GetGValue, GetBValue.
  rewrite !Z.mod_mod by lia.
  pose proof (Z.mod_pos_bound c 256 ltac:(lia)) as Hr.
  pose proof (Z.mod_pos_bound (c mod 65536 / 256) 256 ltac:(lia)) as Hg.
  pose proof (Z.mod_pos_bound (c / 65536) 256 ltac:(lia)) as Hb.
  rewrite (lor_shiftl_low (c mod 256) _ 8) by lia.
  rewrite (lor_shiftl_low _ _ 16) by lia.
  change (2 ^ 8) with 256. change (2 ^ 16) with 65536.
  pose proof (Z.div_mod c 65536 ltac:(lia)) as E1.
  pose proof (Z.div_mod (c mod 65536) 256 ltac:(lia)) as E2.
  pose proof (Z.div_mod (c / 65536) 256 ltac:(lia)) as E3.
  pose proof (Z.div_mod c 256 ltac:(lia)) as E4.
  pose proof (Z.mod_pos_bound c 65536 ltac:(lia)) as Hw.
  pose proof (Z.mod_pos_bound (c mod 65536) 256 ltac:(lia)) as Hl.
  assert (Hg' : 0 <= c mod 65536 / 256 < 256)
    by (split; [apply Z.div_pos | apply Z.div_lt_upper_bound]; lia).
  rewrite (Z.mod_small (c mod 65536 / 256)) in * by lia.
  assert (Hlow : c mod 65536 mod 256 = c mod 256).
  { apply Z.mod_unique_pos
      with (q := 256 * (c / 65536) + c mod 65536 / 256); lia. }
  apply Z.mod_unique_pos with (q := c / 65536 / 256); lia.
Qed.

(** The override of [SetColor] in [LayoutImpl] and in [ContainerImpl]
    calls itself: whatever the depth allowed, it has no result. *)
Lemma SetColor_self_gives_nothing fuel h this key color :
  SetColor_self fuel h this key color = None.
Proof. induction fuel as [|fuel IH]; [done|]. apply IH. Qed.

(** X5. A colour stored by [SetColor] is read back by [GetColor] as its
    low 24 bits, on a node that is neither a layout nor a container and
    does not answer the key from its state, provided the scanner reads
    back two-digit hexadecimal fields as [sprintf] wrote them; for a key
    whose value is empty (or bound nowhere), does not begin with [#] or
    is shorter than seven characters, [GetColor] answers the default
    without scanning; and on a layout or a container [SetColor] has no
    result, its override calling itself. *)
Theorem X5_GetColor_reads_back_SetColor `{Scanf}
  (h : store) (n : IContextNode) (nd : ContextNodeImpl)
  (fuel depth : nat) (key : string) (color defaultColor : Z) :
  h !! n = Some nd ->
  (forall r g b,
      0 <= r < 256 -> 0 <= g < 256 -> 0 <= b < 256 ->
      sscanf_s_hex3 (hex2 r +:+ hex2 g +:+ hex2 b) = Some (r, g, b)) ->
  (derived nd <> OfLayout -> derived nd <> OfContainer ->
   answers nd key = None ->
   exists h',
     SetColor depth h n key color = Some h'
     /\ GetColor (S fuel) h' n key defaultColor
        = Some (color mod 16777216))
  /\ (forall val,
        GetProperty (S fuel) h n key "" = Some val ->
        String.get 0 val <> Some "#"%char \/ (String.length val < 7)%nat ->
        GetColor (S fuel) h n key defaultColor = Some defaultColor)
  /\ (derived nd = OfLayout \/ derived nd = OfContainer ->
      SetColor depth h n key color = None).
Proof.
  intros Hn Hscan. split; [|split].
  - intros Hlayout Hcontainer Hans. eexists. split.
    { unfold SetColor. rewrite Hn. cbn [mbind option_bind].
      by destruct (derived nd). }
    unfold GetColor.
    rewrite (GetProperty_SetProperty _ _ _ nd) by done.
    cbn [mbind option_bind].
    pose proof (Hscan (GetRValue color) (GetGValue color) (GetBValue color))
      as Hrgb.
    unfold hex2 in Hrgb |- *.
    cbv beta iota delta [String.append] in Hrgb |- *.
    cbn [String.length].
    change (7 <? 7)%nat with false. cbv iota.
    rewrite Hrgb by (unfold GetRValue, GetGValue, GetBValue;
                     apply Z.mod_pos_bound; lia).
    by rewrite RGB_of_parts.
  - intros val Hval Hbad. unfold GetColor. rewrite Hval.
    cbn [mbind option_bind]. f_equal.
    destruct val as [|c rest]; [done|].
    destruct (decide (c = "#"%char)) as [->|Hc].
    + destruct Hbad as [Hbad|Hshort]; [by destruct Hbad|].
      destruct (Nat.ltb_spec (String.length (String "#" rest)) 7);
        [done | lia].
    + by destruct c as [[] [] [] [] [] [] [] []].
  - intros Hclass. unfold SetColor. rewrite Hn. cbn [mbind option_bind].
    destruct Hclass as [-> | ->]; apply SetColor_self_gives_nothing.
Qed.

(** A digit that [%X] writes is read as the number it stands for, and is
    neither white space nor a sign nor the [x] of a prefix. *)
Lemma hex_digit_read d :
  0 <= d < 16 ->
  MoreSamples.hex_value (hex_digit d) = Some d
  /\ MoreSamples.isspace (hex_digit d) = false
  /\ Ascii.eqb (hex_digit d) "x" = false
  /\ Ascii.eqb (hex_digit d) "X" = false.
Proof.
  intros Hd. replace d with (Z.of_nat (Z.to_nat d)) by lia.
  assert (Hn : (Z.to_nat d < 16)%nat) by lia. revert Hn.
  generalize (Z.to_nat d). intros k Hk.
  do 16 (destruct k as [|k]; [by vm_compute|]). lia.
Qed.

Lemma scan_field_hex2 b rest :
  0 <= b < 256 ->
  MoreSamples.scan_field (hex2 b +:+ rest) = Some (b, rest).
Proof.
  intros Hb. unfold hex2.
  destruct (hex_digit_read (b / 16)) as (Hhi & Hsp & _).
  { split; [apply Z.div_pos | apply Z.div_lt_upper_bound]; lia. }
  destruct (hex_digit_read (b mod 16)) as (Hlo & _ & Hx & HX).
  { apply Z.mod_pos_bound. lia. }
  cbv beta iota delta [String.append].
  unfold MoreSamples.scan_field. cbn [MoreSamples.skip_space].
  rewrite Hsp, Hhi, Hlo, Hx, HX. cbn [orb]. rewrite andb_false_r.
  do 2 f_equal. pose proof (Z.div_mod b 16). lia.
Qed.

Lemma hex_fields_read_back r g b :
  0 <= r < 256 -> 0 <= g < 256 -> 0 <= b < 256 ->
  @sscanf_s_hex3 MoreSamples.hex_fields (hex2 r +:+ hex2 g +:+ hex2 b)
  = Some (r, g, b).
Proof.
  intros Hr Hg Hb. cbn [sscanf_s_hex3 MoreSamples.hex_fields].
  rewrite scan_field_hex2 by done. cbn [mbind option_bind].
  rewrite scan_field_hex2 by done. cbn [mbind option_bind].
  rewrite <- (StringFacts.append_nil_r (hex2 b)).
  rewrite scan_field_hex2 by done. done.
Qed.

Lemma X5_witness :
  exists h',
    SetColor 0 Samples.nodes 2%positive "border-color" 16744448 = Some h'
    /\ @GetColor MoreSamples.hex_fields 1 h' 2%positive "border-color" 0
       = Some 16744448.
Proof.
  apply (proj1 (@X5_GetColor_reads_back_SetColor MoreSamples.hex_fields
                  Samples.nodes 2%positive Samples.leaf 0 0 "border-color"
                  16744448 0 eq_refl hex_fields_read_back));
    first [discriminate | reflexivity].
Defined.

End ContextNodeOpsFacts.

(** ** More on the track solver *)

Module LayoutOpsFacts.

Import ContextNode Layout LayoutOps LayoutFacts.

Section WithPlatform.
Context `{Platform}.

(** X6. [Arrange] never sizes a track declared in pixels or in percent
    below its minimum; a fill track gets at least its minimum when the
    fill weights of its axis sum to more than zero and gets size 0,
    whatever its minimum, when they do not; a platform-metric track gets
    the caption height and its minimum is not looked at. *)
Theorem X6_solve_respects_minimums
  (hwnd : HWND) (dims : list DimPlan) (total offset : Z)
  (i : nat) (d d' : DimPlan) :
  dims !! i = Some d ->
  solve hwnd dims total offset !! i = Some d' ->
  match unit (size d) with
  | Pixels | Percent => minPx hwnd total (min d) <= actual d'
  | Fill =>
      if F32.ltb F32.zero (fill_weight_sum dims)
      then minPx hwnd total (min d) <= actual d'
      else actual d' = 0
  | System =>
      actual d' = GetSystemMetricsForDpi_CYCAPTION (GetDpiForWindow hwnd)
  end.
Proof.
  intros Hd Hd'.
  destruct (solve_actual hwnd dims total offset i d Hd)
    as (d'' & avail & Hd'' & Hact).
  rewrite Hd' in Hd''. injection Hd'' as <-. rewrite Hact.
  unfold solve_fill, first_pass. cbn [with_actual size min actual].
  destruct (unit (size d)), (F32.ltb F32.zero (fill_weight_sum dims));
    cbn [with_actual actual]; lia.
Qed.

(** Two tracks with the same policies and the same size differ in their
    position only. *)
Lemma with_pos_ext d1 d2 cur :
  policy d1 = policy d2 -> actual d1 = actual d2 ->
  with_pos d1 cur = with_pos d2 cur.
Proof.
  destruct d1, d2. unfold policy. simpl. intros [= -> -> -> -> -> ->] ->.
  reflexivity.
Qed.

Lemma solve_pos_ext sSize dims1 dims2 :
  Forall2 (fun d1 d2 => policy d1 = policy d2 /\ actual d1 = actual d2)
          dims1 dims2 ->
  forall cur, solve_pos sSize dims1 cur = solve_pos sSize dims2 cur.
Proof.
  induction 1 as [|d1 d2 r1 r2 [Hpol Hact] _ IH]; intros cur; [done|].
  cbn [solve_pos]. rewrite (with_pos_ext d1 d2) by done.
  assert (Hsp : splitter d1 = splitter d2)
    by (unfold policy in Hpol; congruence).
  by rewrite Hact, Hsp, IH.
Qed.

Lemma first_pass_ext hwnd total d1 d2 :
  policy d1 = policy d2 -> first_pass hwnd total d1 = first_pass hwnd total d2.
Proof.
  unfold policy, first_pass. intros [= Hs Hm _ _ _ _]. by rewrite Hs, Hm.
Qed.

Lemma solve_fixed_ext hwnd total sSize dims1 dims2 :
  Forall2 (fun d1 d2 => policy d1 = policy d2) dims1 dims2 ->
  forall avail fw,
    (solve_fixed hwnd total sSize dims1 avail fw).1.2
    = (solve_fixed hwnd total sSize dims2 avail fw).1.2
    /\ (solve_fixed hwnd total sSize dims1 avail fw).2
       = (solve_fixed hwnd total sSize dims2 avail fw).2.
Proof.
  induction 1 as [|d1 d2 r1 r2 Hpol _ IH]; intros avail fw; [done|].
  cbn [solve_fixed].
  assert (Hs : size d1 = size d2) by (unfold policy in Hpol; congruence).
  assert (Hm : min d1 = min d2) by (unfold policy in Hpol; congruence).
  assert (Hsp : splitter d1 = splitter d2)
    by (unfold policy in Hpol; congruence).
  rewrite Hs, Hm, Hsp.
  destruct (unit (size d2));
    match goal with
    | |- context [solve_fixed ?a ?b ?c r1 ?e ?f] =>
        destruct (IH e f) as [IH1 IH2];
        destruct (solve_fixed a b c r1 e f) as [[x1 a1] f1];
        destruct (solve_fixed a b c r2 e f) as [[x2 a2] f2]
    end; simpl in *; by subst.
Qed.

(** [solve] reads the policies of the tracks and nothing else: the sizes
    and positions the tracks came with do not matter. *)
Lemma solve_ext hwnd total offset dims1 dims2 :
  Forall2 (fun d1 d2 => policy d1 = policy d2) dims1 dims2 ->
  solve hwnd dims1 total offset = solve hwnd dims2 total offset.
Proof.
  intros Hpol. unfold solve.
  destruct (solve_fixed_spec hwnd total (Scale hwnd SPLITTER_SIZE) dims1
              total F32.zero) as [H1 _].
  destruct (solve_fixed_spec hwnd total (Scale hwnd SPLITTER_SIZE) dims2
              total F32.zero) as [H2 _].
  destruct (solve_fixed_ext hwnd total (Scale hwnd SPLITTER_SIZE) _ _ Hpol
              total F32.zero) as [Ha Hw].
  destruct (solve_fixed hwnd total (Scale hwnd SPLITTER_SIZE) dims1 total
              F32.zero) as [[x1 a1] f1].
  destruct (solve_fixed hwnd total (Scale hwnd SPLITTER_SIZE) dims2 total
              F32.zero) as [[x2 a2] f2].
  simpl in *. subst.
  apply solve_pos_ext.
  destruct (F32.ltb F32.zero f2).
  - rewrite !Forall2_fmap. eapply Forall2_impl; [exact Hpol|].
    intros d1 d2 Hd. rewrite !solve_fill_policy.
    split; [done|].
    unfold solve_fill. cbn [with_actual size min].
    assert (Hs : size d1 = size d2) by (unfold policy in Hd; congruence).
    assert (Hm : min d1 = min d2) by (unfold policy in Hd; congruence).
    rewrite Hs, Hm, (first_pass_ext _ _ d1 d2) by done.
    by destruct (unit (size d2)).
  - rewrite !Forall2_fmap. eapply Forall2_impl; [exact Hpol|].
    intros d1 d2 Hd. split; [done|].
    cbn [with_actual actual]. by apply first_pass_ext.
Qed.

Lemma solve_policy_Forall2 hwnd dims total offset :
  Forall2 (fun d1 d2 => policy d1 = policy d2)
          (solve hwnd dims total offset) dims.
Proof.
  pose proof (solve_policy hwnd dims total offset) as Hmap.
  revert Hmap. generalize (solve hwnd dims total offset).
  induction dims as [|d rest IH]; intros [|d' l] Hmap; cbn [map] in Hmap;
    try discriminate.
  - constructor.
  - constructor; [congruence | apply IH; congruence].
Qed.

(** X7. [Arrange] reads the declared policies only, so arranging again
    over the same rectangle changes nothing. *)
Theorem X7_Arrange_is_idempotent (L : LayoutImpl) (x y w h : Z) :
  Arrange (Arrange L x y w h) x y w h = Arrange L x y w h.
Proof.
  unfold Arrange. cbn [with_geometry m_rows m_cols m_parentNode m_rCount
                        m_cCount m_cells named_cells].
  f_equal; apply solve_ext, solve_policy_Forall2.
Qed.

(** X8. Collapsing an expanded column whose minimum is given in pixels
    or in percent makes its resolved width exactly that minimum, resolved
    against the width of the last arranged rectangle. *)
Theorem X8_collapsed_column_has_its_minimum_width
  (L : LayoutImpl) (i : Z) (col : DimPlan) :
  0 <= i < m_cCount L ->
  m_cols L !! Z.to_nat i = Some col ->
  isCollapsed col = false ->
  unit (min col) = Pixels \/ unit (min col) = Percent ->
  exists L1 col1,
    CollapseColumn L i = Returns L1
    /\ m_cols L1 !! Z.to_nat i = Some col1
    /\ actual col1
       = minPx (m_parentNode L)
               (Int32.sub (right (m_lastRect L)) (left (m_lastRect L)))
               (min col).
Proof.
  intros Hi Hcol Hexp Hunit. unfold CollapseColumn.
  destruct (Z.ltb_spec i 0); [lia|].
  destruct (Z.leb_spec (m_cCount L) i); [lia|]. cbn [orb].
  rewrite (at_index_lookup _ _ col) by (lia || done).
  cbn [mbind behaviour_bind]. rewrite Hexp.
  set (col' := {| size := min col; min := min col; pos := pos col;
                  actual := actual col; splitter := splitter col;
                  sd := sd col; savedSize := size col;
                  isCollapsed := true |}).
  set (total := Int32.sub (right (m_lastRect L)) (left (m_lastRect L))).
  destruct (solve_actual (m_parentNode L)
              (<[Z.to_nat i := col']> (m_cols L)) total
              (left (m_lastRect L)) (Z.to_nat i) col')
    as (col1 & avail & Hcol1 & Hact).
  { apply list_lookup_insert_eq. by eapply lookup_lt_Some. }
  eexists _, col1. split; [reflexivity|]. split; [exact Hcol1|].
  rewrite Hact. unfold solve_fill, first_pass, minPx. subst col'.
  cbn [with_actual size min actual].
  destruct Hunit as [Hu | Hu]; rewrite Hu;
    destruct (F32.ltb F32.zero _); cbn [with_actual actual];
    apply Z.max_id.
Qed.

Lemma SetCol_at L i s sp m created col :
  0 <= i ->
  m_cols L !! Z.to_nat i = Some col ->
  SetCol L i s sp m created
  = Returns (with_geometry L (m_lastRect L) (m_rows L)
               (<[Z.to_nat i := declare col true i s sp m created]>
                  (m_cols L))).
Proof.
  intros Hi Hcol. unfold SetCol.
  by rewrite (at_index_lookup _ _ col) by (lia || done).
Qed.

(** X9. A size declared with [SetCol] while the column is collapsed is
    lost: the next [RestoreColumn] puts back the size saved when the
    column was collapsed.  The minimum declared by the same [SetCol]
    stays. *)
Theorem X9_SetCol_on_collapsed_column_is_overridden
  (L : LayoutImpl) (i : Z) (col : DimPlan)
  (s m : WidgetSize) (sp : bool) (created : HWND) :
  0 <= i < m_cCount L ->
  m_cols L !! Z.to_nat i = Some col ->
  isCollapsed col = true ->
  exists L1 L2 col2,
    SetCol L i s sp m created = Returns L1
    /\ RestoreColumn L1 i = Returns L2
    /\ m_cols L2 !! Z.to_nat i = Some col2
    /\ size col2 = savedSize col
    /\ min col2 = m.
Proof.
  intros Hi Hcol Hcoll.
  rewrite (SetCol_at L i s sp m created col) by (lia || done).
  set (L1 := with_geometry _ _ _ _).
  assert (Hcol1 : m_cols L1 !! Z.to_nat i
                  = Some (declare col true i s sp m created)).
  { apply list_lookup_insert_eq. by eapply lookup_lt_Some. }
  exists L1.
  edestruct (solve_lookup (m_parentNode L)
               (<[Z.to_nat i :=
                    {| size := savedSize col; min := m; pos := pos col;
                       actual := actual col; splitter := sp;
                       sd := sd (declare col true i s sp m created);
                       savedSize := savedSize col;
                       isCollapsed := false |}]> (m_cols L1))
               (Int32.sub (right (m_lastRect L)) (left (m_lastRect L)))
               (left (m_lastRect L)) (Z.to_nat i))
    as (col2 & Hcol2 & Hpol).
  { apply list_lookup_insert_eq. by eapply lookup_lt_Some. }
  eexists _, col2. split; [reflexivity|].
  split.
  { unfold RestoreColumn.
    change (m_cCount L1) with (m_cCount L).
    destruct (Z.ltb_spec i 0); [lia|].
    destruct (Z.leb_spec (m_cCount L) i); [lia|]. cbn [orb].
    rewrite (at_index_lookup _ _ _ (proj1 Hi) Hcol1).
    cbn [mbind behaviour_bind declare isCollapsed]. rewrite Hcoll.
    reflexivity. }
  split; [exact Hcol2|].
  unfold policy in Hpol. simpl in Hpol.
  injection Hpol as -> -> _ _ _ _. done.
Qed.

Lemma IsColumnCollapsed_at L i col :
  0 <= i < m_cCount L ->
  m_cols L !! Z.to_nat i = Some col ->
  IsColumnCollapsed L i = Returns (isCollapsed col).
Proof.
  intros Hi Hcol. unfold IsColumnCollapsed.
  destruct (Z.ltb_spec i 0); [lia|].
  destruct (Z.leb_spec (m_cCount L) i); [lia|]. cbn [orb].
  by rewrite (at_index_lookup _ _ col) by (lia || done).
Qed.

(** X10. With an index outside [0, m_cCount), [CollapseColumn] and
    [RestoreColumn] leave the layout as it is and [IsColumnCollapsed]
    answers [false]; with an index inside, [IsColumnCollapsed] answers
    [true] after [CollapseColumn] and [false] after the [RestoreColumn]
    that follows, re-arranging in between notwithstanding. *)
Theorem X10_IsColumnCollapsed_follows_collapse_and_restore
  (L : LayoutImpl) (i : Z) :
  (~ (0 <= i < m_cCount L) ->
   CollapseColumn L i = Returns L /\ RestoreColumn L i = Returns L
   /\ IsColumnCollapsed L i = Returns false)
  /\ (forall col,
        0 <= i < m_cCount L ->
        m_cols L !! Z.to_nat i = Some col ->
        exists L1 L2,
          CollapseColumn L i = Returns L1
          /\ IsColumnCollapsed L1 i = Returns true
          /\ RestoreColumn L1 i = Returns L2
          /\ IsColumnCollapsed L2 i = Returns false).
Proof.
  split.
  - intros Hout. unfold CollapseColumn, RestoreColumn, IsColumnCollapsed.
    destruct (Z.ltb_spec i 0); [done|].
    destruct (Z.leb_spec (m_cCount L) i); [done|]. lia.
  - intros col Hi Hcol.
    assert (Hcollapse : exists L1 col1,
              CollapseColumn L i = Returns L1
              /\ m_cCount L1 = m_cCount L
              /\ m_cols L1 !! Z.to_nat i = Some col1
              /\ isCollapsed col1 = true).
    { destruct (isCollapsed col) eqn:Hflag.
      - exists L, col. by rewrite (CollapseColumn_collapsed L i col).
      - destruct (CollapseColumn_expanded L i col Hi Hcol Hflag)
          as (L1 & col1 & ? & ? & ? & _ & _ & ?). by exists L1, col1. }
    destruct Hcollapse as (L1 & col1 & HL1 & Hcount & Hcol1 & Hflag1).
    destruct (RestoreColumn_collapsed L1 i col1)
      as (L2 & col2 & HL2 & Hcol2 & _ & Hflag2); [lia | done | done |].
    exists L1, L2. split; [done|].
    rewrite (IsColumnCollapsed_at L1 i col1) by (done || lia).
    rewrite Hflag1. split; [done|]. split; [done|].
    assert (Hcount2 : m_cCount L2 = m_cCount L1).
    { unfold RestoreColumn in HL2.
      destruct (Z.ltb_spec i 0); [lia|].
      destruct (Z.leb_spec (m_cCount L1) i); [lia|]. cbn [orb] in HL2.
      rewrite (at_index_lookup _ _ col1) in HL2 by (lia || done).
      cbn [mbind behaviour_bind] in HL2. rewrite Hflag1 in HL2.
      cbn [negb] in HL2. by injection HL2 as <-. }
    rewrite (IsColumnCollapsed_at L2 i col2) by (done || lia).
    by rewrite Hflag2.
Qed.

(** X11. For a row and a column inside the grid, [GetCell] returns the
    cell stored at [row * m_cCount + column]; it makes the layout the
    parent of a cell that has none and leaves the store alone otherwise,
    so a second call changes nothing; and a cell adopted this way
    resolves a key it does not bind itself to the layout's value.  (The
    cell is no root controller, whose parent cannot be set, and neither
    the cell nor the layout is a widget that answers the key from its
    state.) *)
Theorem X11_GetCell_in_range_adopts_once
  (h : store) (this : IContextNode) (L : LayoutImpl)
  (r c : Z) (p : IContextNode) (nd : ContextNodeImpl) :
  0 <= r < m_rCount L ->
  0 <= c < m_cCount L ->
  m_rCount L * m_cCount L <= Int32.INT_MAX ->
  m_cells L !! Z.to_nat (r * m_cCount L + c) = Some (Some p) ->
  h !! p = Some nd ->
  let h' := match m_parent nd with
            | None => SetParentNode h p (Some this)
            | Some _ => h
            end in
  GetCell h this L r c = Returns (Some p, h')
  /\ GetCell h' this L r c = Returns (Some p, h')
  /\ (forall ndL key v def,
        m_parent nd = None -> p <> this ->
        h !! this = Some ndL ->
        derived nd <> OfController ->
        answers nd key = None -> answers ndL key = None ->
        m_properties nd !! key = None ->
        m_properties ndL !! key = Some v ->
        GetProperty 2 h' p key def = Some v).
Proof.
  intros Hr Hc Hfit Hcell Hp h'.
  assert (Hidx : Int32.add (Int32.mul r (m_cCount L)) c
                 = r * m_cCount L + c).
  { unfold Int32.add, Int32.mul, Int32.INT_MAX in *.
    rewrite !Int32Facts.wrap_in_range;
      unfold Int32.in_range, Int32.INT_MIN, Int32.INT_MAX;
      rewrite ?Int32Facts.wrap_in_range;
      unfold Int32.in_range, Int32.INT_MIN, Int32.INT_MAX; nia. }
  assert (Hat : at_index (m_cells L) (r * m_cCount L + c)
                = Returns (Some p))
    by (apply at_index_lookup; [nia | done]).
  split; [|split].
  - unfold GetCell. rewrite Hidx, Hat. cbn [mbind behaviour_bind].
    rewrite Hp. subst h'. by destruct (m_parent nd).
  - subst h'. destruct (m_parent nd) as [q|] eqn:Hparent;
      unfold GetCell; rewrite Hidx, Hat; cbn [mbind behaviour_bind].
    + by rewrite Hp, Hparent.
    + unfold SetParentNode at 1. rewrite lookup_alter_eq, Hp.
      cbn [fmap option_fmap option_map].
      destruct (derived nd) eqn:Hclass; cbn [m_parent]; try done.
      rewrite Hparent. do 2 f_equal. unfold SetParentNode.
      apply alter_id. intros x Hx.
      rewrite lookup_alter_eq, Hp in Hx.
      cbn [fmap option_fmap option_map] in Hx. rewrite Hclass in Hx.
      injection Hx as <-. by rewrite Hclass.
  - intros ndL key v def Hparent Hne HL Hclass Hans HansL Hkey Hv.
    subst h'.
    rewrite Hparent. unfold SetParentNode. cbn [GetProperty].
    rewrite lookup_alter_eq, Hp.
    cbn [fmap option_fmap option_map].
    assert (Hset : match derived nd with
                   | OfController => nd
                   | _ => {| m_parent := Some this;
                             m_properties := m_properties nd;
                             derived := derived nd |}
                   end
                   = {| m_parent := Some this;
                        m_properties := m_properties nd;
                        derived := derived nd |})
      by (by destruct (derived nd)).
    rewrite Hset. unfold answers at 1. unfold answers in Hans.
    cbn [m_properties m_parent derived].
    rewrite Hans, Hkey. rewrite lookup_alter_ne by done.
    by rewrite HL, HansL, Hv.
Qed.

(** X12. After [SetCellName(row, col, name)], [GetCell(name)] is
    [GetCell(row, col)], a later registration of the same name replacing
    an earlier one, and the lookup of every other name is as before. *)
Theorem X12_SetCellName_then_GetCell_by_name
  (h : store) (this : IContextNode) (L : LayoutImpl)
  (row col : Z) (name : string) :
  GetCell_name h this (SetCellName L row col name) name
  = GetCell h this L row col
  /\ (forall other,
        other <> name ->
        GetCell_name h this (SetCellName L row col name) other
        = GetCell_name h this L other).
Proof.
  split.
  - unfold GetCell_name, SetCellName. cbn [named_cells].
    by rewrite lookup_insert_eq.
  - intros other Hne. unfold GetCell_name, SetCellName. cbn [named_cells].
    by rewrite lookup_insert_ne.
Qed.

(** X13. The tracks of an axis are laid back to back: the first starts
    at the offset of the rectangle and each later one starts where the
    one before it ends, after that one's splitter when it has one (in
    32-bit arithmetic). *)
Theorem X13_tracks_are_contiguous
  (hwnd : HWND) (dims : list DimPlan) (total offset : Z) :
  (forall d, solve hwnd dims total offset !! 0%nat = Some d ->
             pos d = offset)
  /\ (forall i d d',
        solve hwnd dims total offset !! i = Some d ->
        solve hwnd dims total offset !! S i = Some d' ->
        pos d' = Int32.add (pos d)
                   (Int32.add (actual d)
                      (if splitter d then Scale hwnd SPLITTER_SIZE else 0))).
Proof.
  unfold solve.
  destruct (solve_fixed hwnd total (Scale hwnd SPLITTER_SIZE) dims total
              F32.zero) as [[dims1 avail] fw].
  split.
  - intros d. apply solve_pos_first.
  - intros i d d'. apply solve_pos_next.
Qed.
End WithPlatform.

Lemma X6_witness :
  exists d',
    @solve Samples.desktop 1 Samples.three_tracks 300 0 !! 1%nat = Some d'
    /\ 20 <= actual d'.
Proof.
  eexists. split; [vm_compute; reflexivity|].
  exact (@X6_solve_respects_minimums Samples.desktop 1 Samples.three_tracks
           300 0 1 _ _ eq_refl eq_refl).
Defined.

Lemma X8_witness :
  exists L1 col1,
    @CollapseColumn Samples.desktop Samples.grid3 1 = Returns L1
    /\ m_cols L1 !! 1%nat = Some col1
    /\ actual col1 = 20.
Proof.
  refine (@X8_collapsed_column_has_its_minimum_width Samples.desktop
            Samples.grid3 1 _ _ eq_refl eq_refl (or_introl eq_refl)).
  simpl. lia.
Defined.

Lemma X9_witness :
  exists L1 L2 col2,
    SetCol MoreSamples.grid3_collapsed 1 (Fixed (F32.of_int 120)) false
           (Fixed (F32.of_int 10)) 0 = Returns L1
    /\ @RestoreColumn Samples.desktop L1 1 = Returns L2
    /\ m_cols L2 !! 1%nat = Some col2
    /\ size col2 = FillW (F32.of_int 1)
    /\ min col2 = Fixed (F32.of_int 10).
Proof.
  refine (@X9_SetCol_on_collapsed_column_is_overridden Samples.desktop
            MoreSamples.grid3_collapsed 1 _ (Fixed (F32.of_int 120))
            (Fixed (F32.of_int 10)) false 0 _ eq_refl eq_refl).
  simpl. lia.
Defined.

Lemma X11_witness :
  GetCell Samples.grid2_nodes 10%positive Samples.grid2 1 1
  = Returns (Some 14%positive,
             SetParentNode Samples.grid2_nodes 14%positive
                           (Some 10%positive)).
Proof.
  refine (proj1 (X11_GetCell_in_range_adopts_once Samples.grid2_nodes
                   10%positive Samples.grid2 1 1 14%positive Samples.orphan
                   _ _ _ eq_refl eq_refl)).
  - simpl. lia.
  - simpl. lia.
  - vm_compute. discriminate.
Defined.

End LayoutOpsFacts.

(** ** More on command bars and the widgets of a cell *)

Module CellOpsFacts.

Import ContextNode Cell CellOps CellFacts StringFacts.

Section WithHost.
Context `{Platform} `{WidgetHost}.

Lemma measure_loop_all_visible hwnd ob A ws used v :
  0 <= GetDpiForWindow hwnd <= Int32.INT_MAX ->
  0 <= A <= Int32.INT_MAX ->
  0 <= used ->
  used + total_demand hwnd A (measured ob ws) + Scale hwnd 4 + Scale hwnd 40
    <= Int32.INT_MAX ->
  (measure_loop hwnd ob A true ws used v []).2 = []
  <-> (measured ob ws = []
       \/ used + total_demand hwnd A (measured ob ws) + Scale hwnd 40 <= A).
Proof.
  intros Hdpi HA.
  pose proof (Scale_bounds hwnd 4 Hdpi ltac:(lia)) as Hsp.
  pose proof (Scale_bounds hwnd 40 Hdpi ltac:(lia)) as Hbtn.
  revert used v. induction ws as [|w rest IH]; intros used v Hused Hsum.
  { split; [by left | done]. }
  unfold measured in *. rewrite filter_cons in *.
  destruct (decide (Some w = ob)) as [Heq|Hne].
  - rewrite decide_False in * by (intros Hc; by apply Hc).
    cbn [measure_loop]. rewrite decide_True by done. by apply IH.
  - rewrite decide_True in * by done. cbn [total_demand] in *.
    pose proof (widgetWidth_nonneg hwnd A w Hdpi) as Hw.
    pose proof (total_demand_nonneg hwnd A
                  (filter (fun w => Some w <> ob) rest) Hdpi) as Hrest.
    rewrite measure_loop_step by first [done | lia].
    destruct (Z.leb_spec (used + widgetWidth hwnd A w + Scale hwnd 4
                          + Scale hwnd 40) A) as [Hfit|Hno].
    + rewrite IH by lia. split.
      * intros [Hnil|Hle]; right; [rewrite Hnil; simpl|]; lia.
      * intros [Hnil|Hle]; [done|]. right. lia.
    + rewrite measure_loop_overflowing by done. cbn [snd app]. split.
      * done.
      * intros [Hnil|Hle]; [done|lia].
Qed.

(** X14. A command bar that may overflow shows all its widgets exactly
    when there are none, or when the widths they ask for, each followed
    by the spacing, fit in the available width together with the room
    of an overflow trigger: the room is asked for although no trigger
    is then shown. *)
Theorem X14_no_overflow_iff_demand_and_trigger_fit
  (cell : CellImpl) (A : Z) :
  0 <= GetDpiForWindow (m_hwnd cell) <= Int32.INT_MAX ->
  0 <= A <= Int32.INT_MAX ->
  total_demand (m_hwnd cell) A (measured (overflowButton cell) (widgets cell))
    + Scale (m_hwnd cell) 4 + Scale (m_hwnd cell) 40 <= Int32.INT_MAX ->
  (MeasureCommandBarWidgets cell A true).2 = []
  <-> (measured (overflowButton cell) (widgets cell) = []
       \/ total_demand (m_hwnd cell) A
            (measured (overflowButton cell) (widgets cell))
          + Scale (m_hwnd cell) 40 <= A).
Proof.
  intros Hdpi HA Hsum. unfold MeasureCommandBarWidgets.
  rewrite measure_loop_all_visible by first [done | lia].
  by rewrite Z.add_0_l.
Qed.

Lemma wrap_add_l a b : Int32.wrap (Int32.wrap a + b) = Int32.wrap (a + b).
Proof.
  unfold Int32.wrap.
  replace ((a + 2147483648) mod 4294967296 - 2147483648 + b + 2147483648)
    with ((a + 2147483648) mod 4294967296 + b) by lia.
  replace (a + b + 2147483648) with ((a + 2147483648) + b) by lia.
  by rewrite Zplus_mod_idemp_l.
Qed.

Lemma wrap_add_r a b : Int32.wrap (a + Int32.wrap b) = Int32.wrap (a + b).
Proof. by rewrite Z.add_comm, wrap_add_l, Z.add_comm. Qed.

Lemma auto_widths_cons_true wd l :
  auto_widths ((true, wd) :: l) = wd :: auto_widths l.
Proof. done. Qed.

Lemma auto_widths_cons_false wd l :
  auto_widths ((false, wd) :: l) = auto_widths l.
Proof. done. Qed.

Lemma fixed_widths_cons_true wd l :
  fixed_widths ((true, wd) :: l) = fixed_widths l.
Proof. done. Qed.

Lemma fixed_widths_cons_false wd l :
  fixed_widths ((false, wd) :: l) = wd :: fixed_widths l.
Proof. done. Qed.

Lemma sum_cons z l : sum (z :: l) = z + sum l.
Proof. done. Qed.

Lemma sum_replicate n z : sum (replicate n z) = Z.of_nat n * z.
Proof. induction n as [|n IH]; [done|]. cbn [replicate sum fold_right].
  fold (sum (replicate n z)). lia. Qed.

Lemma sum_app l1 l2 : sum (l1 ++ l2) = sum l1 + sum l2.
Proof. induction l1 as [|z l1 IH]; [done|]. cbn [app sum fold_right].
  fold (sum (l1 ++ l2)) (sum l1). lia. Qed.

(** The first [r] [auto] entries get one pixel more than the others; the
    other entries are left as they are. *)
Lemma share_remaining_spec cached q r total :
  0 <= q <= Int32.INT_MAX -> (r <> 0%nat -> q + 1 <= Int32.INT_MAX) ->
  (r <= length (auto_widths cached))%nat ->
  Z.of_nat r <= Int32.INT_MAX ->
  let out := share_remaining cached q (Z.of_nat r) total in
  map fst out.1 = map fst cached
  /\ fixed_widths out.1 = fixed_widths cached
  /\ auto_widths out.1
     = replicate r (q + 1)
       ++ replicate (length (auto_widths cached) - r) q
  /\ Int32.wrap out.2 = Int32.wrap (total + sum (auto_widths out.1)).
Proof.
  intros Hq. unfold Int32.INT_MAX in *.
  assert (Hr : forall z, -2147483648 <= z <= 2147483647 -> Int32.wrap z = z)
    by (intros z Hz; by apply Int32Facts.wrap_in_range).
  revert r total.
  induction cached as [|[[|] wd] rest IH]; intros r total Hq1 Hlen Hmax.
  - cbn in Hlen. assert (r = 0%nat) as -> by lia. cbn.
    repeat split. by rewrite Z.add_0_r.
  - rewrite auto_widths_cons_true in *. cbn [length] in Hlen.
    cbn [share_remaining]. destruct r as [|r].
    + change (0 <? Z.of_nat 0) with false. cbv iota.
      specialize (IH 0%nat (Int32.add total (Int32.add q 0))
                     ltac:(done) ltac:(lia) ltac:(lia)).
      change (Z.of_nat 0) with 0 in *.
      destruct (share_remaining rest q 0 _) as [shared t] eqn:Hs.
      cbn [fst snd] in *. destruct IH as (Hf & Hx & Ha & Ht).
      rewrite auto_widths_cons_true, fixed_widths_cons_true.
      cbn [map fst]. rewrite Hf, Hx, Ht, Ha.
      cbn [replicate app length]. rewrite !Nat.sub_0_r.
      unfold Int32.add. rewrite Z.add_0_r, (Hr q) by lia.
      repeat split. rewrite wrap_add_l, sum_cons. f_equal. lia.
    + assert (Hpos : (0 <? Z.of_nat (S r)) = true) by (apply Z.ltb_lt; lia).
      rewrite Hpos. cbv iota.
      assert (Hdec : Int32.sub (Z.of_nat (S r)) 1 = Z.of_nat r).
      { unfold Int32.sub. rewrite Hr by lia. lia. }
      rewrite Hdec.
      specialize (Hq1 ltac:(done)).
      specialize (IH r (Int32.add total (Int32.add q 1))
                     ltac:(lia) ltac:(lia) ltac:(lia)).
      destruct (share_remaining rest q (Z.of_nat r) _) as [shared t] eqn:Hs.
      cbn [fst snd] in *. destruct IH as (Hf & Hx & Ha & Ht).
      rewrite auto_widths_cons_true, fixed_widths_cons_true.
      cbn [map fst]. rewrite Hf, Hx, Ht, Ha.
      cbn [replicate app length]. rewrite Nat.sub_succ.
      unfold Int32.add. rewrite (Hr (q + 1)) by lia.
      repeat split. rewrite wrap_add_l, sum_cons. f_equal. lia.
  - rewrite auto_widths_cons_false in *.
    cbn [share_remaining].
    specialize (IH r total Hq1 Hlen Hmax).
    destruct (share_remaining rest q (Z.of_nat r) total) as [shared t] eqn:Hs.
    cbn [fst snd] in *. destruct IH as (Hf & Hx & Ha & Ht).
    rewrite auto_widths_cons_false, !fixed_widths_cons_false.
    cbn [map fst]. by rewrite Hf, Hx, Ht, Ha.
Qed.

Lemma wrap_is_in_range z : Int32.in_range (Int32.wrap z).
Proof.
  unfold Int32.in_range, Int32.INT_MIN, Int32.INT_MAX, Int32.wrap.
  pose proof (Z.mod_pos_bound (z + 2147483648) 4294967296). lia.
Qed.

Lemma share_remaining_in_range cached q r total :
  Int32.in_range total -> Int32.in_range (share_remaining cached q r total).2.
Proof.
  revert r total. induction cached as [|[[|] wd] rest IH]; intros r total Ht.
  - done.
  - cbn [share_remaining].
    match goal with |- context [share_remaining rest q ?r' ?t'] =>
      specialize (IH r' t' (wrap_is_in_range _));
      destruct (share_remaining rest q r' t') end.
    done.
  - cbn [share_remaining]. specialize (IH r total Ht).
    by destruct (share_remaining rest q r total).
Qed.

Lemma cache_widths_count hwnd pw vis t c cached t' c' :
  cache_widths hwnd pw vis t c = (cached, t', c') ->
  0 <= c -> c + Z.of_nat (length vis) <= Int32.INT_MAX ->
  Int32.in_range t ->
  c' = c + Z.of_nat (length (auto_widths cached))
  /\ Int32.in_range t'.
Proof.
  unfold Int32.INT_MAX.
  revert t c cached t' c'.
  induction vis as [|w rest IH]; intros t c cached t' c' Heq Hc Hlen Ht.
  - cbn in Heq. injection Heq as <- <- <-. cbn. split; [lia|done].
  - cbn [cache_widths length] in *.
    destruct (final_width hwnd pw w) as [[|] finalW].
    + destruct (cache_widths hwnd pw rest t (Int32.add c 1))
        as [[cached0 t0] c0] eqn:Hrec.
      injection Heq as <- <- <-.
      assert (Hc1 : Int32.add c 1 = c + 1).
      { apply Int32Facts.add_in_range.
        unfold Int32.in_range, Int32.INT_MIN, Int32.INT_MAX. lia. }
      rewrite Hc1 in Hrec.
      destruct (IH _ _ _ _ _ Hrec ltac:(lia) ltac:(lia) Ht) as [-> Hin].
      rewrite auto_widths_cons_true. cbn [length]. split; [lia|done].
    + destruct (cache_widths hwnd pw rest (Int32.add t finalW) c)
        as [[cached0 t0] c0] eqn:Hrec.
      injection Heq as <- <- <-.
      destruct (IH _ _ _ _ _ Hrec ltac:(lia) ltac:(lia)
                   (wrap_is_in_range _)) as [-> Hin].
      by rewrite auto_widths_cons_false.
Qed.

Lemma CommandBar_fixed_count hwnd pw vis ob cached total count :
  CommandBar_fixed hwnd pw vis ob = (cached, total, count) ->
  Z.of_nat (length vis) <= Int32.INT_MAX ->
  count = Z.of_nat (length (auto_widths cached))
  /\ Int32.in_range total.
Proof.
  unfold CommandBar_fixed. intros Heq Hlen.
  destruct (cache_widths hwnd pw vis 0 0) as [[cached0 t0] c0] eqn:Hrec.
  injection Heq as <- <- <-.
  destruct (cache_widths_count _ _ _ _ _ _ _ _ Hrec ltac:(lia) ltac:(lia))
    as [-> Hin].
  { unfold Int32.in_range, Int32.INT_MIN, Int32.INT_MAX. lia. }
  split; [lia|].
  destruct ob; [apply wrap_is_in_range|].
  destruct (bool_decide (vis = [])); [done|apply wrap_is_in_range].
Qed.

(** X15. When a command bar has [auto] widgets and space is left once
    the other widths, the spacing and the trigger are counted, that
    space is shared among the [auto] widgets to the last pixel: each
    gets the quotient, the leftmost ones one pixel more until the
    remainder is used up; the other widths stay as cached, and
    [totalUsedWidth] ends as the width of the bar. *)
Theorem X15_auto_widgets_share_the_remaining_space
  (hwnd : HWND) (parentWidth : Z) (visibleWidgets : list IWidget)
  (overflowButton : option IWidget)
  (cached : list (bool * Z)) (total count : Z) :
  CommandBar_fixed hwnd parentWidth visibleWidgets overflowButton
  = (cached, total, count) ->
  Z.of_nat (length visibleWidgets) <= Int32.INT_MAX ->
  Int32.in_range parentWidth ->
  0 < count ->
  0 < Int32.sub parentWidth total ->
  let remainingSpace := Int32.sub parentWidth total in
  let out :=
    CommandBar_widths hwnd parentWidth visibleWidgets overflowButton in
  count = Z.of_nat (length (auto_widths cached))
  /\ map fst out.1 = map fst cached
  /\ fixed_widths out.1 = fixed_widths cached
  /\ auto_widths out.1
     = replicate (Z.to_nat (remainingSpace mod count))
                 (remainingSpace / count + 1)
       ++ replicate (Z.to_nat (count - remainingSpace mod count))
                    (remainingSpace / count)
  /\ sum (auto_widths out.1) = remainingSpace
  /\ out.2 = parentWidth.
Proof.
  intros Hfixed Hlen Hpw Hcount Hrem remainingSpace out.
  destruct (CommandBar_fixed_count _ _ _ _ _ _ _ Hfixed Hlen)
    as [Hn Htotal].
  split; [done|].
  subst out. unfold CommandBar_widths. rewrite Hfixed.
  fold remainingSpace.
  rewrite (proj2 (Z.ltb_lt 0 count)) by done.
  rewrite (proj2 (Z.ltb_lt 0 remainingSpace)) by done. cbn [andb].
  pose proof (wrap_is_in_range (parentWidth - total)) as HR.
  fold (Int32.sub parentWidth total) in HR. fold remainingSpace in HR.
  unfold Int32.in_range, Int32.INT_MIN, Int32.INT_MAX in HR.
  rewrite Z.quot_div_nonneg, Z.rem_mod_nonneg by lia.
  pose proof (Z.mod_pos_bound remainingSpace count Hcount) as Hmod.
  pose proof (Z.div_pos remainingSpace count ltac:(lia) Hcount) as Hq0.
  pose proof (Z.div_mod remainingSpace count ltac:(lia)) as Hdm.
  assert (Hq1 : remainingSpace / count <= 2147483647)
    by (apply Z.div_le_upper_bound; nia).
  assert (Hq2 : remainingSpace mod count <> 0 ->
                remainingSpace / count + 1 <= 2147483647) by nia.
  pose proof (share_remaining_spec cached (remainingSpace / count)
                (Z.to_nat (remainingSpace mod count)) total) as Hspec.
  rewrite Z2Nat.id in Hspec by lia.
  destruct Hspec as (Hf & Hx & Ha & Ht).
  { unfold Int32.INT_MAX. lia. }
  { unfold Int32.INT_MAX. lia. }
  { lia. }
  { unfold Int32.INT_MAX. lia. }
  split; [done|]. split; [done|].
  assert (Hlen' : (length (auto_widths cached)
                   - Z.to_nat (remainingSpace mod count))%nat
                  = Z.to_nat (count - remainingSpace mod count)) by lia.
  rewrite Hlen' in Ha.
  assert (Hsum : sum (auto_widths
                   (share_remaining cached (remainingSpace / count)
                      (remainingSpace mod count) total).1)
                 = remainingSpace).
  { rewrite Ha, sum_app, !sum_replicate. rewrite !Z2Nat.id by lia. nia. }
  split; [done|]. split; [done|].
  assert (Hw : Int32.wrap (total + remainingSpace) = parentWidth).
  { unfold remainingSpace, Int32.sub. rewrite wrap_add_r.
    replace (total + (parentWidth - total)) with parentWidth by lia.
    by apply Int32Facts.wrap_in_range. }
  rewrite Hsum, Hw in Ht. rewrite <- Ht. symmetry.
  apply Int32Facts.wrap_in_range.
  by apply share_remaining_in_range.
Qed.

Lemma measure_loop_trigger_outside hwnd ob ob' A allow ws used v o :
  (forall b, ob = Some b -> b ∉ ws) ->
  (forall b, ob' = Some b -> b ∉ ws) ->
  measure_loop hwnd ob A allow ws used v o
  = measure_loop hwnd ob' A allow ws used v o.
Proof.
  revert used v o. induction ws as [|w rest IH]; intros used v o Hob Hob';
    [done|].
  cbn [measure_loop].
  rewrite (decide_False (P := Some w = ob))
    by (intros Heq; eapply Hob; [done | apply list_elem_of_here]).
  rewrite (decide_False (P := Some w = ob'))
    by (intros Heq; eapply Hob'; [done | apply list_elem_of_here]).
  assert (Hrest : forall b, ob = Some b -> b ∉ rest)
    by (intros b Hb Hin; eapply Hob; [done | by apply list_elem_of_further]).
  assert (Hrest' : forall b, ob' = Some b -> b ∉ rest)
    by (intros b Hb Hin; eapply Hob'; [done | by apply list_elem_of_further]).
  rewrite !(IH _ _ _ Hrest Hrest'). done.
Qed.

(** X16. [UpdateWidgets] settles: when the overflow trigger is not among
    the cell's widgets, running it again on its own result with nothing
    else changed gives that result again; and once the cell holds a
    trigger, no second one is ever made, whatever the factory would
    hand out. *)
Theorem X16_UpdateWidgets_settles
  (fuel : nat) (h : store) (this : IContextNode)
  (cell cell1 : CellImpl) (factory : option IWidget) :
  UpdateWidgets fuel h this cell factory = Some cell1 ->
  (forall b, overflowButton cell = Some b -> b ∉ widgets cell) ->
  (forall b, factory = Some b -> b ∉ widgets cell) ->
  UpdateWidgets fuel h this cell1 factory = Some cell1
  /\ (overflowButton cell1 <> None ->
      forall factory',
        UpdateWidgets fuel h this cell1 factory' = Some cell1).
Proof.
  unfold UpdateWidgets. intros Hrun Hob Hfac.
  destruct (Z.eqb_spec (m_hwnd cell) 0) as [Hz|Hnz].
  { injection Hrun as <-. rewrite (proj2 (Z.eqb_eq _ _) Hz). done. }
  destruct (nested cell) as [n|] eqn:Hnested.
  { injection Hrun as <-. rewrite (proj2 (Z.eqb_neq _ _) Hnz), Hnested.
    done. }
  destruct (bool_decide (widgets cell = [])) eqn:Hws.
  { injection Hrun as <-. rewrite (proj2 (Z.eqb_neq _ _) Hnz), Hnested, Hws.
    done. }
  destruct (m_mode cell) eqn:Hmode;
    try (injection Hrun as <-;
         rewrite (proj2 (Z.eqb_neq _ _) Hnz), Hnested, Hws, Hmode; done).
  unfold UpdateWidgets_CommandBar in *.
  destruct (GetProperty fuel h this "overflow" "") as [soverflow|];
    [|done].
  destruct (GetProperty fuel h this "align-items" "") as [align|]; [|done].
  destruct (GetProperty fuel h this "justify-content" "") as [justify|];
    [|done].
  cbn [mbind option_bind] in *.
  destruct (MeasureCommandBarWidgets cell (right (GetClientRect (m_hwnd cell)))
              (negb (String.eqb soverflow "false")))
    as [vis ov] eqn:Hm.
  cbn [mbind option_bind fst] in Hrun. injection Hrun as <-.
  cbn [with_overflow m_hwnd nested widgets m_mode overflowButton].
  rewrite (proj2 (Z.eqb_neq _ _) Hnz), Hnested, Hws, Hmode.
  set (button := if negb (bool_decide (ov = [])) then _ else None).
  assert (Hbutton : forall b, button = Some b -> b ∉ widgets cell).
  { intros b. subst button. destruct (bool_decide (ov = [])); [done|].
    cbn [negb]. destruct (overflowButton cell) as [b0|] eqn:Hb0.
    - intros [= <-]. by apply Hob.
    - unfold CreateOverflowButton. destruct (parentContainer cell); [|done].
      apply Hfac. }
  assert (Hm1 : forall allow,
            MeasureCommandBarWidgets (with_overflow cell ov button)
              (right (GetClientRect (m_hwnd cell))) allow
            = MeasureCommandBarWidgets cell
                (right (GetClientRect (m_hwnd cell))) allow).
  { intros allow. unfold MeasureCommandBarWidgets.
    cbn [with_overflow m_hwnd widgets overflowButton].
    by apply measure_loop_trigger_outside. }
  rewrite Hm1, Hm. cbn [mbind option_bind fst].
  unfold CreateOverflowButton.
  cbn [with_overflow parentContainer].
  split.
  - do 2 f_equal. subst button.
    destruct (bool_decide (ov = [])); [done|]. cbn [negb].
    destruct (overflowButton cell) as [b0|]; [done|].
    unfold CreateOverflowButton.
    by destruct (parentContainer cell), factory.
  - intros Hsome factory'. do 2 f_equal.
    destruct button as [b|] eqn:Hb; [|done].
    subst button. by destruct (bool_decide (ov = [])).
Qed.

Lemma erase_first_absent w ws : w ∉ ws -> erase_first w ws = ws.
Proof.
  induction ws as [|x rest IH]; [done|]. intros Hnot. cbn [erase_first].
  rewrite decide_False
    by (intros ->; apply Hnot, list_elem_of_here).
  f_equal. apply IH. intros Hin. by apply Hnot, list_elem_of_further.
Qed.

Lemma erase_first_app w ws tail :
  erase_first w (ws ++ tail)
  = if decide (w ∈ ws) then erase_first w ws ++ tail
    else ws ++ erase_first w tail.
Proof.
  induction ws as [|x rest IH].
  - by rewrite decide_False by apply not_elem_of_nil.
  - cbn [app erase_first]. destruct (decide (x = w)) as [->|Hne].
    + by rewrite decide_True by apply list_elem_of_here.
    + rewrite IH. destruct (decide (w ∈ rest)) as [Hin|Hnot].
      * by rewrite decide_True by (by apply list_elem_of_further).
      * rewrite decide_False; [done|].
        intros [Heq|Hin]%elem_of_cons; [by apply Hne | by apply Hnot].
Qed.

Lemma erase_first_length w ws :
  w ∈ ws -> S (length (erase_first w ws)) = length ws.
Proof.
  induction ws as [|x rest IH]; [by intros ?%elem_of_nil|].
  intros Hin. cbn [erase_first]. destruct (decide (x = w)) as [->|Hne];
    [done|].
  cbn [length]. f_equal. apply IH.
  apply elem_of_cons in Hin as [->|Hin]; [done|done].
Qed.

(** X18. [RemoveWidget] takes out one occurrence of the widget, the
    first, and [AddWidget] does not look for duplicates.  So removing a
    widget right after adding it gives back the list of widgets when
    the widget was new to the cell; when the cell had it already, the
    cell still has it afterwards, the earlier occurrence being the one
    that went. *)
Theorem X18_RemoveWidget_after_AddWidget (cell : CellImpl) (w : IWidget) :
  let added := (AddWidget cell (Some w)).2 in
  widgets (RemoveWidget added w)
  = (if decide (w ∈ widgets cell)
     then erase_first w (widgets cell) ++ [w]
     else widgets cell)
  /\ length (widgets (RemoveWidget added w)) = length (widgets cell)
  /\ (w ∈ widgets cell -> w ∈ widgets (RemoveWidget added w)).
Proof.
  cbn [AddWidget snd RemoveWidget with_widgets widgets].
  rewrite erase_first_app.
  destruct (decide (w ∈ widgets cell)) as [Hin|Hnot].
  - split; [done|]. split.
    + rewrite length_app. cbn [length].
      pose proof (erase_first_length w _ Hin). lia.
    + intros _. apply elem_of_app. right. apply list_elem_of_here.
  - cbn [erase_first]. rewrite decide_True by done.
    rewrite app_nil_r. done.
Qed.

(** X19. [GetWidget] checks its index: after [AddWidget] the new widget
    is found at the index that was the number of widgets, the widgets
    before it are found where they were, and an index outside the list
    gives no widget. *)
Theorem X19_GetWidget_after_AddWidget
  (cell : CellImpl) (w : IWidget) (idx : Z) :
  Z.of_nat (length (widgets cell)) < Int32.INT_MAX ->
  let added := (AddWidget cell (Some w)).2 in
  GetWidget added (Z.of_nat (length (widgets cell))) = Some w
  /\ (0 <= idx < Z.of_nat (length (widgets cell)) ->
      GetWidget added idx = GetWidget cell idx
      /\ GetWidget cell idx <> None)
  /\ (idx < 0 \/ Z.of_nat (length (widgets cell)) < idx ->
      GetWidget added idx = None)
  /\ (AddWidget cell None).2 = cell.
Proof.
  unfold Int32.INT_MAX. intros Hlen.
  cbn [AddWidget snd]. unfold GetWidget.
  cbn [with_widgets widgets]. rewrite length_app. cbn [length].
  rewrite !Int32Facts.wrap_in_range
    by (unfold Int32.in_range, Int32.INT_MIN, Int32.INT_MAX; lia).
  split; [|split; [|split]].
  - destruct (Z.ltb_spec (Z.of_nat (length (widgets cell))) 0); [lia|].
    destruct (Z.leb_spec (Z.of_nat (length (widgets cell) + 1))
                (Z.of_nat (length (widgets cell)))); [lia|].
    cbn [orb]. rewrite Nat2Z.id.
    rewrite lookup_app_r by done. by rewrite Nat.sub_diag.
  - intros Hidx.
    destruct (Z.ltb_spec idx 0); [lia|].
    destruct (Z.leb_spec (Z.of_nat (length (widgets cell) + 1)) idx); [lia|].
    destruct (Z.leb_spec (Z.of_nat (length (widgets cell))) idx); [lia|].
    cbn [orb]. rewrite lookup_app_l by lia. split; [done|].
    destruct (lookup_lt_is_Some_2 (widgets cell) (Z.to_nat idx)
                ltac:(lia)) as [x ->]. done.
  - intros [Hneg|Hbig].
    + by rewrite (proj2 (Z.ltb_lt _ _) Hneg).
    + destruct (Z.ltb_spec idx 0); [done|].
      destruct (Z.leb_spec (Z.of_nat (length (widgets cell) + 1)) idx);
        [done|lia].
  - done.
Qed.

Lemma eqb_append_empty s t : t <> "" -> String.eqb (s +:+ t) "" = false.
Proof.
  intros Ht. apply String.eqb_neq. intros Heq.
  apply (f_equal String.length) in Heq. rewrite length_append in Heq.
  destruct t; [done|]. cbn in Heq. lia.
Qed.

Lemma back_append s c t :
  back (s +:+ String c t) = back (String c t).
Proof.
  unfold back. rewrite length_append.
  replace (String.length s + String.length (String c t) - 1)%nat
    with (String.length s + (String.length (String c t) - 1))%nat
    by (cbn [String.length]; lia).
  apply get_append_r.
Qed.

Lemma eqb_append_auto s c t :
  back (String c t) <> Some "o"%char ->
  String.eqb (s +:+ String c t) "auto" = false.
Proof.
  intros Hb. apply String.eqb_neq. intros Heq. apply Hb.
  rewrite <- (back_append s), Heq. done.
Qed.

(** X17. [ParseCssDimension] reads a non-empty text followed by [px] or
    by [lu] the same way, as that many pixels at 96 dpi scaled to the
    window's dpi, and a non-empty text followed by [%] as that
    percentage of the reference size; in each case the answer is [-1]
    when the text is no number. *)
Theorem X17_ParseCssDimension_units (hwnd : HWND) (s : string) (ref : Z) :
  s <> "" ->
  ParseCssDimension hwnd (s +:+ "px") ref
  = match stof s with
    | Some fVal => Scale hwnd (F32.to_int fVal)
    | None => -1
    end
  /\ ParseCssDimension hwnd (s +:+ "lu") ref
     = ParseCssDimension hwnd (s +:+ "px") ref
  /\ ParseCssDimension hwnd (s +:+ "%") ref
     = match stof s with
       | Some fVal =>
           F32.to_int (F32.mul (F32.of_int ref) (F32.div fVal F32.hundred))
       | None => -1
       end.
Proof.
  intros Hs.
  assert (Hlen : (0 < String.length s)%nat) by (destruct s; [done|cbn; lia]).
  assert (Hunit : forall a b : ascii,
            b <> "%"%char -> b <> "o"%char ->
            (String.eqb (String a (String b "")) "px"
             || String.eqb (String a (String b "")) "lu") = true ->
            ParseCssDimension hwnd (s +:+ String a (String b "")) ref
            = match stof s with
              | Some fVal => Scale hwnd (F32.to_int fVal)
              | None => -1
              end).
  { intros a b Hpc Ho Hsuf. unfold ParseCssDimension.
    rewrite eqb_append_empty by done.
    rewrite eqb_append_auto by (cbn; congruence).
    rewrite back_append.
    rewrite decide_False by (cbn; congruence).
    rewrite length_append. cbn [String.length].
    rewrite (proj2 (Nat.ltb_lt _ _)) by lia.
    unfold suffix2, drop_suffix2. rewrite length_append.
    cbn [String.length].
    replace (String.length s + 2 - 2)%nat with (String.length s) by lia.
    pose proof (substring_append_r s (String a (String b ""))) as Htail.
    cbn [String.length] in Htail. rewrite Htail, Hsuf.
    by rewrite substring_append_l. }
  split; [by apply Hunit|]. split.
  { rewrite !Hunit; done. }
  unfold ParseCssDimension.
  rewrite eqb_append_empty by done.
  rewrite eqb_append_auto by (cbn; congruence).
  rewrite back_append.
  rewrite decide_True by done.
  unfold pop_back. rewrite length_append. cbn [String.length].
  replace (String.length s + 1 - 1)%nat with (String.length s) by lia.
  by rewrite substring_append_l.
Qed.
End WithHost.

Lemma X14_witness :
  (@MeasureCommandBarWidgets Samples.desktop Samples.buttons
     Samples.toolbar 300 true).2 = []
  <-> ([21; 22; 23; 24; 25]%positive = []
       \/ @total_demand Samples.desktop Samples.buttons 1 300
            [21; 22; 23; 24; 25]%positive
          + @Scale Samples.desktop 1 40 <= 300).
Proof.
  apply (@X14_no_overflow_iff_demand_and_trigger_fit Samples.desktop
           Samples.buttons Samples.toolbar 300).
  - simpl. unfold Int32.INT_MAX. lia.
  - unfold Int32.INT_MAX. lia.
  - vm_compute. discriminate.
Defined.

Lemma X15_witness :
  let out :=
    @CommandBar_widths Samples.desktop MoreSamples.mixed 1 301
      [21; 22; 23]%positive None in
  auto_widths out.1 = [110; 109] /\ sum (auto_widths out.1) = 219
  /\ out.2 = 301.
Proof.
  destruct (@X15_auto_widgets_share_the_remaining_space Samples.desktop
              MoreSamples.mixed 1 301 [21; 22; 23]%positive None
              [(false, 80); (true, 0); (true, 0)] 82 2)
    as (_ & _ & _ & Ha & Hs & Ht).
  - reflexivity.
  - simpl. unfold Int32.INT_MAX. lia.
  - unfold Int32.in_range, Int32.INT_MIN, Int32.INT_MAX. lia.
  - lia.
  - reflexivity.
  - split; [exact Ha | split; [exact Hs | exact Ht]].
Defined.

Lemma X16_witness :
  let settled :=
    with_overflow Samples.toolbar [24; 25]%positive (Some 29%positive) in
  @UpdateWidgets Samples.desktop Samples.buttons 2 Samples.toolbar_nodes
    1%positive settled (Some 30%positive) = Some settled.
Proof.
  refine (proj1 (@X16_UpdateWidgets_settles Samples.desktop Samples.buttons
                   2 Samples.toolbar_nodes 1%positive Samples.toolbar _
                   (Some 30%positive) eq_refl _ _)).
  - intros b [= <-]. by apply (bool_decide_unpack _).
  - intros b [= <-]. by apply (bool_decide_unpack _).
Defined.

Lemma X17_witness :
  @ParseCssDimension Samples.desktop 1 ("80" +:+ "px") 300 = 80
  /\ @ParseCssDimension Samples.desktop 1 ("80" +:+ "lu") 300
     = @ParseCssDimension Samples.desktop 1 ("80" +:+ "px") 300
  /\ @ParseCssDimension Samples.desktop 1 ("80" +:+ "%") 300 = 240.
Proof.
  destruct (@X17_ParseCssDimension_units Samples.desktop 1 "80" 300)
    as (Hpx & Hlu & Hpc); [done|].
  split; [exact Hpx | split; [exact Hlu | exact Hpc]].
Defined.

Lemma X19_witness :
  GetWidget (AddWidget Samples.toolbar (Some 26%positive)).2 5
  = Some 26%positive.
Proof.
  refine (proj1 (X19_GetWidget_after_AddWidget Samples.toolbar 26%positive
                   0 _)).
  simpl. unfold Int32.INT_MAX. lia.
Defined.

End CellOpsFacts.

(** ** Style classes *)

Module StyleManagerFacts.

Import ContextNode StyleManager StringFacts ContextNodeFacts.

(** *** [Trim] *)

Lemma find_last_after_first str i :
  find_first_not_of str = Some i ->
  exists j, find_last_not_of str = Some j /\ (i <= j)%nat.
Proof.
  revert i. induction str as [|c rest IH]; intros i; [done|].
  cbn [find_first_not_of find_last_not_of].
  destruct (is_space c) eqn:Hc.
  - destruct (find_first_not_of rest) as [i'|]; [|done].
    intros [= <-]. destruct (IH i' eq_refl) as (j' & -> & Hle).
    exists (S j'). split; [done|lia].
  - intros [= <-]. destruct (find_last_not_of rest) as [j'|].
    + exists (S j'). split; [done|lia].
    + by exists 0%nat.
Qed.

Lemma find_last_prefix str j :
  find_last_not_of str = Some j ->
  find_last_not_of (String.substring 0 (j + 1) str) = Some j.
Proof.
  revert j. induction str as [|c rest IH]; intros j; [done|].
  cbn [find_last_not_of].
  destruct (find_last_not_of rest) as [j'|] eqn:Hrest.
  - intros [= <-]. cbn [Nat.add String.substring find_last_not_of].
    by rewrite (IH j' eq_refl).
  - destruct (is_space c) eqn:Hc; [done|]. intros [= <-].
    cbn [Nat.add String.substring find_last_not_of].
    destruct rest; cbn; by rewrite Hc.
Qed.

Lemma substring_0_length str j :
  find_last_not_of str = Some j ->
  String.length (String.substring 0 (j + 1) str) = (j + 1)%nat.
Proof.
  revert j. induction str as [|c rest IH]; intros j; [done|].
  cbn [find_last_not_of].
  destruct (find_last_not_of rest) as [j'|] eqn:Hrest.
  - intros [= <-]. cbn [Nat.add String.substring String.length].
    by rewrite (IH j' eq_refl).
  - destruct (is_space c) eqn:Hc; [done|]. intros [= <-].
    cbn [Nat.add String.substring String.length]. by destruct rest.
Qed.

(** What [Trim] cuts out starts and ends with a character that is not
    a space, and [Trim] leaves such a text alone. *)
Lemma Trim_cut str i j :
  find_first_not_of str = Some i -> find_last_not_of str = Some j ->
  let t := String.substring i (j - i + 1) str in
  find_first_not_of t = Some 0%nat
  /\ find_last_not_of t = Some (j - i)%nat
  /\ String.length t = (j - i + 1)%nat.
Proof.
  revert i j. induction str as [|c rest IH]; intros i j; [done|].
  cbn [find_first_not_of].
  destruct (is_space c) eqn:Hc.
  - destruct (find_first_not_of rest) as [i'|] eqn:Hfirst; [|done].
    intros [= <-] Hlast.
    destruct (find_last_after_first _ _ Hfirst) as (j' & Hj' & Hle).
    cbn [find_last_not_of] in Hlast. rewrite Hj' in Hlast.
    injection Hlast as <-.
    cbn [String.substring].
    replace (S j' - S i' + 1)%nat with (j' - i' + 1)%nat by lia.
    replace (S j' - S i')%nat with (j' - i')%nat by lia.
    by apply IH.
  - intros [= <-] Hlast. rewrite Nat.sub_0_r. cbv zeta.
    split; [|split].
    + replace (j + 1)%nat with (S j) by lia.
      cbn [String.substring find_first_not_of]. by rewrite Hc.
    + by apply find_last_prefix.
    + by apply substring_0_length.
Qed.

Lemma Trim_idempotent str : Trim (Trim str) = Trim str.
Proof.
  unfold Trim at 2 3.
  destruct (find_first_not_of str) as [i|] eqn:Hfirst.
  - destruct (find_last_after_first _ _ Hfirst) as (j & Hlast & Hle).
    rewrite Hlast.
    destruct (Trim_cut _ _ _ Hfirst Hlast) as (Hf & Hl & Hlen).
    set (t := String.substring i (j - i + 1) str) in *.
    unfold Trim. rewrite Hf, Hl. rewrite Nat.sub_0_r, <- Hlen.
    apply substring_all.
  - unfold Trim. by rewrite Hfirst.
Qed.

Lemma Trim_chars str c : c ∈ chars (Trim str) -> c ∈ chars str.
Proof.
  unfold Trim. destruct (find_first_not_of str) as [i|]; [|done].
  destruct (find_last_not_of str) as [j|].
  - rewrite chars_substring. intros Hin.
    eapply elem_of_sublist; [done|].
    etransitivity; [apply sublist_take | apply sublist_drop].
  - destruct i; [by intros ?%elem_of_nil|].
    rewrite chars_substring. intros Hin.
    eapply elem_of_sublist; [done|].
    etransitivity; [apply sublist_take | apply sublist_drop].
Qed.

(** *** [Split] *)

Lemma Split_fold raw acc :
  fold_left
    (fun tokens token =>
       let trimmed := Trim token in
       if negb (String.eqb trimmed EmptyString) then tokens ++ [trimmed]
       else tokens) raw acc
  = acc ++ kept raw.
Proof.
  unfold kept. revert acc. induction raw as [|t l IH]; intros acc.
  - by rewrite app_nil_r.
  - cbn [fold_left]. rewrite fmap_cons, filter_cons, IH.
    destruct (String.eqb_spec (Trim t) EmptyString) as [Heq|Hne].
    + by rewrite decide_False by (by intros Hc).
    + rewrite decide_True by done. cbn [negb]. by rewrite <- app_assoc.
Qed.

Lemma Split_kept str delimiter :
  Split str delimiter
  = kept (getlines delimiter str EmptyString false).
Proof. unfold Split. by rewrite Split_fold. Qed.

Lemma getlines_chars delimiter stream tok extracted t :
  t ∈ getlines delimiter stream tok extracted ->
  delimiter ∉ chars tok -> delimiter ∉ chars t.
Proof.
  revert tok extracted. induction stream as [|c rest IH];
    intros tok extracted.
  - cbn [getlines]. destruct extracted.
    + by intros ->%list_elem_of_singleton.
    + by intros ?%elem_of_nil.
  - cbn [getlines]. destruct (Ascii.eqb_spec c delimiter) as [->|Hne].
    + intros [->|Hin]%elem_of_cons Htok; [done|].
      eapply IH; [done|]. apply not_elem_of_nil.
    + intros Hin Htok. eapply IH; [done|].
      rewrite chars_append. cbn.
      intros [Hc|Hc]%elem_of_app; [done|].
      apply list_elem_of_singleton in Hc. by apply Hne.
Qed.

(** Every token [Split] returns is not empty, is left alone by [Trim]
    and has no delimiter in it. *)
Lemma Split_tokens str delimiter t :
  t ∈ Split str delimiter ->
  t <> EmptyString /\ Trim t = t /\ delimiter ∉ chars t.
Proof.
  rewrite Split_kept. unfold kept.
  intros [Hne (raw & -> & Hraw)%list_elem_of_fmap]%list_elem_of_filter.
  split; [done|]. split; [apply Trim_idempotent|].
  intros Hin%Trim_chars. revert Hin.
  eapply getlines_chars; [done|]. apply not_elem_of_nil.
Qed.

Lemma kept_app l1 l2 : kept (l1 ++ l2) = kept l1 ++ kept l2.
Proof. unfold kept. by rewrite fmap_app, filter_app. Qed.

Lemma kept_cons t l : kept (t :: l) = kept [t] ++ kept l.
Proof. apply (kept_app [t]). Qed.

Lemma kept_cons_empty l : kept (EmptyString :: l) = kept l.
Proof. unfold kept. rewrite fmap_cons, filter_cons.
  by rewrite decide_False by (by intros Hc). Qed.

Lemma getlines_extracted delimiter stream :
  kept (getlines delimiter stream EmptyString true)
  = kept (getlines delimiter stream EmptyString false).
Proof. by destruct stream. Qed.

Lemma getlines_append delimiter a b tok extracted :
  kept (getlines delimiter (a +:+ String delimiter b) tok extracted)
  = kept (getlines delimiter a tok true)
    ++ kept (getlines delimiter b EmptyString false).
Proof.
  revert tok extracted. induction a as [|c a IH]; intros tok extracted.
  - change (EmptyString +:+ String delimiter b) with (String delimiter b).
    cbn [getlines]. rewrite Ascii.eqb_refl.
    by rewrite (kept_cons tok (getlines _ _ _ _)).
  - change (String c a +:+ String delimiter b)
      with (String c (a +:+ String delimiter b)).
    cbn [getlines]. destruct (Ascii.eqb c delimiter).
    + rewrite (kept_cons tok (getlines delimiter (a +:+ _) _ _)).
      rewrite (kept_cons tok (getlines delimiter a _ _)).
      rewrite IH, getlines_extracted. by rewrite <- app_assoc.
    + apply IH.
Qed.

Lemma getlines_plain delimiter t tok :
  delimiter ∉ chars t ->
  getlines delimiter t tok true = [tok +:+ t].
Proof.
  revert tok. induction t as [|c t IH]; intros tok Hd.
  - cbn. by rewrite append_nil_r.
  - cbn [getlines]. cbn in Hd. apply not_elem_of_cons in Hd as [Hc Hd].
    rewrite (proj2 (Ascii.eqb_neq c delimiter)) by done.
    rewrite IH by done. by rewrite append_assoc.
Qed.

Lemma Split_append a b delimiter :
  Split (a +:+ String delimiter b) delimiter
  = Split a delimiter ++ Split b delimiter.
Proof.
  rewrite !Split_kept, getlines_append. by rewrite getlines_extracted.
Qed.

Lemma Split_one t delimiter :
  t <> EmptyString -> Trim t = t -> delimiter ∉ chars t ->
  Split t delimiter = [t].
Proof.
  intros Hne Htrim Hd. rewrite Split_kept.
  assert (Hraw : getlines delimiter t EmptyString false = [t]).
  { destruct t as [|c t]; [done|]. cbn [getlines].
    cbn in Hd. apply not_elem_of_cons in Hd as [Hc Hd].
    rewrite (proj2 (Ascii.eqb_neq c delimiter)) by done.
    by rewrite getlines_plain. }
  rewrite Hraw. unfold kept. cbn [fmap list_fmap].
  rewrite filter_cons, Htrim. by rewrite decide_True.
Qed.

Lemma join_snoc classes c :
  join (classes ++ [c])
  = (if String.eqb (join classes) EmptyString then join classes
     else join classes +:+ " ") +:+ c.
Proof. unfold join. by rewrite fold_left_app. Qed.

(** Splitting the text [AddClass] and [RemoveClass] store gives back the
    classes it was built from. *)
Lemma Split_join classes :
  Forall token classes -> Split (join classes) " " = classes.
Proof.
  induction classes as [|c classes IH] using rev_ind; [done|].
  intros [Hall (Hne & Htrim & Hsp)%Forall_singleton]%Forall_app.
  rewrite join_snoc. destruct (String.eqb_spec (join classes) EmptyString)
    as [Hempty|Hfull].
  - rewrite Hempty in *. specialize (IH Hall).
    change (Split EmptyString " ") with (@nil string) in IH. subst classes.
    by apply Split_one.
  - rewrite append_assoc.
    change (" " +:+ c) with (String " " c).
    rewrite Split_append, (IH Hall). by rewrite Split_one.
Qed.

(** *** The set of classes *)

Lemma set_insert_elem x t s : x ∈ set_insert t s <-> x = t \/ x ∈ s.
Proof.
  induction s as [|y rest IH]; cbn [set_insert].
  - rewrite list_elem_of_singleton, elem_of_nil. tauto.
  - destruct (String.eqb_spec t y) as [->|Hne].
    + rewrite elem_of_cons. tauto.
    + destruct (String.ltb t y).
      * rewrite elem_of_cons. tauto.
      * rewrite !elem_of_cons, IH. tauto.
Qed.

Lemma existsb_eqb t l :
  existsb (fun x => String.eqb x t) l = bool_decide (t ∈ l).
Proof.
  induction l as [|y rest IH]; [done|]. cbn [existsb]. rewrite IH.
  destruct (String.eqb_spec y t) as [->|Hne].
  - symmetry. apply bool_decide_eq_true_2, list_elem_of_here.
  - apply bool_decide_ext. rewrite elem_of_cons.
    split; [tauto|]. by intros [->|Hin].
Qed.

Lemma set_find_elem t s : set_find t s = bool_decide (t ∈ s).
Proof.
  unfold set_find. rewrite <- existsb_eqb. induction s as [|y rest IH];
    [done|].
  cbn [existsb]. by rewrite IH, String.eqb_sym.
Qed.

Lemma set_erase_elem x t s : x ∈ set_erase t s <-> x ∈ s /\ x <> t.
Proof. unfold set_erase. rewrite list_elem_of_filter. tauto. Qed.

Lemma set_erase_absent t s : t ∉ s -> set_erase t s = s.
Proof.
  unfold set_erase. induction s as [|y rest IH]; [done|]. intros Hnot.
  rewrite filter_cons, decide_True
    by (intros ->; apply Hnot, list_elem_of_here).
  f_equal. apply IH. intros Hin. by apply Hnot, list_elem_of_further.
Qed.

Lemma insert_all_elem x tokens s :
  x ∈ fold_left (fun classes t => set_insert t classes) tokens s
  <-> x ∈ tokens \/ x ∈ s.
Proof.
  revert s. induction tokens as [|t tokens IH]; intros s; cbn [fold_left].
  - rewrite elem_of_nil. tauto.
  - rewrite IH, set_insert_elem, elem_of_cons. tauto.
Qed.

Lemma existing_classes_elem x cur :
  x ∈ existing_classes cur <-> x ∈ Split cur " ".
Proof.
  unfold existing_classes. rewrite insert_all_elem, elem_of_nil. tauto.
Qed.

(** The loop of [AddClass] over the new tokens. *)
Lemma add_loop tokens classes changed :
  let out :=
    fold_left
      (fun '(classes, changed) t =>
         if set_find t classes then (classes, changed)
         else (set_insert t classes, true))
      tokens (classes, changed) in
  (forall x, x ∈ out.1 <-> x ∈ tokens \/ x ∈ classes)
  /\ (out.2 = false ->
      changed = false /\ out.1 = classes
      /\ forall t, t ∈ tokens -> t ∈ classes)
  /\ ((forall t, t ∈ tokens -> t ∈ classes) -> out = (classes, changed)).
Proof.
  revert classes changed. induction tokens as [|t tokens IH];
    intros classes changed; cbn [fold_left].
  - split; [intros x; rewrite elem_of_nil; tauto|]. split; [|done].
    intros Hc. split; [done|]. split; [done|]. by intros t ?%elem_of_nil.
  - rewrite set_find_elem. destruct (bool_decide_reflect (t ∈ classes))
      as [Hin|Hnot].
    + destruct (IH classes changed) as (Helem & Hsame & Hnone).
      split; [|split].
      * intros x. rewrite Helem, elem_of_cons.
        split; [tauto|]. intros [[->|?]|?]; tauto.
      * intros Hc. destruct (Hsame Hc) as (? & ? & Hall).
        split; [done|]. split; [done|].
        intros t' [->|?]%elem_of_cons; [done|by apply Hall].
      * intros Hall. apply Hnone. intros t' Ht'.
        by apply Hall, list_elem_of_further.
    + destruct (IH (set_insert t classes) true) as (Helem & Hsame & _).
      split; [|split].
      * intros x. rewrite Helem, set_insert_elem, elem_of_cons. tauto.
      * intros Hc. by destruct (Hsame Hc) as (? & _).
      * intros Hall. exfalso. apply Hnot, Hall, list_elem_of_here.
Qed.

(** The loop of [RemoveClass] over the tokens to remove. *)
Lemma remove_loop tokens classes changed :
  let out :=
    fold_left
      (fun '(classes, changed) t =>
         let erased := set_find t classes in
         (set_erase t classes, changed || erased))
      tokens (classes, changed) in
  (forall x, x ∈ out.1 <-> x ∈ classes /\ x ∉ tokens)
  /\ (out.2 = false ->
      changed = false /\ out.1 = classes
      /\ forall t, t ∈ tokens -> t ∉ classes)
  /\ ((forall t, t ∈ tokens -> t ∉ classes) -> out = (classes, changed)).
Proof.
  revert classes changed. induction tokens as [|t tokens IH];
    intros classes changed; cbn [fold_left].
  - split; [intros x; rewrite elem_of_nil; tauto|]. split; [|done].
    intros Hc. split; [done|]. split; [done|]. by intros t ?%elem_of_nil.
  - cbv zeta. rewrite set_find_elem.
    destruct (IH (set_erase t classes)
                 (changed || bool_decide (t ∈ classes)))
      as (Helem & Hsame & Hnone).
    split; [|split].
    + intros x. rewrite Helem, set_erase_elem, not_elem_of_cons. tauto.
    + intros Hc. destruct (Hsame Hc) as (Hch & Hout & Hall).
      apply orb_false_iff in Hch as [-> Hnot].
      apply bool_decide_eq_false in Hnot.
      rewrite set_erase_absent in Hout, Hall by done.
      rewrite set_erase_absent by done.
      split; [done|]. split; [done|].
      intros t' [->|?]%elem_of_cons; [done|by apply Hall].
    + intros Hall.
      assert (Hnot : t ∉ classes) by apply Hall, list_elem_of_here.
      rewrite set_erase_absent in Hnone |- * by done.
      rewrite (bool_decide_eq_false_2 _ Hnot), orb_false_r in Hnone |- *.
      apply Hnone. intros t' Ht'. by apply Hall, list_elem_of_further.
Qed.

(** *** The order of the set *)

Lemma compare_trans a b c :
  String.compare a b = Lt -> String.compare b c = Lt ->
  String.compare a c = Lt.
Proof.
  revert b c. induction a as [|x a IH]; intros [|y b] [|z c]; cbn;
    try done.
  unfold Ascii.compare.
  destruct (N.compare_spec (N_of_ascii x) (N_of_ascii y)) as [Hxy|Hxy|Hxy];
    destruct (N.compare_spec (N_of_ascii y) (N_of_ascii z)) as [Hyz|Hyz|Hyz];
    destruct (N.compare_spec (N_of_ascii x) (N_of_ascii z)) as [Hxz|Hxz|Hxz];
    try done; try lia.
  apply IH.
Qed.

Lemma ltb_trans a b c :
  String.ltb a b = true -> String.ltb b c = true -> String.ltb a c = true.
Proof.
  unfold String.ltb. intros Hab Hbc.
  rewrite (compare_trans a b c); [done| |].
  - by destruct (String.compare a b).
  - by destruct (String.compare b c).
Qed.

Lemma ltb_total a b :
  String.ltb a b = false -> a <> b -> String.ltb b a = true.
Proof.
  unfold String.ltb. intros Hab Hne.
  rewrite (String.compare_antisym b a).
  destruct (String.compare a b) eqn:Hc; [|done|done].
  by apply String.compare_eq_iff in Hc.
Qed.

Lemma set_insert_ascending t s : ascending s -> ascending (set_insert t s).
Proof.
  induction s as [|x rest IH]; [done|]. intros [Hx Hrest].
  cbn [set_insert]. destruct (String.eqb_spec t x) as [->|Hne]; [done|].
  destruct (String.ltb t x) eqn:Hlt.
  - split; [|done]. constructor; [done|].
    eapply Forall_impl; [done|]. intros y Hy. by eapply ltb_trans.
  - split; [|by apply IH].
    apply Forall_forall. intros y [->|Hy]%set_insert_elem.
    + by apply ltb_total.
    + by eapply Forall_forall in Hx.
Qed.

Lemma existing_classes_ascending cur : ascending (existing_classes cur).
Proof.
  unfold existing_classes.
  assert (Hgen : forall tokens s, ascending s ->
            ascending (fold_left (fun classes t => set_insert t classes)
                                 tokens s)).
  { induction tokens as [|t tokens IH]; intros s Hs; [done|].
    cbn [fold_left]. by apply IH, set_insert_ascending. }
  by apply Hgen.
Qed.

Lemma add_loop_ascending tokens classes changed :
  ascending classes ->
  ascending
    (fold_left
       (fun '(classes, changed) t =>
          if set_find t classes then (classes, changed)
          else (set_insert t classes, true))
       tokens (classes, changed)).1.
Proof.
  revert classes changed. induction tokens as [|t tokens IH];
    intros classes changed Hasc; [done|].
  cbn [fold_left]. destruct (set_find t classes); [by apply IH|].
  by apply IH, set_insert_ascending.
Qed.

Lemma ascending_split b l :
  ascending l -> b ∈ l ->
  exists before after,
    l = before ++ b :: after
    /\ forall x, x ∈ after -> String.ltb b x = true.
Proof.
  induction l as [|y rest IH]; [by intros _ ?%elem_of_nil|].
  intros [Hy Hrest] [->|Hin]%elem_of_cons.
  - exists [], rest. split; [done|].
    intros x Hx. by eapply Forall_forall in Hy.
  - destruct (IH Hrest Hin) as (before & after & -> & Hafter).
    by exists (y :: before), after.
Qed.

(** *** Applying rules *)

Lemma only_at_refl node h : only_at node h h.
Proof. by split. Qed.

Lemma only_at_trans node h1 h2 h3 :
  only_at node h1 h2 -> only_at node h2 h3 -> only_at node h1 h3.
Proof.
  intros [Ho1 Hp1] [Ho2 Hp2]. split.
  - intros n Hn. by rewrite Ho2, Ho1.
  - by rewrite Hp2, Hp1.
Qed.

Lemma only_at_is_Some node h h' :
  only_at node h h' -> is_Some (h !! node) -> is_Some (h' !! node).
Proof.
  intros [_ Hp] [nd Hnd]. rewrite Hnd in Hp.
  destruct (h' !! node); [done|discriminate].
Qed.

Lemma only_at_SetProperty node h key v :
  only_at node h (SetProperty h node key v).
Proof.
  split.
  - intros n Hn. by apply SetProperty_other.
  - destruct (h !! node) as [nd|] eqn:Hnd.
    + destruct (SetProperty_node h node nd key v Hnd)
        as (nd' & -> & Hp & _).
      cbn. by rewrite Hp.
    + unfold SetProperty. by rewrite lookup_alter_eq, Hnd.
Qed.

(** A write leaves every object the class it has. *)
Lemma widget_at_SetProperty h node key v n :
  widget_at (SetProperty h node key v) n <-> widget_at h n.
Proof.
  unfold widget_at. destruct (decide (n = node)) as [->|Hne];
    [|by rewrite SetProperty_other].
  unfold SetProperty. rewrite lookup_alter_eq.
  destruct (h !! node) as [[parent props d]|]; cbn;
    [|split; intros (nd & Hnd & _); done].
  unfold is_widget.
  destruct d as [| | | |w]; cbn;
    try (split; intros (nd & [= <-] & w & Hw); done).
  destruct (Widget.OnPropertyChanged w _ key _) as [w' props'].
  split; intros _; eexists; (split; [done|]); by eexists.
Qed.

Lemma local_SetProperty_eq h node key v :
  local (SetProperty h node key (Some v)) node key
  = (fun _ => v) <$> h !! node.
Proof.
  unfold local. destruct (h !! node) as [nd|] eqn:Hnd.
  - destruct (SetProperty_node h node nd key (Some v) Hnd)
      as (nd' & -> & _ & _ & Hv & _).
    done.
  - unfold SetProperty. by rewrite lookup_alter_eq, Hnd.
Qed.

(** A write to one key leaves the other keys of the node as they are,
    but for [validated] when a widget is given a [value] or a [text]. *)
Lemma local_SetProperty_ne h node key v key' :
  key' <> key ->
  (key' = "validated" -> widget_at h node ->
   key <> "value" /\ key <> "text") ->
  local (SetProperty h node key v) node key' = local h node key'.
Proof.
  intros Hne Hval. unfold local. destruct (h !! node) as [nd|] eqn:Hnd.
  - destruct (SetProperty_node h node nd key v Hnd)
      as (nd' & -> & _ & _ & _ & Hother).
    cbn. destruct (Hother key' Hne) as [->|(-> & Hkey & _ & Hw)]; [done|].
    destruct Hval as [Hv Ht]; [done|by exists nd|].
    by destruct Hkey.
  - unfold SetProperty. by rewrite lookup_alter_eq, Hnd.
Qed.

Lemma local_SetProperty_bound h node key v key' :
  is_Some (local h node key') ->
  is_Some (local (SetProperty h node key v) node key').
Proof.
  unfold local. destruct (h !! node) as [nd|] eqn:Hnd;
    [|by intros [? ?]].
  destruct (SetProperty_node h node nd key v Hnd)
    as (nd' & -> & _ & _ & Hv & Hother).
  cbn. intros Hbound. destruct (decide (key' = key)) as [->|Hne];
    [by rewrite Hv|].
  destruct (Hother key' Hne) as [->|(_ & _ & Hsome & _)]; done.
Qed.

(** The entries of a rule in the order of their keys are its entries. *)
Lemma entry_insert_perm e l : entry_insert e l ≡ₚ e :: l.
Proof.
  induction l as [|x rest IH]; [done|]. cbn.
  destruct (String.ltb e.1 x.1); [done|].
  rewrite IH. apply Permutation_swap.
Qed.

Lemma in_order_perm (props : StyleProperties) :
  in_order props ≡ₚ map_to_list props.
Proof.
  unfold in_order. induction (map_to_list props) as [|e l IH]; [done|].
  cbn. by rewrite entry_insert_perm, IH.
Qed.

Lemma elem_of_in_order (props : StyleProperties) k v :
  (k, v) ∈ in_order props <-> props !! k = Some v.
Proof. by rewrite in_order_perm, elem_of_map_to_list. Qed.

Lemma in_order_keys (props : StyleProperties) k :
  k ∈ (in_order props).*1 <-> is_Some (props !! k).
Proof.
  rewrite list_elem_of_fmap. split.
  - intros ([k' v] & -> & Hin). apply elem_of_in_order in Hin. by exists v.
  - intros [v Hv]. exists (k, v). split; [done|].
    by apply elem_of_in_order.
Qed.

Lemma NoDup_in_order (props : StyleProperties) :
  NoDup (in_order props).*1.
Proof. rewrite in_order_perm. apply NoDup_fst_map_to_list. Qed.

Lemma entry_insert_ascending e l :
  ascending l.*1 -> e.1 ∉ l.*1 -> ascending (entry_insert e l).*1.
Proof.
  induction l as [|x rest IH]; [done|]. intros [Hx Hrest] Hfresh.
  rewrite fmap_cons, not_elem_of_cons in Hfresh.
  destruct Hfresh as [Hne Hfresh].
  cbn [entry_insert]. destruct (String.ltb e.1 x.1) eqn:Hlt.
  - split; [|done]. constructor; [done|].
    eapply Forall_impl; [done|]. intros y Hy. by eapply ltb_trans.
  - rewrite fmap_cons. split; [|by apply IH].
    apply Forall_forall. intros y Hy.
    rewrite entry_insert_perm, fmap_cons, elem_of_cons in Hy.
    destruct Hy as [->|Hy]; [by apply ltb_total|].
    by eapply Forall_forall in Hx.
Qed.

(** And they stand in ascending order of their keys. *)
Lemma in_order_ascending (props : StyleProperties) :
  ascending (in_order props).*1.
Proof.
  unfold in_order.
  pose proof (NoDup_fst_map_to_list props) as Hdup.
  induction (map_to_list props) as [|e l IH]; [done|].
  rewrite fmap_cons in Hdup. apply NoDup_cons in Hdup as [Hfresh Hdup].
  cbn [foldr]. apply entry_insert_ascending; [by apply IH|].
  assert (Hperm : foldr entry_insert [] l ≡ₚ l).
  { clear. induction l as [|x l IH]; [done|].
    cbn. by rewrite entry_insert_perm, IH. }
  by rewrite Hperm.
Qed.

(** The writes of [ApplyClassesImpl], one list after the other. *)
Lemma write_all_app h node ws1 ws2 :
  write_all h node (ws1 ++ ws2)
  = write_all (write_all h node ws1) node ws2.
Proof. unfold write_all. by rewrite fold_left_app. Qed.

Lemma ApplyClassesImpl_writes _registry h node classes :
  ApplyClassesImpl _registry h node classes
  = write_all h node (all_writes _registry classes).
Proof.
  unfold ApplyClassesImpl, all_writes.
  revert h. induction classes as [|cls classes IH]; intros h; [done|].
  cbn [fold_left fmap list_fmap concat]. rewrite IH.
  rewrite write_all_app. f_equal.
  unfold class_writes. rewrite write_all_app.
  set (h1 := match _registry !! cls with
             | Some props => fold_left _ (in_order props) h
             | None => h
             end).
  assert (Hbase : h1 = write_all h node (base_writes _registry cls)).
  { subst h1. unfold base_writes. by destruct (_registry !! cls). }
  rewrite <- Hbase. clear Hbase. generalize h1. clear.
  induction pseudoStates as [|state states IH]; intros h; [done|].
  cbn [fold_left fmap list_fmap concat]. rewrite IH, write_all_app.
  f_equal. unfold state_writes.
  destruct (_registry !! (cls +:+ ":" +:+ state)) as [props|]; [|done].
  unfold write_all. generalize (in_order props). clear.
  intros l. revert h. induction l as [|kv l IH]; intros h; [done|].
  cbn [fold_left fmap list_fmap]. apply IH.
Qed.

Lemma write_all_frame h node ws :
  let h' := write_all h node ws in
  only_at node h h'
  /\ (widget_at h' node <-> widget_at h node)
  /\ (forall key,
        key ∉ ws.*1 ->
        (key = "validated" -> widget_at h node ->
         ("value" ∉ ws.*1) /\ ("text" ∉ ws.*1)) ->
        local h' node key = local h node key)
  /\ (forall key, is_Some (local h node key) ->
        is_Some (local h' node key)).
Proof.
  cbv zeta. revert h. induction ws as [|[k v] ws IH]; intros h.
  { split; [apply only_at_refl|]. by repeat split. }
  cbn [write_all fold_left]. fold (write_all (SetProperty h node k (Some v))
                                             node ws).
  destruct (IH (SetProperty h node k (Some v))) as (Hf & Hw & Ho & Hb).
  split; [|split; [|split]].
  - eapply only_at_trans; [apply only_at_SetProperty | done].
  - by rewrite Hw, widget_at_SetProperty.
  - intros key Hkey Hval. rewrite fmap_cons, not_elem_of_cons in Hkey.
    destruct Hkey as [Hne Hkey]. cbn in Hne.
    rewrite Ho, local_SetProperty_ne; [done | done | | done |].
    + intros Hv Hwidget. destruct (Hval Hv Hwidget) as [H1 H2].
      rewrite fmap_cons, not_elem_of_cons in H1, H2. cbn in H1, H2.
      split; intros ->; [by destruct H1 | by destruct H2].
    + intros Hv Hwidget%widget_at_SetProperty.
      destruct (Hval Hv Hwidget) as [H1 H2].
      rewrite fmap_cons, not_elem_of_cons in H1, H2. tauto.
  - intros key Hkey. by apply Hb, local_SetProperty_bound.
Qed.

(** Of the writes to a key the last one decides. *)
Lemma write_all_last h node ws1 k v ws2 :
  is_Some (h !! node) ->
  k ∉ ws2.*1 ->
  (k = "validated" -> widget_at h node ->
   ("value" ∉ ws2.*1) /\ ("text" ∉ ws2.*1)) ->
  local (write_all h node (ws1 ++ (k, v) :: ws2)) node k = Some v.
Proof.
  intros Hnode Hk Hval.
  change ((k, v) :: ws2) with ([(k, v)] ++ ws2).
  rewrite !write_all_app.
  destruct (write_all_frame h node ws1) as (Hf1 & Hw1 & _).
  set (h1 := write_all h node ws1) in *.
  destruct (write_all_frame (write_all h1 node [(k, v)]) node ws2)
    as (_ & _ & Ho & _).
  rewrite Ho; [| done |].
  - cbn [write_all fold_left fst snd]. rewrite local_SetProperty_eq.
    destruct (only_at_is_Some _ _ _ Hf1 Hnode) as [nd ->]. done.
  - intros Hv Hwidget. apply Hval; [done|]. apply Hw1.
    cbn [write_all fold_left] in Hwidget.
    by apply widget_at_SetProperty in Hwidget.
Qed.

(** A key made for a pseudo state has a colon in it. *)
Lemma no_state_key _registry cls key :
  ":"%char ∉ chars key -> ~ binds_state _registry cls key.
Proof.
  intros Hkey (state & props & k & _ & _ & _ & Heq). apply Hkey.
  rewrite <- Heq, !chars_append. apply elem_of_app. right.
  apply list_elem_of_here.
Qed.

Lemma no_state_key_class _registry cls :
  ~ binds_state _registry cls "class".
Proof. apply no_state_key. by apply (bool_decide_unpack _). Qed.

(** The keys [ApplyClassesImpl] writes are those the rules write. *)
Lemma base_writes_keys _registry cls key :
  key ∈ (base_writes _registry cls).*1 <-> binds_base _registry cls key.
Proof.
  unfold base_writes, binds_base.
  destruct (_registry !! cls) as [props|].
  - rewrite in_order_keys. split; [by exists props|].
    by intros (props' & [= <-] & Hkey).
  - split; [by intros ?%elem_of_nil | by intros (? & ? & _)].
Qed.

Lemma state_writes_keys _registry cls state key :
  key ∈ (state_writes _registry cls state).*1
  <-> exists props k,
        _registry !! (cls +:+ ":" +:+ state) = Some props
        /\ is_Some (props !! k) /\ k +:+ ":" +:+ state = key.
Proof.
  unfold state_writes.
  destruct (_registry !! (cls +:+ ":" +:+ state)) as [props|].
  - rewrite <- list_fmap_compose, list_elem_of_fmap. split.
    + intros ([k v] & -> & Hin%elem_of_in_order).
      exists props, k. by repeat split.
    + intros (props' & k & [= <-] & [v Hv] & <-).
      exists (k, v). split; [done|]. by apply elem_of_in_order.
  - split; [by intros ?%elem_of_nil | by intros (? & ? & ? & _)].
Qed.

Lemma class_writes_keys _registry cls key :
  key ∈ (class_writes _registry cls).*1 <-> writes _registry cls key.
Proof.
  unfold class_writes, writes.
  rewrite fmap_app, elem_of_app, base_writes_keys.
  apply or_iff_compat_l. unfold binds_state.
  generalize pseudoStates. intros states.
  induction states as [|state states IH]; cbn.
  - split; [by intros ?%elem_of_nil|].
    by intros (? & ? & ? & ?%elem_of_nil & _).
  - rewrite fmap_app, elem_of_app, IH, state_writes_keys. split.
    + intros [(props & k & Hreg & Hk & Heq)
              |(state' & props & k & Hin & Hrest)].
      * exists state, props, k. split; [apply list_elem_of_here|done].
      * exists state', props, k. split; [by apply list_elem_of_further|done].
    + intros (state' & props & k & [->|Hin]%elem_of_cons & Hrest).
      * left. by exists props, k.
      * right. by exists state', props, k.
Qed.

Lemma all_writes_keys _registry classes key :
  key ∈ (all_writes _registry classes).*1
  <-> exists cls, cls ∈ classes /\ writes _registry cls key.
Proof.
  unfold all_writes. induction classes as [|cls classes IH]; cbn.
  - split; [by intros ?%elem_of_nil|]. by intros (? & ?%elem_of_nil & _).
  - rewrite fmap_app, elem_of_app, IH, class_writes_keys. split.
    + intros [Hw|(cls' & Hin & Hw)].
      * exists cls. split; [apply list_elem_of_here|done].
      * exists cls'. split; [by apply list_elem_of_further|done].
    + intros (cls' & [->|Hin]%elem_of_cons & Hw); [by left|].
      right. by exists cls'.
Qed.

(** A class whose rules write [value] or [text] has a rule that binds
    it. *)
Lemma writes_revalidates _registry cls key :
  key = "value" \/ key = "text" ->
  writes _registry cls key -> revalidates _registry cls.
Proof.
  intros Hkey [Hb|Hs].
  - destruct Hkey as [-> | ->]; [by left | by right].
  - exfalso. revert Hs. apply no_state_key.
    destruct Hkey as [-> | ->]; by apply (bool_decide_unpack _).
Qed.

Lemma ApplyClassesImpl_frame _registry h node classes :
  let h' := ApplyClassesImpl _registry h node classes in
  only_at node h h'
  /\ (forall key,
        (forall cls, cls ∈ classes -> ~ writes _registry cls key) ->
        (key = "validated" -> widget_at h node ->
         forall cls, cls ∈ classes -> ~ revalidates _registry cls) ->
        local h' node key = local h node key)
  /\ (forall key, is_Some (local h node key) ->
       is_Some (local h' node key)).
Proof.
  cbv zeta. rewrite ApplyClassesImpl_writes.
  destruct (write_all_frame h node (all_writes _registry classes))
    as (Hf & _ & Ho & Hb).
  split; [done|]. split; [|done].
  intros key Hkey Hval. apply Ho.
  - rewrite all_writes_keys. intros (cls & Hin & Hw). by eapply Hkey.
  - intros Hv Hwidget. rewrite !all_writes_keys.
    split; intros (cls & Hin & Hw); eapply (Hval Hv Hwidget cls Hin);
      (eapply writes_revalidates; [|done]); auto.
Qed.

(** Of the classes that bind a key the last one applied decides. *)
Lemma ApplyClassesImpl_last _registry h node before cls after props key v :
  is_Some (h !! node) ->
  _registry !! cls = Some props -> props !! key = Some v ->
  ~ binds_state _registry cls key ->
  (forall later, later ∈ after -> ~ writes _registry later key) ->
  (key = "validated" -> widget_at h node ->
   forall c, c ∈ cls :: after -> ~ revalidates _registry c) ->
  local (ApplyClassesImpl _registry h node (before ++ cls :: after))
        node key = Some v.
Proof.
  intros Hnode Hreg Hkey Hns Hafter Hval.
  rewrite ApplyClassesImpl_writes. unfold all_writes.
  rewrite fmap_app, concat_app, fmap_cons, concat_cons.
  fold (all_writes _registry before). fold (all_writes _registry after).
  unfold class_writes at 1.
  set (states := concat (state_writes _registry cls <$> pseudoStates)).
  assert (Hin : (key, v) ∈ base_writes _registry cls).
  { unfold base_writes. rewrite Hreg. by apply elem_of_in_order. }
  apply list_elem_of_split in Hin as (e1 & e2 & Hbase).
  assert (Hdup : NoDup (base_writes _registry cls).*1).
  { unfold base_writes. rewrite Hreg. apply NoDup_in_order. }
  rewrite Hbase in Hdup |- *.
  rewrite fmap_app, fmap_cons in Hdup.
  apply NoDup_app in Hdup as (_ & _ & Hdup).
  apply NoDup_cons in Hdup as [Hfresh _]. cbn in Hfresh.
  assert (Hlater : forall k,
            k ∈ (e2 ++ states ++ all_writes _registry after).*1 ->
            (k ∈ e2.*1 /\ binds_base _registry cls k)
            \/ binds_state _registry cls k
            \/ exists c, c ∈ after /\ writes _registry c k).
  { intros k. rewrite !fmap_app, !elem_of_app.
    intros [Hk|[Hk|Hk]].
    - left. split; [done|]. apply base_writes_keys. rewrite Hbase.
      rewrite fmap_app, fmap_cons, elem_of_app, elem_of_cons. auto.
    - right. left.
      assert (Hw : k ∈ (class_writes _registry cls).*1).
      { unfold class_writes. rewrite fmap_app, elem_of_app. by right. }
      clear -Hk. subst states. unfold binds_state.
      induction pseudoStates as [|state sts IH]; cbn in Hk;
        [by apply elem_of_nil in Hk|].
      rewrite fmap_app, elem_of_app, state_writes_keys in Hk.
      destruct Hk as [(props & k0 & Hreg & Hk0 & Heq)|Hk].
      + exists state, props, k0. split; [apply list_elem_of_here|done].
      + destruct (IH Hk) as (state' & props & k0 & Hin & Hrest).
        exists state', props, k0.
        split; [by apply list_elem_of_further|done].
    - right. right. by apply all_writes_keys. }
  replace (all_writes _registry before
           ++ ((e1 ++ (key, v) :: e2) ++ states)
           ++ all_writes _registry after)
    with ((all_writes _registry before ++ e1)
          ++ (key, v) :: (e2 ++ states ++ all_writes _registry after))
    by (by rewrite <- !app_assoc).
  apply write_all_last; [done | |].
  - intros Hk. destruct (Hlater key Hk)
      as [[Hk2 _]|[Hs|(c & Hin & Hw)]]; [done | done |].
    by eapply Hafter.
  - intros Hv Hwidget.
    assert (Hnone : forall k, k = "value" \/ k = "text" ->
              k ∉ (e2 ++ states ++ all_writes _registry after).*1).
    { intros k Hk Hin.
      destruct (Hlater k Hin) as [[_ Hb]|[Hs|(c & Hc & Hw)]].
      - eapply (Hval Hv Hwidget cls); [apply list_elem_of_here|].
        eapply writes_revalidates; [done|]. by left.
      - eapply (Hval Hv Hwidget cls); [apply list_elem_of_here|].
        eapply writes_revalidates; [done|]. by right.
      - eapply (Hval Hv Hwidget c); [by apply list_elem_of_further|].
        by eapply writes_revalidates. }
    split; apply Hnone; auto.
Qed.

(** *** The class operations *)

Lemma GetProperty_local fuel h n key def v :
  key ∉ state_answered ->
  local h n key = Some v ->
  GetProperty (S fuel) h n key def = Some v.
Proof.
  intros Hkey. unfold local. cbn [GetProperty].
  destruct (h !! n) as [nd|]; [|done].
  cbn. rewrite (answers_other nd key Hkey). by intros ->.
Qed.

Lemma class_not_answered : "class" ∉ state_answered.
Proof. by apply (bool_decide_unpack _). Qed.

Lemma GetProperty_Some_node fuel h n key def v :
  GetProperty fuel h n key def = Some v ->
  exists fuel', fuel = S fuel' /\ is_Some (h !! n).
Proof.
  destruct fuel as [|fuel']; [done|]. cbn [GetProperty].
  destruct (h !! n); [|done]. intros _. by exists fuel'.
Qed.

Lemma class_untouched _registry h node classes :
  (forall cls, ~ binds_base _registry cls "class") ->
  local (ApplyClassesImpl _registry h node classes) node "class"
  = local h node "class".
Proof.
  intros Hno. destruct (ApplyClassesImpl_frame _registry h node classes)
    as (_ & Ho & _).
  apply Ho; [|done]. intros cls _ [Hb|Hs]; [by eapply Hno|].
  by eapply no_state_key_class.
Qed.

(** What [AddClass] and [RemoveClass] write when the set of classes has
    changed: the node then carries the joined classes. *)
Lemma written_classes _registry fuel h n classes :
  (forall cls, ~ binds_base _registry cls "class") ->
  is_Some (h !! n) ->
  Forall token classes ->
  let h' :=
    ApplyClassesImpl _registry
      (SetProperty h n "class" (Some (join classes))) n classes in
  only_at n h h'
  /\ GetProperty (S fuel) h' n "class" "" = Some (join classes)
  /\ Split (join classes) " " = classes.
Proof.
  intros Hno [nd Hnd] Htok. cbv zeta. split; [|split].
  - eapply only_at_trans; [apply only_at_SetProperty|].
    apply ApplyClassesImpl_frame.
  - apply GetProperty_local; [apply class_not_answered|].
    rewrite class_untouched by done.
    rewrite local_SetProperty_eq. by rewrite Hnd.
  - by apply Split_join.
Qed.

Lemma Split_Forall_token str : Forall token (Split str " ").
Proof. apply Forall_forall. intros t Ht. by apply Split_tokens in Ht. Qed.

Lemma AddClass_classes _registry fuel h n names cur :
  (forall cls, ~ binds_base _registry cls "class") ->
  GetProperty fuel h n "class" "" = Some cur ->
  exists h' cur',
    AddClass _registry fuel h (Some n) names = Some h'
    /\ only_at n h h'
    /\ GetProperty fuel h' n "class" "" = Some cur'
    /\ (forall t, t ∈ Split cur' " "
                  <-> t ∈ Split cur " " \/ t ∈ Split names " ")
    /\ ((forall t, t ∈ Split names " " -> t ∈ Split cur " ") -> h' = h)
    /\ ((exists t, t ∈ Split names " " /\ t ∉ Split cur " ") ->
        exists classes,
          ascending classes
          /\ (forall t, t ∈ classes
                        <-> t ∈ Split cur " " \/ t ∈ Split names " ")
          /\ h' = ApplyClassesImpl _registry
                    (SetProperty h n "class" (Some (join classes)))
                    n classes).
Proof.
  intros Hno Hcur. unfold AddClass. rewrite Hcur. cbn [mbind option_bind].
  destruct (GetProperty_Some_node _ _ _ _ _ _ Hcur) as (fuel' & -> & Hn).
  destruct (add_loop (Split names " ") (existing_classes cur) false)
    as (Helem & Hsame & Hnone).
  pose proof (add_loop_ascending (Split names " ") (existing_classes cur)
                false (existing_classes_ascending cur)) as Hasc.
  destruct (fold_left _ (Split names " ") (existing_classes cur, false))
    as [classes changed].
  cbn [fst snd] in *. destruct changed.
  - assert (Htok : Forall token classes).
    { apply Forall_forall. intros t [Ht|Ht%existing_classes_elem]%Helem;
        by apply Split_tokens in Ht. }
    destruct (written_classes _registry fuel' h n classes Hno Hn Htok)
      as (Hf & Hget & Hsplit).
    eexists _, _. split; [done|]. split; [done|]. split; [done|].
    split; [|split].
    + intros t. rewrite Hsplit, Helem, existing_classes_elem. tauto.
    + intros Hall. exfalso.
      assert (Hout : (classes, true) = (existing_classes cur, false))
        by (apply Hnone; intros t Ht; by apply existing_classes_elem, Hall).
      discriminate.
    + intros _. exists classes. split; [done|]. split; [|done].
      intros t. rewrite Helem, existing_classes_elem. tauto.
  - destruct (Hsame eq_refl) as (_ & -> & Hall).
    exists h, cur. split; [done|]. split; [apply only_at_refl|].
    split; [done|]. split; [|split; [done|]].
    + intros t. split; [tauto|].
      intros [?|Ht]; [done|]. by apply existing_classes_elem, Hall.
    + intros (t & Ht & Hnot). exfalso.
      by apply Hnot, existing_classes_elem, Hall.
Qed.

Lemma RemoveClass_classes _registry fuel h n names cur :
  (forall cls, ~ binds_base _registry cls "class") ->
  GetProperty fuel h n "class" "" = Some cur ->
  exists h' cur',
    RemoveClass _registry fuel h (Some n) names = Some h'
    /\ only_at n h h'
    /\ GetProperty fuel h' n "class" "" = Some cur'
    /\ (forall t, t ∈ Split cur' " "
                  <-> t ∈ Split cur " " /\ t ∉ Split names " ")
    /\ ((forall t, t ∈ Split names " " -> t ∉ Split cur " ") -> h' = h)
    /\ (h' = h
        \/ exists classes,
             (forall t, t ∈ classes
                        <-> t ∈ Split cur " " /\ t ∉ Split names " ")
             /\ h' = ApplyClassesImpl _registry
                       (SetProperty h n "class" (Some (join classes)))
                       n classes).
Proof.
  intros Hno Hcur. unfold RemoveClass. rewrite Hcur.
  cbn [mbind option_bind].
  destruct (GetProperty_Some_node _ _ _ _ _ _ Hcur) as (fuel' & -> & Hn).
  destruct (remove_loop (Split names " ") (existing_classes cur) false)
    as (Helem & Hsame & Hnone).
  destruct (fold_left _ (Split names " ") (existing_classes cur, false))
    as [classes changed].
  cbn [fst snd] in *. destruct changed.
  - assert (Htok : Forall token classes).
    { apply Forall_forall. intros t [Ht%existing_classes_elem _]%Helem.
      by apply Split_tokens in Ht. }
    destruct (written_classes _registry fuel' h n classes Hno Hn Htok)
      as (Hf & Hget & Hsplit).
    eexists _, _. split; [done|]. split; [done|]. split; [done|].
    split; [|split].
    + intros t. rewrite Hsplit, Helem, existing_classes_elem. tauto.
    + intros Hall. exfalso.
      assert (Hout : (classes, true) = (existing_classes cur, false)).
      { apply Hnone. intros t Ht Hin%existing_classes_elem.
        by eapply Hall. }
      discriminate.
    + right. exists classes. split; [|done].
      intros t. rewrite Helem, existing_classes_elem. tauto.
  - destruct (Hsame eq_refl) as (_ & -> & Hall).
    exists h, cur. split; [done|]. split; [apply only_at_refl|].
    split; [done|]. split; [|split; [done|by left]].
    intros t. split; [|tauto].
    intros Ht. split; [done|]. intros Hin.
    by apply (Hall t Hin), existing_classes_elem.
Qed.

Lemma HasClass_classes fuel h n cur t :
  GetProperty fuel h n "class" "" = Some cur ->
  HasClass fuel h (Some n) t = Some (bool_decide (t ∈ Split cur " ")).
Proof.
  intros Hcur. unfold HasClass. rewrite Hcur. cbn [mbind option_bind].
  by rewrite existsb_eqb.
Qed.

(** X20. The classes of a node are kept as text and read back from it.
    Every class read from a [class] property is a token: not empty,
    without a space, and left as it is by [Trim].  And the text that
    [AddClass] and [RemoveClass] build from the set of classes reads
    back as that set: splitting the joined classes at the spaces gives
    the classes again, in their order. *)
Theorem X20_classes_read_back (currentClassStr : string) :
  Forall token (Split currentClassStr " ")
  /\ Forall token (existing_classes currentClassStr)
  /\ Split (join (existing_classes currentClassStr)) " "
     = existing_classes currentClassStr.
Proof.
  assert (Htok : Forall token (existing_classes currentClassStr)).
  { apply Forall_forall. intros t Ht%existing_classes_elem.
    by apply Split_tokens in Ht. }
  split; [apply Split_Forall_token|]. split; [done|].
  by apply Split_join.
Qed.

(** X21. When no rule of the registry sets a property called [class],
    [AddClass] returns, and afterwards [HasClass] answers yes exactly
    for the classes the node had (its own or those it gets from an
    ancestor) and the classes named; when the node had all the classes
    named, nothing is written and no rule is applied again. *)
Theorem X21_AddClass_then_HasClass
  (_registry : Registry) (fuel : nat) (h : store) (n : IContextNode)
  (names cur : string) :
  (forall cls, ~ binds_base _registry cls "class") ->
  GetProperty fuel h n "class" "" = Some cur ->
  exists h',
    AddClass _registry fuel h (Some n) names = Some h'
    /\ (forall t,
          HasClass fuel h' (Some n) t
          = Some (bool_decide (t ∈ Split cur " " \/ t ∈ Split names " ")))
    /\ ((forall t, t ∈ Split names " " -> t ∈ Split cur " ") -> h' = h).
Proof.
  intros Hno Hcur.
  destruct (AddClass_classes _registry fuel h n names cur Hno Hcur)
    as (h' & cur' & Hadd & _ & Hcur' & Helem & Hsame & _).
  exists h'. split; [done|]. split; [|done].
  intros t. rewrite (HasClass_classes _ _ _ _ _ Hcur').
  f_equal. apply bool_decide_ext, Helem.
Qed.

(** X22. When no rule of the registry sets a property called [class],
    [RemoveClass] returns, and afterwards
    [HasClass] answers yes exactly for the classes the node had that
    were not named; when the node had none of the classes named,
    nothing is written. *)
Theorem X22_RemoveClass_then_HasClass
  (_registry : Registry) (fuel : nat) (h : store) (n : IContextNode)
  (names cur : string) :
  (forall cls, ~ binds_base _registry cls "class") ->
  GetProperty fuel h n "class" "" = Some cur ->
  exists h',
    RemoveClass _registry fuel h (Some n) names = Some h'
    /\ (forall t,
          HasClass fuel h' (Some n) t
          = Some (bool_decide (t ∈ Split cur " " /\ t ∉ Split names " ")))
    /\ ((forall t, t ∈ Split names " " -> t ∉ Split cur " ") -> h' = h).
Proof.
  intros Hno Hcur.
  destruct (RemoveClass_classes _registry fuel h n names cur Hno Hcur)
    as (h' & cur' & Hrm & _ & Hcur' & Helem & Hsame & _).
  exists h'. split; [done|]. split; [|done].
  intros t. rewrite (HasClass_classes _ _ _ _ _ Hcur').
  f_equal. apply bool_decide_ext, Helem.
Qed.



(** X25. Toggling a class twice gives the node the classes it had:
    for a class name that is one token, when no rule of the registry
    sets a property called [class],
    [ToggleClass] returns both times and [HasClass] then answers as it
    did at the start. *)
Theorem X25_ToggleClass_twice
  (_registry : Registry) (fuel : nat) (h : store) (n : IContextNode)
  (className cur : string) :
  (forall cls, ~ binds_base _registry cls "class") ->
  GetProperty fuel h n "class" "" = Some cur ->
  token className ->
  exists h1 h2,
    ToggleClass _registry fuel h (Some n) className = Some h1
    /\ ToggleClass _registry fuel h1 (Some n) className = Some h2
    /\ forall t, HasClass fuel h2 (Some n) t = HasClass fuel h (Some n) t.
Proof.
  intros Hno Hcur (Hne & Htrim & Hsp).
  assert (Hone : Split className " " = [className])
    by (by apply Split_one).
  unfold ToggleClass.
  rewrite (HasClass_classes _ _ _ _ className Hcur).
  cbn [mbind option_bind].
  destruct (bool_decide_reflect (className ∈ Split cur " ")) as [Hin|Hout].
  - destruct (RemoveClass_classes _registry fuel h n className cur Hno Hcur)
      as (h1 & cur1 & -> & _ & Hcur1 & Helem1 & _).
    destruct (AddClass_classes _registry fuel h1 n className cur1 Hno Hcur1)
      as (h2 & cur2 & Hadd & _ & Hcur2 & Helem2 & _).
    exists h1, h2. split; [done|].
    rewrite (HasClass_classes _ _ _ _ className Hcur1).
    cbn [mbind option_bind].
    rewrite bool_decide_eq_false_2.
    2: { rewrite Helem1, Hone. intros [_ Hnot].
         apply Hnot, list_elem_of_here. }
    split; [done|]. intros t.
    rewrite (HasClass_classes _ _ _ _ t Hcur2),
      (HasClass_classes _ _ _ _ t Hcur).
    f_equal. apply bool_decide_ext.
    rewrite Helem2, Helem1, Hone, list_elem_of_singleton.
    destruct (decide (t = className)) as [->|Hdiff]; tauto.
  - destruct (AddClass_classes _registry fuel h n className cur Hno Hcur)
      as (h1 & cur1 & -> & _ & Hcur1 & Helem1 & _).
    destruct (RemoveClass_classes _registry fuel h1 n className cur1
                Hno Hcur1)
      as (h2 & cur2 & Hrm & _ & Hcur2 & Helem2 & _).
    exists h1, h2. split; [done|].
    rewrite (HasClass_classes _ _ _ _ className Hcur1).
    cbn [mbind option_bind].
    rewrite bool_decide_eq_true_2.
    2: { rewrite Helem1, Hone. right. apply list_elem_of_here. }
    split; [done|]. intros t.
    rewrite (HasClass_classes _ _ _ _ t Hcur2),
      (HasClass_classes _ _ _ _ t Hcur).
    f_equal. apply bool_decide_ext.
    rewrite Helem2, Helem1, Hone, list_elem_of_singleton.
    destruct (decide (t = className)) as [->|Hdiff]; tauto.
Qed.

(** X26. [HasClass] compares the name it is given, as it stands, with
    the tokens of the [class] property.  For a name that is no token
    (it is empty, has a space in it, or starts or ends with white
    space) the answer is no, whatever the node's classes, and so
    [ToggleClass] with such a name always adds and never removes. *)
Theorem X26_ToggleClass_of_no_token_adds
  (_registry : Registry) (fuel : nat) (h : store) (n : IContextNode)
  (className cur : string) :
  GetProperty fuel h n "class" "" = Some cur ->
  ~ token className ->
  HasClass fuel h (Some n) className = Some false
  /\ ToggleClass _registry fuel h (Some n) className
     = AddClass _registry fuel h (Some n) className.
Proof.
  intros Hcur Hno.
  assert (Hhas : HasClass fuel h (Some n) className = Some false).
  { rewrite (HasClass_classes _ _ _ _ className Hcur).
    rewrite bool_decide_eq_false_2; [done|].
    intros Hin. apply Hno. by apply Split_tokens in Hin. }
  split; [done|]. unfold ToggleClass. by rewrite Hhas.
Qed.

Lemma sheet_has_no_class_rule cls :
  ~ binds_base StyleSamples.sheet cls "class".
Proof.
  intros (props & Hreg & value & Hvalue). unfold StyleSamples.sheet in Hreg.
  repeat (apply lookup_insert_Some in Hreg as [[_ <-]|[_ Hreg]];
          [by vm_compute in Hvalue|]).
  by rewrite lookup_empty in Hreg.
Qed.

Lemma X21_witness :
  exists h',
    AddClass StyleSamples.sheet 2 StyleSamples.styled (Some 2%positive)
             "a" = Some h'
    /\ HasClass 2 h' (Some 2%positive) "a" = Some true
    /\ HasClass 2 h' (Some 2%positive) "b" = Some true.
Proof.
  destruct (X21_AddClass_then_HasClass StyleSamples.sheet 2
              StyleSamples.styled 2%positive "a" "b")
    as (h' & Hadd & Hhas & _).
  - apply sheet_has_no_class_rule.
  - reflexivity.
  - exists h'. split; [exact Hadd|]. split; rewrite Hhas; reflexivity.
Defined.

Lemma X22_witness :
  exists h',
    RemoveClass StyleSamples.sheet 2 StyleSamples.styled (Some 2%positive)
                "b" = Some h'
    /\ HasClass 2 h' (Some 2%positive) "b" = Some false.
Proof.
  destruct (X22_RemoveClass_then_HasClass StyleSamples.sheet 2
              StyleSamples.styled 2%positive "b" "b")
    as (h' & Hrm & Hhas & _).
  - apply sheet_has_no_class_rule.
  - reflexivity.
  - exists h'. split; [exact Hrm|]. rewrite Hhas. reflexivity.
Defined.



Lemma X25_witness :
  exists h1 h2,
    ToggleClass StyleSamples.sheet 2 StyleSamples.styled (Some 2%positive)
                "a" = Some h1
    /\ ToggleClass StyleSamples.sheet 2 h1 (Some 2%positive) "a" = Some h2
    /\ HasClass 2 h2 (Some 2%positive) "a" = Some false.
Proof.
  destruct (X25_ToggleClass_twice StyleSamples.sheet 2 StyleSamples.styled
              2%positive "a" "b")
    as (h1 & h2 & Hone & Htwo & Hsame).
  - apply sheet_has_no_class_rule.
  - reflexivity.
  - repeat split; try done. by apply (bool_decide_unpack _).
  - exists h1, h2. split; [exact Hone|]. split; [exact Htwo|].
    rewrite Hsame. reflexivity.
Defined.

Lemma X26_witness :
  HasClass 2 StyleSamples.styled (Some 2%positive) "a b" = Some false
  /\ ToggleClass StyleSamples.sheet 2 StyleSamples.styled
       (Some 2%positive) "a b"
     = AddClass StyleSamples.sheet 2 StyleSamples.styled
         (Some 2%positive) "a b".
Proof.
  apply (X26_ToggleClass_of_no_token_adds StyleSamples.sheet 2
           StyleSamples.styled 2%positive "a b" "b").
  - reflexivity.
  - intros (_ & _ & Hsp). apply Hsp. by apply (bool_decide_unpack _).
Defined.

End StyleManagerFacts.

(** ** Loading style sheets *)

Module StyleSheetFacts.

Import ContextNode StyleManager StyleSheet StringFacts StyleManagerFacts.

(** *** Taking the comments out *)

Lemma sanitize_plain cssContent :
  "/"%char ∉ chars cssContent ->
  forall fuel i cleanContent,
    sanitize fuel cssContent i cleanContent
    = cleanContent +:+ String.substring i fuel cssContent.
Proof.
  intros Hplain. induction fuel as [|fuel IH]; intros i clean.
  - cbn [sanitize]. apply chars_inj.
    rewrite chars_append, chars_substring, take_0. by rewrite app_nil_r.
  - cbn [sanitize].
    destruct (Nat.ltb_spec i (String.length cssContent)) as [Hlt|Hge].
    + rewrite (bool_decide_eq_false_2
                 (String.get i cssContent = Some "/"%char)).
      2: { rewrite get_lookup. intros Hin%list_elem_of_lookup_2.
           by apply Hplain. }
      rewrite andb_false_r. cbn [andb].
      rewrite get_lookup.
      destruct (lookup_lt_is_Some_2 (chars cssContent) i) as [c Hc];
        [by rewrite chars_length|].
      rewrite Hc, IH. rewrite append_assoc. f_equal.
      apply chars_inj. rewrite chars_append, !chars_substring.
      cbn [String.list_ascii_of_string app].
      rewrite (drop_S _ c i Hc). cbn [take].
      by rewrite Nat.add_1_r.
    + apply chars_inj. rewrite chars_append, chars_substring.
      rewrite drop_ge by (rewrite chars_length; lia).
      by rewrite take_nil, app_nil_r.
Qed.

Lemma sanitize_identity cssContent :
  "/"%char ∉ chars cssContent ->
  sanitize (String.length cssContent) cssContent 0 EmptyString
  = cssContent.
Proof.
  intros Hplain. rewrite sanitize_plain by done.
  change (EmptyString +:+ ?s) with s. apply substring_all.
Qed.

(** *** Finding a character *)

Lemma index_char d a b n :
  (n <= String.length a)%nat ->
  d ∉ drop n (chars a) ->
  String.index n (String d EmptyString) (a +:+ String d b)
  = Some (String.length a).
Proof.
  revert n. induction a as [|x a IH]; intros n Hn Hd.
  - cbn in Hn. assert (n = 0%nat) as -> by lia.
    change (EmptyString +:+ String d b) with (String d b).
    cbn [String.index String.prefix].
    destruct (ascii_dec d d); [|done]. by destruct b.
  - change (String x a +:+ String d b) with (String x (a +:+ String d b)).
    destruct n as [|n].
    + cbn [String.index String.prefix].
      cbn [drop String.list_ascii_of_string] in Hd.
      apply not_elem_of_cons in Hd as [Hne Hd].
      destruct (ascii_dec d x); [done|].
      rewrite (IH 0%nat); [done | lia | by rewrite drop_0].
    + cbn [String.index]. cbn [String.length] in Hn.
      rewrite (IH n); [done | lia | done].
Qed.

(** *** Texts that are trimmed *)

Lemma find_first_append a b :
  find_first_not_of a = Some 0%nat ->
  find_first_not_of (a +:+ b) = Some 0%nat.
Proof.
  destruct a as [|c a]; [done|].
  change (String c a +:+ b) with (String c (a +:+ b)).
  cbn [find_first_not_of]. destruct (is_space c); [|done].
  by destruct (find_first_not_of a).
Qed.

Lemma find_last_append a b j :
  find_last_not_of b = Some j ->
  find_last_not_of (a +:+ b) = Some (String.length a + j)%nat.
Proof.
  intros Hb. induction a as [|c a IH]; [done|].
  change (String c a +:+ b) with (String c (a +:+ b)).
  cbn [find_last_not_of String.length]. by rewrite IH.
Qed.

Lemma trimmed_nonempty s :
  find_first_not_of s = Some 0%nat -> s <> EmptyString.
Proof. by destruct s. Qed.

Lemma trimmed_Trim s :
  find_first_not_of s = Some 0%nat ->
  find_last_not_of s = Some (String.length s - 1)%nat ->
  Trim s = s.
Proof.
  intros Hf Hl. unfold Trim. rewrite Hf, Hl.
  destruct s as [|c s]; [done|]. cbn [String.length].
  replace (S (String.length s) - 1 - 0 + 1)%nat
    with (String.length (String c s)) by (cbn; lia).
  apply substring_all.
Qed.

Lemma trimmed_append a b :
  find_first_not_of a = Some 0%nat ->
  find_first_not_of b = Some 0%nat ->
  find_last_not_of b = Some (String.length b - 1)%nat ->
  find_first_not_of (a +:+ b) = Some 0%nat
  /\ find_last_not_of (a +:+ b) = Some (String.length (a +:+ b) - 1)%nat.
Proof.
  intros Ha Hb Hl. split; [by apply find_first_append|].
  rewrite (find_last_append _ _ _ Hl), length_append.
  f_equal. destruct b; [done|]. cbn [String.length]. lia.
Qed.

Lemma word_token_parts s :
  word s ->
  s <> EmptyString /\ Trim s = s
  /\ forall d, d ∈ special -> d ∉ chars s.
Proof.
  intros (Hf & Hl & Hd). split; [by apply trimmed_nonempty|].
  split; [by apply trimmed_Trim | done].
Qed.

(** *** One rule *)

Lemma not_special d s :
  word s -> d ∈ special -> d ∉ chars s.
Proof. intros (_ & _ & Hd). apply Hd. Qed.

Ltac split_elem H :=
  repeat match type of H with
         | _ ∈ _ ++ _ => apply elem_of_app in H as [H|H]
         | _ ∈ _ :: _ => apply elem_of_cons in H as [H|H]
         end.

Ltac by_special H :=
  first [ discriminate H
        | by apply elem_of_nil in H
        | revert H; eapply not_special;
          [eassumption | by apply (bool_decide_unpack _)] ].

Lemma declarations_one k v :
  word k -> word v ->
  declarations (k +:+ String ":" v) = <[k := v]> ∅.
Proof.
  intros Hk Hv.
  destruct (word_token_parts k Hk) as (Hk0 & Hkt & Hkd).
  destruct (word_token_parts v Hv) as (Hv0 & Hvt & Hvd).
  destruct Hk as (Hkf & Hkl & _). destruct Hv as (Hvf & Hvl & _).
  unfold declarations.
  assert (Hone : Split (k +:+ String ":" v) ";" = [k +:+ String ":" v]).
  { apply Split_one.
    - by intros ?%append_empty.
    - apply trimmed_Trim; [by apply find_first_append|].
      rewrite (find_last_append k (String ":" v) (String.length v)).
      + rewrite length_append. cbn [String.length]. f_equal. lia.
      + cbn [find_last_not_of String.length]. rewrite Hvl.
        f_equal. destruct v; [done|]. cbn [String.length]. lia.
    - rewrite chars_append. cbn [String.list_ascii_of_string].
      rewrite elem_of_app, elem_of_cons.
      intros [Hin|[Heq|Hin]]; [|done|].
      + revert Hin. apply Hkd. by apply (bool_decide_unpack _).
      + revert Hin. apply Hvd. by apply (bool_decide_unpack _). }
  rewrite Hone. cbn [fold_left].
  rewrite Split_append.
  rewrite (Split_one k ":"), (Split_one v ":"); try done.
  - apply Hvd. by apply (bool_decide_unpack _).
  - apply Hkd. by apply (bool_decide_unpack _).
Qed.

Lemma register_one (_registry : Registry) c k v :
  c <> EmptyString ->
  register _registry (String "." c) (<[k := v]> ∅)
  = <[c := <[k := v]> (default ∅ (_registry !! c))]> _registry.
Proof.
  intros Hc. unfold register.
  rewrite (proj2 (String.eqb_neq c EmptyString)) by done.
  by rewrite insert_empty, map_fold_singleton.
Qed.

Lemma selector_one c :
  word c -> Split (String "." c) "," = [String "." c].
Proof.
  intros Hc. destruct (word_token_parts c Hc) as (Hc0 & Hct & Hcd).
  destruct Hc as (Hcf & Hcl & _).
  apply Split_one; [done| |].
  - apply trimmed_Trim; [done|].
    cbn [find_last_not_of String.length]. rewrite Hcl.
    f_equal. destruct c; [done|]. cbn [String.length]. lia.
  - cbn [String.list_ascii_of_string]. rewrite elem_of_cons.
    intros [Heq|Hin]; [done|]. revert Hin.
    apply Hcd. by apply (bool_decide_unpack _).
Qed.

Lemma parse_one fuel (_registry : Registry) c k v :
  word c -> word k -> word v ->
  parse (S fuel) _registry
        (String "." c +:+ String "{" ((k +:+ String ":" v) +:+ "}")) 0
  = <[c := <[k := v]> (default ∅ (_registry !! c))]> _registry.
Proof.
  intros Hc Hk Hv.
  set (a := String "." c).
  set (body := k +:+ String ":" v).
  set (css := a +:+ String "{" (body +:+ "}")).
  assert (Hlen : String.length css
                 = (String.length a + 1 + String.length body + 1)%nat).
  { subst css. rewrite length_append. cbn [String.length].
    rewrite length_append. cbn [String.length]. lia. }
  assert (Hopen : String.index 0 "{" css = Some (String.length a)).
  { subst css. apply index_char; [lia|]. rewrite drop_0. subst a.
    cbn [String.list_ascii_of_string]. rewrite elem_of_cons.
    intros [Heq|Hin]; [done|]. revert Hin.
    eapply not_special; [done|]. by apply (bool_decide_unpack _). }
  assert (Hcss : css = (a +:+ String "{" body) +:+ String "}" EmptyString).
  { subst css. rewrite append_assoc. done. }
  assert (Hclose : String.index (String.length a) "}" css
                   = Some (String.length a + 1 + String.length body)%nat).
  { rewrite Hcss.
    replace (String.length a + 1 + String.length body)%nat
      with (String.length (a +:+ String "{" body))
      by (rewrite length_append; cbn [String.length]; lia).
    apply index_char.
    - rewrite length_append. lia.
    - intros Hin.
      apply elem_of_sublist with (l2 := chars (a +:+ String "{" body))
        in Hin; [|apply sublist_drop].
      subst a body. rewrite !chars_append in Hin.
      cbn [String.list_ascii_of_string] in Hin.
      rewrite chars_append in Hin.
      cbn [String.list_ascii_of_string] in Hin.
      split_elem Hin; by_special Hin. }
  cbn [parse]. fold css.
  rewrite (proj2 (Nat.ltb_lt 0 (String.length css))) by lia.
  rewrite Hopen, Hclose. cbv zeta.
  rewrite Nat.sub_0_r.
  assert (Hsel : String.substring 0 (String.length a) css = a)
    by (subst css; apply substring_append_l).
  assert (Hbody : String.substring (String.length a + 1)
                    (String.length a + 1 + String.length body
                     - String.length a - 1) css = body).
  { replace (String.length a + 1 + String.length body
             - String.length a - 1)%nat
      with (String.length body) by lia.
    replace (String.length a + 1)%nat
      with (String.length (a +:+ "{"))
      by (rewrite length_append; cbn [String.length]; lia).
    replace css with ((a +:+ "{") +:+ body +:+ "}")
      by (subst css; by rewrite append_assoc).
    apply substring_middle. }
  rewrite Hsel, Hbody. subst a body.
  rewrite declarations_one, selector_one by done.
  cbn [fold_left]. rewrite register_one by (by apply trimmed_nonempty, Hc).
  destruct fuel as [|fuel]; [done|]. cbn [parse]. fold css.
  by rewrite (proj2 (Nat.ltb_ge _ _)) by lia.
Qed.

(** *** What loading keeps *)

Lemma register_keeps (_registry : Registry) sel props cls key :
  is_Some (declared _registry cls key) ->
  is_Some (declared (register _registry sel props) cls key).
Proof.
  intros Hold. unfold register.
  set (name := match sel with
               | String "."%char rest => rest
               | _ => sel
               end).
  destruct (String.eqb name EmptyString); [done|].
  apply (map_fold_weak_ind
    (fun (r : Registry) (_ : StyleProperties) =>
       is_Some (declared r cls key))); [done|].
  intros k v m r _ Hr. unfold declared in *.
  destruct (decide (cls = name)) as [->|Hne].
  - rewrite lookup_insert_eq. cbn.
    destruct (decide (key = k)) as [->|Hk].
    + by rewrite lookup_insert_eq.
    + rewrite lookup_insert_ne by done.
      by destruct (r !! name).
  - by rewrite lookup_insert_ne.
Qed.

Lemma parse_keeps fuel (_registry : Registry) cleanContent pos cls key :
  is_Some (declared _registry cls key) ->
  is_Some (declared (parse fuel _registry cleanContent pos) cls key).
Proof.
  revert _registry pos. induction fuel as [|fuel IH];
    intros _registry pos Hold; [done|].
  cbn [parse]. destruct (pos <? String.length cleanContent)%nat; [|done].
  destruct (String.index pos "{" cleanContent) as [openBrace|]; [|done].
  destruct (String.index openBrace "}" cleanContent) as [closeBrace|];
    [|done].
  cbv zeta. apply IH.
  generalize (declarations
                (String.substring (openBrace + 1)
                   (closeBrace - openBrace - 1) cleanContent)) as props.
  intros props. revert _registry Hold.
  induction (Split (String.substring pos (openBrace - pos) cleanContent)
                   ",") as [|sel sels IHs]; intros _registry Hold; [done|].
  cbn [fold_left]. by apply IHs, register_keeps.
Qed.

Lemma rule_text_form c k v :
  "." +:+ c +:+ "{" +:+ k +:+ ":" +:+ v +:+ "}"
  = String "." c +:+ String "{" ((k +:+ String ":" v) +:+ "}").
Proof.
  apply chars_inj. rewrite !chars_append.
  cbn [String.list_ascii_of_string app]. rewrite !chars_append.
  cbn [String.list_ascii_of_string app].
  by rewrite <- !app_assoc.
Qed.

Lemma LoadCSS_rule_text (_registry : Registry) c k v :
  word c -> word k -> word v ->
  LoadCSS _registry
    (String "." c +:+ String "{" ((k +:+ String ":" v) +:+ "}"))
  = <[c := <[k := v]> (default ∅ (_registry !! c))]> _registry.
Proof.
  intros Hc Hk Hv. unfold LoadCSS. rewrite sanitize_identity.
  - rewrite length_append. cbn [String.length]. rewrite Nat.add_succ_r.
    apply parse_one; done.
  - intros Hin. rewrite !chars_append in Hin.
    cbn [String.list_ascii_of_string] in Hin.
    rewrite !chars_append in Hin.
    cbn [String.list_ascii_of_string] in Hin.
    split_elem Hin; by_special Hin.
Qed.

(** *** A comment that is not closed *)

Lemma index_shift p s t n :
  String.index (String.length p + n) s (p +:+ t)
  = (fun m => (String.length p + m)%nat) <$> String.index n s t.
Proof.
  induction p as [|c p IH].
  - change (EmptyString +:+ t) with t. cbn [String.length Nat.add].
    by destruct (String.index n s t).
  - change (String c p +:+ t) with (String c (p +:+ t)).
    cbn [String.length Nat.add String.index]. rewrite IH.
    by destruct (String.index n s t).
Qed.

Lemma sanitize_to_comment a b :
  "/"%char ∉ chars a ->
  String.index 0 "*/" b = None ->
  forall n i cleanContent fuel,
    (i + n = String.length a)%nat -> (n < fuel)%nat ->
    sanitize fuel (a +:+ String "/" (String "*" b)) i cleanContent
    = cleanContent +:+ String.substring i n a.
Proof.
  intros Hplain Hopen.
  set (css := a +:+ String "/" (String "*" b)).
  assert (Hlen : String.length css
                 = (String.length a + 2 + String.length b)%nat).
  { subst css. rewrite length_append. cbn [String.length]. lia. }
  assert (Hchars : chars css = chars a ++ "/"%char :: "*"%char :: chars b).
  { subst css. by rewrite chars_append. }
  induction n as [|n IH]; intros i clean fuel Hi Hfuel.
  - destruct fuel as [|fuel]; [lia|]. cbn [sanitize].
    assert (i = String.length a) as -> by lia.
    rewrite (proj2 (Nat.ltb_lt _ _)) by lia.
    rewrite (proj2 (Nat.ltb_lt _ _)) by lia.
    rewrite !get_lookup, Hchars.
    rewrite lookup_app_r by (rewrite chars_length; lia).
    rewrite (lookup_app_r (chars a)) by (rewrite chars_length; lia).
    rewrite chars_length, Nat.sub_diag.
    replace (String.length a + 1 - String.length a)%nat with 1%nat by lia.
    cbn [lookup list_lookup].
    rewrite !bool_decide_eq_true_2 by done. cbn [andb].
    assert (Hnone : String.index (String.length a + 2) "*/" css = None).
    { replace css with ((a +:+ "/*") +:+ b)
        by (subst css; by rewrite append_assoc).
      replace (String.length a + 2)%nat
        with (String.length (a +:+ "/*") + 0)%nat
        by (rewrite length_append; cbn [String.length]; lia).
      by rewrite index_shift, Hopen. }
    rewrite Hnone. apply chars_inj.
    rewrite chars_append, chars_substring, take_0. by rewrite app_nil_r.
  - destruct fuel as [|fuel]; [lia|]. cbn [sanitize].
    rewrite (proj2 (Nat.ltb_lt i _)) by lia.
    destruct (lookup_lt_is_Some_2 (chars a) i) as [c Hc];
      [rewrite chars_length; lia|].
    assert (Hget : String.get i css = Some c).
    { rewrite get_lookup, Hchars. rewrite lookup_app_l; [done|].
      rewrite chars_length. lia. }
    rewrite (bool_decide_eq_false_2 (String.get i css = Some "/"%char)).
    2: { rewrite Hget. intros [= ->]. apply Hplain.
         by eapply list_elem_of_lookup_2. }
    rewrite andb_false_r. cbn [andb]. rewrite Hget.
    rewrite IH by lia. rewrite append_assoc. f_equal.
    apply chars_inj. rewrite chars_append, !chars_substring.
    cbn [String.list_ascii_of_string app].
    rewrite (drop_S _ c i Hc). cbn [take]. by rewrite Nat.add_1_r.
Qed.

(** X27. A style sheet that is one rule, [.c{k:v}] with [c], [k] and
    [v] texts that start and end with a character that is no white
    space and hold none of the characters with a meaning in a sheet,
    loads as that rule: afterwards the registry gives the class [c] the
    declaration [k: v] on top of the declarations it had for [c], and
    is otherwise as before. *)
Theorem X27_LoadCSS_reads_a_rule
  (_registry : Registry) (c k v : string) :
  word c -> word k -> word v ->
  LoadCSS _registry ("." +:+ c +:+ "{" +:+ k +:+ ":" +:+ v +:+ "}")
  = <[c := <[k := v]> (default ∅ (_registry !! c))]> _registry.
Proof. rewrite rule_text_form. apply LoadCSS_rule_text. Qed.

(** X28. [LoadCSS] only adds to the registry and overwrites in it: a
    declaration a class had before the call it still has afterwards,
    possibly with another value, whatever the text loaded. *)
Theorem X28_LoadCSS_keeps_what_was_loaded
  (_registry : Registry) (cssContent cls key : string) :
  is_Some (declared _registry cls key) ->
  is_Some (declared (LoadCSS _registry cssContent) cls key).
Proof. apply parse_keeps. Qed.

(** X29. A comment that is opened and never closed ends the sheet:
    when the text before it has no slash, the sheet loads as that text
    alone, and nothing is reported. *)
Theorem X29_LoadCSS_stops_at_an_open_comment
  (_registry : Registry) (before after : string) :
  "/"%char ∉ chars before ->
  String.index 0 "*/" after = None ->
  LoadCSS _registry (before +:+ "/*" +:+ after)
  = LoadCSS _registry before.
Proof.
  intros Hplain Hopen. unfold LoadCSS.
  rewrite (sanitize_identity before) by done.
  change (before +:+ "/*" +:+ after)
    with (before +:+ String "/" (String "*" after)).
  rewrite (sanitize_to_comment before after Hplain Hopen
             (String.length before) 0 EmptyString).
  - change (EmptyString +:+ ?s) with s. by rewrite substring_all.
  - done.
  - rewrite length_append. cbn [String.length]. lia.
Qed.

Lemma ltb_irrefl s : String.ltb s s = false.
Proof.
  unfold String.ltb. pose proof (String.compare_antisym s s) as Hs.
  by destruct (String.compare s s).
Qed.

(** X30. From the text of a sheet to the property of a node: after
    loading the one rule [.c{k:v}] into an empty registry, [AddClass]
    with the class [c] on a node that has not got it binds [k] to [v]
    at the node, and [HasClass] then answers yes for [c]. *)
Theorem X30_loaded_rule_styles_the_node
  (fuel : nat) (h : store) (n : IContextNode) (c k v cur : string) :
  word c -> " "%char ∉ chars c -> word k -> word v ->
  k <> "class" ->
  GetProperty fuel h n "class" "" = Some cur ->
  c ∉ Split cur " " ->
  let _registry :=
    LoadCSS ∅ ("." +:+ c +:+ "{" +:+ k +:+ ":" +:+ v +:+ "}") in
  exists h',
    AddClass _registry fuel h (Some n) c = Some h'
    /\ local h' n k = Some v
    /\ HasClass fuel h' (Some n) c = Some true.
Proof.
  intros Hc Hsp Hk Hv Hkey Hcur Hfresh. cbv zeta.
  rewrite rule_text_form, LoadCSS_rule_text by done.
  rewrite lookup_empty. cbn [default].
  set (_registry := <[c := <[k := v]> ∅]> ∅ : Registry).
  destruct (word_token_parts c Hc) as (Hc0 & Hct & _).
  assert (Hone : Split c " " = [c]) by (by apply Split_one).
  assert (Hrule : forall cls props,
            _registry !! cls = Some props -> cls = c /\ props = <[k := v]> ∅).
  { intros cls props Hreg. subst _registry.
    apply lookup_insert_Some in Hreg as [[<- <-]|[_ Hreg]]; [done|].
    by rewrite lookup_empty in Hreg. }
  assert (Hno : forall cls, ~ binds_base _registry cls "class").
  { intros cls (props & Hreg & value & Hvalue).
    destruct (Hrule _ _ Hreg) as [_ ->].
    apply lookup_insert_Some in Hvalue as [[Heq _]|[_ Hvalue]]; [done|].
    by rewrite lookup_empty in Hvalue. }
  destruct (AddClass_classes _registry fuel h n c cur Hno Hcur)
    as (h' & cur' & Hadd & _ & Hcur' & Helem & _ & Hchanged).
  exists h'. split; [done|]. split.
  - destruct Hchanged as (classes & Hasc & Hin & ->).
    { exists c. split; [|done]. rewrite Hone. apply list_elem_of_here. }
    destruct (ascending_split c classes Hasc) as (before & after & -> & Hgt).
    { apply Hin. right. rewrite Hone. apply list_elem_of_here. }
    destruct (GetProperty_Some_node _ _ _ _ _ _ Hcur) as (fuel' & _ & Hn).
    eapply (ApplyClassesImpl_last _registry _ n before c after
              (<[k := v]> ∅) k v).
    + eapply only_at_is_Some; [apply only_at_SetProperty | done].
    + subst _registry. by rewrite lookup_insert_eq.
    + by rewrite lookup_insert_eq.
    + apply no_state_key. eapply not_special; [done|].
      by apply (bool_decide_unpack _).
    + intros later Hlater [(props & Hreg & _)|Hstate].
      * destruct (Hrule _ _ Hreg) as [-> _].
        specialize (Hgt c Hlater). by rewrite ltb_irrefl in Hgt.
      * revert Hstate. apply no_state_key. eapply not_special; [done|].
        by apply (bool_decide_unpack _).
    + intros -> _ cls _ [(props & Hreg & value & Hvalue)
                         |(props & Hreg & value & Hvalue)];
        destruct (Hrule _ _ Hreg) as [_ ->];
        (apply lookup_insert_Some in Hvalue as [[Heq _]|[_ Hvalue]];
         [done | by rewrite lookup_empty in Hvalue]).
  - rewrite (HasClass_classes _ _ _ _ c Hcur').
    rewrite bool_decide_eq_true_2; [done|].
    apply Helem. right. rewrite Hone. apply list_elem_of_here.
Qed.

Lemma word_red : word "red".
Proof.
  split; [done|]. split; [done|].
  intros d Hd. unfold special in Hd. split_elem Hd; subst;
    first [by apply (bool_decide_unpack _) | by apply elem_of_nil in Hd].
Qed.

Lemma word_color : word "color".
Proof.
  split; [done|]. split; [done|].
  intros d Hd. unfold special in Hd. split_elem Hd; subst;
    first [by apply (bool_decide_unpack _) | by apply elem_of_nil in Hd].
Qed.

Lemma word_a : word "a".
Proof.
  split; [done|]. split; [done|].
  intros d Hd. unfold special in Hd. split_elem Hd; subst;
    first [by apply (bool_decide_unpack _) | by apply elem_of_nil in Hd].
Qed.

Lemma X27_witness :
  LoadCSS StyleSamples.sheet
    ("." +:+ "a" +:+ "{" +:+ "color" +:+ ":" +:+ "red" +:+ "}")
  = <["a" := <["color" := "red"]>
               (default ∅ (StyleSamples.sheet !! "a"))]>
      StyleSamples.sheet.
Proof.
  apply (X27_LoadCSS_reads_a_rule StyleSamples.sheet "a" "color" "red").
  - apply word_a.
  - apply word_color.
  - apply word_red.
Defined.

Lemma X28_witness :
  is_Some (declared (LoadCSS StyleSamples.sheet ".b{}") "b" "color").
Proof.
  apply (X28_LoadCSS_keeps_what_was_loaded StyleSamples.sheet ".b{}"
           "b" "color").
  by eexists.
Defined.

Lemma X29_witness :
  LoadCSS StyleSamples.sheet (".a{color:red}" +:+ "/*" +:+ ".b{color:red}")
  = LoadCSS StyleSamples.sheet ".a{color:red}".
Proof.
  apply (X29_LoadCSS_stops_at_an_open_comment StyleSamples.sheet
           ".a{color:red}" ".b{color:red}").
  - by apply (bool_decide_unpack _).
  - reflexivity.
Defined.

Lemma X30_witness :
  exists h',
    AddClass
      (LoadCSS ∅ ("." +:+ "a" +:+ "{" +:+ "color" +:+ ":" +:+ "red" +:+ "}"))
      2 StyleSamples.styled (Some 2%positive) "a" = Some h'
    /\ local h' 2%positive "color" = Some "red"
    /\ HasClass 2 h' (Some 2%positive) "a" = Some true.
Proof.
  apply (X30_loaded_rule_styles_the_node 2 StyleSamples.styled 2%positive
           "a" "color" "red" "b").
  - apply word_a.
  - by apply (bool_decide_unpack _).
  - apply word_color.
  - apply word_red.
  - discriminate.
  - reflexivity.
  - by apply (bool_decide_unpack _).
Defined.

End StyleSheetFacts.
